(** * Scroll distortion effect (no-loop variant) and its Webflow controller

    A shallow embedding of [scroll-distortion-noloop.js] (the class
    [ScrollDistortionEffect]) and of [webflow-controller.js] (both revisions
    of the class [WebflowGLController]), followed by the properties of the
    transition state machine, the texture loading callbacks, the state-class
    extraction and the scroll lock.

    Conventions of the embedding.
    - An object is a record of its fields; a method is a function from the
      record to the new record.  A method that can throw returns an
      [option].
    - The host (browser) is explicit: the animation-frame queue, the timer
      table, the window listeners, the console and the invocations of user
      callbacks are fields of the records; a reading of [Date.now()] is a
      parameter of the method that reads it.
    - Image indices and state numbers are integers ([Z]).  A clock reading
      is an integer number of milliseconds ([Z]), turned into the binary64
      number nearest to it where the code computes with it.  The duration,
      the eased progress, the intensity and the overscan factor are IEEE
      binary64 numbers ([float]), and the arithmetic on them is the one of
      the primitive floats, rounding for rounding.  [Math.pow] alone is
      left by ECMA-262 to the implementation (its result is
      implementation-approximated): the cube the host computes is a field
      of the engine's state, so that a property stated for every state
      holds in every host.
    - The rendering surface (scene, camera, renderer, mesh), the resize
      handler and the loading of displacement maps are outside the
      embedding: no modelled method reads what they write, apart from the
      fields [displacementTextures] and [displacementTexture], which are
      left universally quantified.  So are, in the controller, the lookup
      of the two elements, the mutation observer, the content sections and
      the construction of the engine: the controller is modelled from the
      class list it is shown and the engine it holds. *)

From Stdlib Require Import Floats ZArith Lia Bool.
From Stdlib Require Import Ascii String.
From stdpp Require Import base option list strings.

Set Warnings "-inexact-float".
Open Scope Z_scope.

(** ** Record update *)

Class Setter {R A : Type} (proj : R -> A) := { set : (A -> A) -> R -> R }.
Arguments set {R A} proj {_} _ _.

#[warning="-postfix-notation-not-level-1"]
Notation "s <| p := v |>" := (set p (fun _ => v) s)
  (at level 12, left associativity, format "s  <| p  :=  v |>").

(** ** JavaScript values used by both classes *)

Module Js.

(** An array with holes: [None] is an index never assigned (it reads as
    [undefined]). *)
Abbreviation array A := (list (option A)) (only parsing).

(** [a[i]] for a number [i]: [undefined] below zero and from [a.length]
    on. *)
Definition get {A} (a : array A) (i : Z) : option A :=
  if 0 <=? i then mjoin (a !! Z.to_nat i) else None.

(** [a[i] = x]: an index from [a.length] on extends the array with holes. *)
Definition put {A} (a : array A) (i : nat) (x : A) : array A :=
  if (i <? length a)%nat then <[i := Some x]> a
  else a ++ replicate (i - length a) None ++ [Some x].

(** Truthiness of an object reference that may be [undefined]. *)
Definition defined {A} (o : option A) : bool :=
  match o with Some _ => true | None => false end.

(** Truthiness of a number that may be [undefined]: zero is falsy. *)
Definition truthy_number (o : option Z) : bool :=
  match o with Some n => negb (n =? 0) | None => false end.

(** [a.length] as a number. *)
Definition len {A} (a : list A) : Z := Z.of_nat (length a).

(** [Math.min] on binary64 numbers: NaN is contagious and [-0 < +0]. *)
Definition Math_min (a b : float) : float :=
  if (PrimFloat.is_nan a || PrimFloat.is_nan b)%bool then PrimFloat.nan
  else if PrimFloat.ltb a b then a
  else if PrimFloat.ltb b a then b
  else if PrimFloat.get_sign a then a else b.

(** The number of an integer: the nearest binary64, ties to even; it is
    the integer itself up to [2^53] in absolute value. *)
Definition number (z : Z) : float :=
  SF2Prim (binary_normalize prec emax z 0 false).

(** [Math.pow(b, 3)] in a host that multiplies.  For a NaN, a zero or an
    infinity it is the result ECMA-262 prescribes. *)
Definition cube (b : float) : float := (b * b * b)%float.

End Js.

(** ** The transition engine: [ScrollDistortionEffect] *)

Module Engine.
Import Js.

(** A [THREE.Vector2] holding a width and a height. *)
Definition Vector2 : Type := (Z * Z)%type.

(** A loaded [THREE.Texture]: the source it was loaded from and, when the
    loader attached one, the natural size of its image. *)
Record Texture := mkTexture {
  source : string;
  image : option Vector2
}.

(** The uniforms of the shader material that the methods write. *)
Record Uniforms := mkUniforms {
  texture1 : option Texture;
  texture2 : option Texture;
  displacement : option Texture;
  progress : float;
  u_intensity : float;
  texRes1 : Vector2;
  texRes2 : Vector2
}.

(** A user callback is known by its name. *)
Definition Callback : Type := string.

(** What the engine does to the host, besides queueing frames. *)
Inductive Event :=
| ConsoleError (msg : string) (arg : option Z)
| Invoke (f : Callback) (arg : Z)
| Dispose (t : Texture).

(** The fields of the object, then the three host fields: [frames] counts
    the [animateProgress] callbacks handed to [requestAnimationFrame] and
    not yet run, [trace] lists the events, the latest first, and
    [Math_pow_3 b] is what [Math.pow(b, 3)] returns in this host. *)
Record t := mkEngine {
  images : list string;
  intensity : float;
  transitionSpeed : float;
  onImageChange : option Callback;
  currentIndex : Z;
  isTransitioning : bool;
  startTime : option Z;
  targetIndex : option Z;
  textures : array Texture;
  textureResolutions : array Vector2;
  displacementTextures : array Texture;
  displacementTexture : option Texture;
  material : option Uniforms;
  pendingInitialIndex : option Z;
  frames : nat;
  trace : list Event;
  Math_pow_3 : float -> float
}.

#[global] Instance set_texture1 : Setter texture1 :=
  {| set := fun f s => {| texture1 := f (texture1 s); texture2 := texture2 s;
       displacement := displacement s; progress := progress s;
       u_intensity := u_intensity s; texRes1 := texRes1 s;
       texRes2 := texRes2 s |} |}.
#[global] Instance set_texture2 : Setter texture2 :=
  {| set := fun f s => {| texture1 := texture1 s; texture2 := f (texture2 s);
       displacement := displacement s; progress := progress s;
       u_intensity := u_intensity s; texRes1 := texRes1 s;
       texRes2 := texRes2 s |} |}.
#[global] Instance set_displacement : Setter displacement :=
  {| set := fun f s => {| texture1 := texture1 s; texture2 := texture2 s;
       displacement := f (displacement s); progress := progress s;
       u_intensity := u_intensity s; texRes1 := texRes1 s;
       texRes2 := texRes2 s |} |}.
#[global] Instance set_progress : Setter progress :=
  {| set := fun f s => {| texture1 := texture1 s; texture2 := texture2 s;
       displacement := displacement s; progress := f (progress s);
       u_intensity := u_intensity s; texRes1 := texRes1 s;
       texRes2 := texRes2 s |} |}.
#[global] Instance set_u_intensity : Setter u_intensity :=
  {| set := fun f s => {| texture1 := texture1 s; texture2 := texture2 s;
       displacement := displacement s; progress := progress s;
       u_intensity := f (u_intensity s); texRes1 := texRes1 s;
       texRes2 := texRes2 s |} |}.
#[global] Instance set_texRes1 : Setter texRes1 :=
  {| set := fun f s => {| texture1 := texture1 s; texture2 := texture2 s;
       displacement := displacement s; progress := progress s;
       u_intensity := u_intensity s; texRes1 := f (texRes1 s);
       texRes2 := texRes2 s |} |}.
#[global] Instance set_texRes2 : Setter texRes2 :=
  {| set := fun f s => {| texture1 := texture1 s; texture2 := texture2 s;
       displacement := displacement s; progress := progress s;
       u_intensity := u_intensity s; texRes1 := texRes1 s;
       texRes2 := f (texRes2 s) |} |}.

#[global] Instance set_images : Setter images :=
  {| set := fun f s => {| images := f (images s); intensity := intensity s;
       transitionSpeed := transitionSpeed s;
       onImageChange := onImageChange s; currentIndex := currentIndex s;
       isTransitioning := isTransitioning s; startTime := startTime s;
       targetIndex := targetIndex s; textures := textures s;
       textureResolutions := textureResolutions s;
       displacementTextures := displacementTextures s;
       displacementTexture := displacementTexture s; material := material s;
       pendingInitialIndex := pendingInitialIndex s; frames := frames s;
       trace := trace s; Math_pow_3 := Math_pow_3 s |} |}.
#[global] Instance set_intensity : Setter intensity :=
  {| set := fun f s => {| images := images s; intensity := f (intensity s);
       transitionSpeed := transitionSpeed s;
       onImageChange := onImageChange s; currentIndex := currentIndex s;
       isTransitioning := isTransitioning s; startTime := startTime s;
       targetIndex := targetIndex s; textures := textures s;
       textureResolutions := textureResolutions s;
       displacementTextures := displacementTextures s;
       displacementTexture := displacementTexture s; material := material s;
       pendingInitialIndex := pendingInitialIndex s; frames := frames s;
       trace := trace s; Math_pow_3 := Math_pow_3 s |} |}.
#[global] Instance set_transitionSpeed : Setter transitionSpeed :=
  {| set := fun f s => {| images := images s; intensity := intensity s;
       transitionSpeed := f (transitionSpeed s);
       onImageChange := onImageChange s; currentIndex := currentIndex s;
       isTransitioning := isTransitioning s; startTime := startTime s;
       targetIndex := targetIndex s; textures := textures s;
       textureResolutions := textureResolutions s;
       displacementTextures := displacementTextures s;
       displacementTexture := displacementTexture s; material := material s;
       pendingInitialIndex := pendingInitialIndex s; frames := frames s;
       trace := trace s; Math_pow_3 := Math_pow_3 s |} |}.
#[global] Instance set_onImageChange : Setter onImageChange :=
  {| set := fun f s => {| images := images s; intensity := intensity s;
       transitionSpeed := transitionSpeed s;
       onImageChange := f (onImageChange s); currentIndex := currentIndex s;
       isTransitioning := isTransitioning s; startTime := startTime s;
       targetIndex := targetIndex s; textures := textures s;
       textureResolutions := textureResolutions s;
       displacementTextures := displacementTextures s;
       displacementTexture := displacementTexture s; material := material s;
       pendingInitialIndex := pendingInitialIndex s; frames := frames s;
       trace := trace s; Math_pow_3 := Math_pow_3 s |} |}.
#[global] Instance set_currentIndex : Setter currentIndex :=
  {| set := fun f s => {| images := images s; intensity := intensity s;
       transitionSpeed := transitionSpeed s;
       onImageChange := onImageChange s; currentIndex := f (currentIndex s);
       isTransitioning := isTransitioning s; startTime := startTime s;
       targetIndex := targetIndex s; textures := textures s;
       textureResolutions := textureResolutions s;
       displacementTextures := displacementTextures s;
       displacementTexture := displacementTexture s; material := material s;
       pendingInitialIndex := pendingInitialIndex s; frames := frames s;
       trace := trace s; Math_pow_3 := Math_pow_3 s |} |}.
#[global] Instance set_isTransitioning : Setter isTransitioning :=
  {| set := fun f s => {| images := images s; intensity := intensity s;
       transitionSpeed := transitionSpeed s;
       onImageChange := onImageChange s; currentIndex := currentIndex s;
       isTransitioning := f (isTransitioning s); startTime := startTime s;
       targetIndex := targetIndex s; textures := textures s;
       textureResolutions := textureResolutions s;
       displacementTextures := displacementTextures s;
       displacementTexture := displacementTexture s; material := material s;
       pendingInitialIndex := pendingInitialIndex s; frames := frames s;
       trace := trace s; Math_pow_3 := Math_pow_3 s |} |}.
#[global] Instance set_startTime : Setter startTime :=
  {| set := fun f s => {| images := images s; intensity := intensity s;
       transitionSpeed := transitionSpeed s;
       onImageChange := onImageChange s; currentIndex := currentIndex s;
       isTransitioning := isTransitioning s; startTime := f (startTime s);
       targetIndex := targetIndex s; textures := textures s;
       textureResolutions := textureResolutions s;
       displacementTextures := displacementTextures s;
       displacementTexture := displacementTexture s; material := material s;
       pendingInitialIndex := pendingInitialIndex s; frames := frames s;
       trace := trace s; Math_pow_3 := Math_pow_3 s |} |}.
#[global] Instance set_targetIndex : Setter targetIndex :=
  {| set := fun f s => {| images := images s; intensity := intensity s;
       transitionSpeed := transitionSpeed s;
       onImageChange := onImageChange s; currentIndex := currentIndex s;
       isTransitioning := isTransitioning s; startTime := startTime s;
       targetIndex := f (targetIndex s); textures := textures s;
       textureResolutions := textureResolutions s;
       displacementTextures := displacementTextures s;
       displacementTexture := displacementTexture s; material := material s;
       pendingInitialIndex := pendingInitialIndex s; frames := frames s;
       trace := trace s; Math_pow_3 := Math_pow_3 s |} |}.
#[global] Instance set_textures : Setter textures :=
  {| set := fun f s => {| images := images s; intensity := intensity s;
       transitionSpeed := transitionSpeed s;
       onImageChange := onImageChange s; currentIndex := currentIndex s;
       isTransitioning := isTransitioning s; startTime := startTime s;
       targetIndex := targetIndex s; textures := f (textures s);
       textureResolutions := textureResolutions s;
       displacementTextures := displacementTextures s;
       displacementTexture := displacementTexture s; material := material s;
       pendingInitialIndex := pendingInitialIndex s; frames := frames s;
       trace := trace s; Math_pow_3 := Math_pow_3 s |} |}.
#[global] Instance set_textureResolutions : Setter textureResolutions :=
  {| set := fun f s => {| images := images s; intensity := intensity s;
       transitionSpeed := transitionSpeed s;
       onImageChange := onImageChange s; currentIndex := currentIndex s;
       isTransitioning := isTransitioning s; startTime := startTime s;
       targetIndex := targetIndex s; textures := textures s;
       textureResolutions := f (textureResolutions s);
       displacementTextures := displacementTextures s;
       displacementTexture := displacementTexture s; material := material s;
       pendingInitialIndex := pendingInitialIndex s; frames := frames s;
       trace := trace s; Math_pow_3 := Math_pow_3 s |} |}.
#[global] Instance set_displacementTextures : Setter displacementTextures :=
  {| set := fun f s => {| images := images s; intensity := intensity s;
       transitionSpeed := transitionSpeed s;
       onImageChange := onImageChange s; currentIndex := currentIndex s;
       isTransitioning := isTransitioning s; startTime := startTime s;
       targetIndex := targetIndex s; textures := textures s;
       textureResolutions := textureResolutions s;
       displacementTextures := f (displacementTextures s);
       displacementTexture := displacementTexture s; material := material s;
       pendingInitialIndex := pendingInitialIndex s; frames := frames s;
       trace := trace s; Math_pow_3 := Math_pow_3 s |} |}.
#[global] Instance set_displacementTexture : Setter displacementTexture :=
  {| set := fun f s => {| images := images s; intensity := intensity s;
       transitionSpeed := transitionSpeed s;
       onImageChange := onImageChange s; currentIndex := currentIndex s;
       isTransitioning := isTransitioning s; startTime := startTime s;
       targetIndex := targetIndex s; textures := textures s;
       textureResolutions := textureResolutions s;
       displacementTextures := displacementTextures s;
       displacementTexture := f (displacementTexture s);
       material := material s; pendingInitialIndex := pendingInitialIndex s;
       frames := frames s; trace := trace s; Math_pow_3 := Math_pow_3 s |} |}.
#[global] Instance set_material : Setter material :=
  {| set := fun f s => {| images := images s; intensity := intensity s;
       transitionSpeed := transitionSpeed s;
       onImageChange := onImageChange s; currentIndex := currentIndex s;
       isTransitioning := isTransitioning s; startTime := startTime s;
       targetIndex := targetIndex s; textures := textures s;
       textureResolutions := textureResolutions s;
       displacementTextures := displacementTextures s;
       displacementTexture := displacementTexture s;
       material := f (material s);
       pendingInitialIndex := pendingInitialIndex s; frames := frames s;
       trace := trace s; Math_pow_3 := Math_pow_3 s |} |}.
#[global] Instance set_pendingInitialIndex : Setter pendingInitialIndex :=
  {| set := fun f s => {| images := images s; intensity := intensity s;
       transitionSpeed := transitionSpeed s;
       onImageChange := onImageChange s; currentIndex := currentIndex s;
       isTransitioning := isTransitioning s; startTime := startTime s;
       targetIndex := targetIndex s; textures := textures s;
       textureResolutions := textureResolutions s;
       displacementTextures := displacementTextures s;
       displacementTexture := displacementTexture s; material := material s;
       pendingInitialIndex := f (pendingInitialIndex s); frames := frames s;
       trace := trace s; Math_pow_3 := Math_pow_3 s |} |}.
#[global] Instance set_frames : Setter frames :=
  {| set := fun f s => {| images := images s; intensity := intensity s;
       transitionSpeed := transitionSpeed s;
       onImageChange := onImageChange s; currentIndex := currentIndex s;
       isTransitioning := isTransitioning s; startTime := startTime s;
       targetIndex := targetIndex s; textures := textures s;
       textureResolutions := textureResolutions s;
       displacementTextures := displacementTextures s;
       displacementTexture := displacementTexture s; material := material s;
       pendingInitialIndex := pendingInitialIndex s; frames := f (frames s);
       trace := trace s; Math_pow_3 := Math_pow_3 s |} |}.
#[global] Instance set_trace : Setter trace :=
  {| set := fun f s => {| images := images s; intensity := intensity s;
       transitionSpeed := transitionSpeed s;
       onImageChange := onImageChange s; currentIndex := currentIndex s;
       isTransitioning := isTransitioning s; startTime := startTime s;
       targetIndex := targetIndex s; textures := textures s;
       textureResolutions := textureResolutions s;
       displacementTextures := displacementTextures s;
       displacementTexture := displacementTexture s; material := material s;
       pendingInitialIndex := pendingInitialIndex s; frames := frames s;
       trace := f (trace s); Math_pow_3 := Math_pow_3 s |} |}.

Definition log (e : Event) (s : t) : t := s <| trace := e :: trace s |>.

(** [requestAnimationFrame(() => this.animateProgress())]. *)
Definition requestAnimationFrame (s : t) : t := s <| frames := S (frames s) |>.

(** The options object given to [new ScrollDistortionEffect(options)];
    [None] is an option left out. *)
Record Options := mkOptions {
  opt_images : option (list string);
  opt_intensity : option float;
  opt_transitionSpeed : option float;
  opt_onImageChange : option Callback
}.

(** [options.intensity || 0.4]: zero and NaN are falsy. *)
Definition intensity_or_default (o : option float) : float :=
  match o with
  | Some v =>
      if (PrimFloat.is_zero v || PrimFloat.is_nan v)%bool then 0.4%float
      else v
  | None => 0.4%float
  end.

(** [options.transitionSpeed || 1.2]: zero and NaN are falsy. *)
Definition speed_or_default (o : option float) : float :=
  match o with
  | Some v =>
      if (PrimFloat.is_zero v || PrimFloat.is_nan v)%bool then 1.2%float
      else v
  | None => 1.2%float
  end.

(** [constructor]: the configuration with its defaults, and the fields as
    they are once [loadTextures] has emptied the two arrays.  The loads the
    constructor starts complete later, if at all.  The host of the engine
    it builds is one that multiplies. *)
Definition constructor (options : Options) : t :=
  {| images := default [] (opt_images options);
     intensity := intensity_or_default (opt_intensity options);
     transitionSpeed := speed_or_default (opt_transitionSpeed options);
     onImageChange := opt_onImageChange options;
     currentIndex := 0;
     isTransitioning := false;
     startTime := None;
     targetIndex := None;
     textures := [];
     textureResolutions := [];
     displacementTextures := [];
     displacementTexture := None;
     material := None;
     pendingInitialIndex := None;
     frames := 0;
     trace := [];
     Math_pow_3 := cube |}.

(** [getDisplacementIndex(targetIndex)]. *)
Definition getDisplacementIndex (target : Z) : Z :=
  if (target >=? 0) && (target <=? 2) then 0
  else if (target >=? 3) && (target <=? 6) then 1
  else if (target >=? 7) && (target <=? 10) then 2
  else 0.

(** [new THREE.Vector2(1920, 1080)], the resolution of an image whose size
    is not known. *)
Definition fallbackResolution : Vector2 := (1920, 1080).

(** [createMaterial()]: the uniforms the shader material starts with. *)
Definition createMaterial (s : t) : t :=
  s <| material := Some
       {| texture1 := get (textures s) 0;
          texture2 := get (textures s) 1;
          displacement := displacementTexture s;
          progress := 0%float;
          u_intensity := intensity s;
          texRes1 := default fallbackResolution (get (textureResolutions s) 0);
          texRes2 := default fallbackResolution (get (textureResolutions s) 1)
       |} |>.

(** [computeOverscanFactor()]. *)
Definition computeOverscanFactor (s : t) : float :=
  let base := 1.05%float in
  let extra := Math_min 0.6%float (intensity s * 1.2)%float in
  (base + extra)%float.

(** [easeOut(t)]. *)
Definition easeOut (x : float) (s : t) : float :=
  (1 - Math_pow_3 s (1 - x))%float.

(** [Math.max(0, Math.min(index, this.config.images.length - 1))]. *)
Definition clampIndex (index : Z) (s : t) : Z :=
  Z.max 0 (Z.min index (len (images s) - 1)).

(** [applyInitialImage(index)]. *)
Definition applyInitialImage (index : Z) (s : t) : t :=
  match material s with
  | None => s
  | Some m =>
      if negb (defined (get (textures s) index)) then s
      else
        let safeIndex := clampIndex index s in
        let displacementIndex := getDisplacementIndex safeIndex in
        let '(s, m) :=
          match get (displacementTextures s) displacementIndex with
          | Some d =>
              (s <| displacementTexture := Some d |>,
               m <| displacement := Some d |>)
          | None => (s, m)
          end in
        let m := m <| texture1 := get (textures s) safeIndex |> in
        let nextIndex := Z.min (safeIndex + 1) (len (images s) - 1) in
        let m :=
          match get (textures s) nextIndex with
          | Some next =>
              m <| texture2 := Some next |>
                <| texRes2 := default fallbackResolution
                                (get (textureResolutions s) nextIndex) |>
          | None => m
          end in
        let m :=
          m <| texRes1 := default fallbackResolution
                            (get (textureResolutions s) safeIndex) |>
            <| progress := 0%float |> in
        s <| material := Some m |> <| currentIndex := safeIndex |>
  end.

(** [onTexturesLoaded()]; the mesh it creates is outside the embedding. *)
Definition onTexturesLoaded (s : t) : t :=
  if negb (defined (get (textures s) 0))
     || negb (defined (get (textures s) 1))
     || negb (defined (displacementTexture s))
     || defined (material s)
  then s
  else
    let s := createMaterial s in
    match pendingInitialIndex s with
    | Some pending =>
        (applyInitialImage pending s) <| pendingInitialIndex := None |>
    | None => s
    end.

(** [animateProgress()], run at the clock reading [now].  It throws when
    the material is missing; the embedding does not follow a run whose
    [startTime] or, at completion, [targetIndex] was never assigned (only
    [transitionTo] calls it, after assigning both). *)
Definition animateProgress (now : Z) (s : t) : option t :=
  start ← startTime s;
  m ← material s;
  let elapsed := ((number now - number start) / 1000)%float in
  let duration := transitionSpeed s in
  let x := Math_min (elapsed / duration) 1 in
  let x := easeOut x s in
  let m := m <| progress := x |> in
  let s := s <| material := Some m |> in
  if PrimFloat.ltb x 1 then Some (requestAnimationFrame s)
  else
    target ← targetIndex s;
    let s := s <| currentIndex := target |> <| isTransitioning := false |> in
    let m := m <| progress := 0%float |> in
    let nextIndex := Z.min (currentIndex s + 1) (len (images s) - 1) in
    let m := m <| texture1 := get (textures s) (currentIndex s) |> in
    let m := m <| texture2 := get (textures s) nextIndex |> in
    let m := m <| texRes1 := default (texRes1 m)
                     (get (textureResolutions s) (currentIndex s)) |> in
    let m := m <| texRes2 := default (texRes2 m)
                     (get (textureResolutions s) nextIndex) |> in
    Some (s <| material := Some m |>).

(** The value [animateProgress] gives to [t] before easing it, for a
    transition started at [start] and a frame run at [now]. *)
Definition rawTime (start now : Z) (s : t) : float :=
  Math_min ((number now - number start) / 1000 / transitionSpeed s) 1.

(** The test [t < 1] that [animateProgress] makes on the eased value: the
    frame run at [now] asks for another one. *)
Definition goesOn (start now : Z) (s : t) : bool :=
  PrimFloat.ltb (easeOut (rawTime start now s) s) 1.

(** [transitionTo(targetIndex)]; [t0] is the clock reading stored in
    [startTime], [t1] the one of the first [animateProgress]. *)
Definition transitionTo (target : Z) (t0 t1 : Z) (s : t) : option t :=
  if isTransitioning s || (target =? currentIndex s)
     || negb (defined (material s))
  then Some s
  else if negb (defined (get (textures s) target))
  then Some (log (ConsoleError "Target texture not loaded:" (Some target)) s)
  else
    let s := s <| isTransitioning := true |> <| startTime := Some t0 |>
               <| targetIndex := Some target |> in
    m ← material s;
    let displacementIndex := getDisplacementIndex target in
    let '(s, m) :=
      match get (displacementTextures s) displacementIndex with
      | Some d =>
          (s <| displacementTexture := Some d |>,
           m <| displacement := Some d |>)
      | None => (s, m)
      end in
    let m := m <| texture1 := get (textures s) (currentIndex s) |> in
    let m := m <| texture2 := get (textures s) target |> in
    let m := m <| texRes1 := default (texRes1 m)
                     (get (textureResolutions s) (currentIndex s)) |> in
    let m := m <| texRes2 := default (texRes2 m)
                     (get (textureResolutions s) target) |> in
    let s := s <| material := Some m |> in
    let s :=
      match onImageChange s with
      | Some f => log (Invoke f target) s
      | None => s
      end in
    animateProgress t1 s.

(** [transitionToNext()]. *)
Definition transitionToNext (t0 t1 : Z) (s : t) : option t :=
  if isTransitioning s || negb (defined (material s)) then Some s
  else
    let atLast := currentIndex s >=? len (images s) - 1 in
    if atLast then Some s
    else
      let nextIndex := currentIndex s + 1 in
      transitionTo nextIndex t0 t1 s.

(** [transitionToPrevious()]. *)
Definition transitionToPrevious (t0 t1 : Z) (s : t) : option t :=
  if isTransitioning s || negb (defined (material s)) then Some s
  else
    let atFirst := currentIndex s <=? 0 in
    if atFirst then Some s
    else
      let prevIndex := currentIndex s - 1 in
      transitionTo prevIndex t0 t1 s.

(** The host runs one queued [animateProgress] callback at the clock
    reading [now]; with none queued nothing happens. *)
Definition frame (now : Z) (s : t) : option t :=
  match frames s with
  | O => Some s
  | S n => animateProgress now (s <| frames := n |>)
  end.

(** The host runs queued callbacks at the clock readings [times], in
    order. *)
Fixpoint run_frames (times : list Z) (s : t) : option t :=
  match times with
  | [] => Some s
  | now :: times => s' ← frame now s; run_frames times s'
  end.

(** [setIntensity(value)]; the geometry it rebuilds is outside the
    embedding. *)
Definition setIntensity (value : float) (s : t) : t :=
  let s := s <| intensity := value |> in
  match material s with
  | Some m => s <| material := Some (m <| u_intensity := value |>) |>
  | None => s
  end.

(** [setTransitionSpeed(value)]. *)
Definition setTransitionSpeed (value : float) (s : t) : t :=
  s <| transitionSpeed := value |>.

(** [getCurrentIndex()]. *)
Definition getCurrentIndex (s : t) : Z := currentIndex s.

(** [isInTransition()]. *)
Definition isInTransition (s : t) : bool := isTransitioning s.

(** [setInitialImage(index)]. *)
Definition setInitialImage (index : Z) (s : t) : t :=
  let safeIndex := clampIndex index s in
  let s := s <| currentIndex := safeIndex |> in
  if defined (material s) && (0 <? len (textures s))
     && defined (get (textures s) safeIndex)
  then applyInitialImage safeIndex s
  else if negb (truthy_number (pendingInitialIndex s))
  then s <| pendingInitialIndex := Some safeIndex |>
  else s.

(** [texture.dispose()] on every loaded entry of an array. *)
Definition disposeAll (a : array Texture) (s : t) : t :=
  fold_left
    (fun s entry =>
       match entry with Some texture => log (Dispose texture) s | None => s end)
    a s.

(** The variables of one call of [setImages] that its load callbacks
    close over. *)
Record SetImagesLoad := mkSetImagesLoad {
  loadedImageCount : nat;
  totalImages : nat
}.

(** [setImages(imageUrls)], up to the point where the loads are started:
    one load per index of [imageUrls].  The method declares one parameter;
    a second argument, as the revised controller passes, is bound to
    nothing and never read.  The result holds the closure variables of the
    loads, or nothing when the array is refused. *)
Definition setImages (imageUrls : list string) (_onComplete : option Callback)
    (s : t) : option SetImagesLoad * t :=
  if len imageUrls =? 0
  then (None, log (ConsoleError "setImages: Invalid imageUrls array" None) s)
  else
    let s :=
      if 0 <? len (textures s) then disposeAll (textures s) s else s in
    let s := s <| textures := [] |> <| textureResolutions := [] |>
               <| images := imageUrls |> in
    (Some {| loadedImageCount := 0; totalImages := length imageUrls |}, s).

(** The first statements of a success callback: the texture is stored at
    its index, and its resolution when the texture has an image. *)
Definition storeTexture (index : nat) (texture : Texture) (s : t) : t :=
  let s := s <| textures := put (textures s) index texture |> in
  match image texture with
  | Some size =>
      s <| textureResolutions := put (textureResolutions s) index size |>
  | None => s
  end.

(** The success callback of the load of index [index] started by
    [setImages]. *)
Definition setImages_onLoad (index : nat) (texture : Texture)
    (c : SetImagesLoad) (s : t) : SetImagesLoad * t :=
  let s := storeTexture index texture s in
  let c := {| loadedImageCount := S (loadedImageCount c);
              totalImages := totalImages c |} in
  if (2 <=? loadedImageCount c)%nat && defined (displacementTexture s) then
    match material s with
    | Some m =>
        match pendingInitialIndex s with
        | Some pending =>
            (c, (applyInitialImage pending s) <| pendingInitialIndex := None |>)
        | None =>
            let second := Z.min 1 (Z.of_nat (totalImages c) - 1) in
            let m := m <| texture1 := get (textures s) 0 |> in
            let m := m <| texture2 := get (textures s) second |> in
            let m := m <| texRes1 := default fallbackResolution
                             (get (textureResolutions s) 0) |> in
            let m := m <| texRes2 := default fallbackResolution
                             (get (textureResolutions s) second) |> in
            (c, s <| material := Some m |>)
        end
    | None => (c, onTexturesLoaded s)
    end
  else (c, s).

(** The error callback of the load of index [index] started by
    [setImages]. *)
Definition setImages_onError (index : nat) (c : SetImagesLoad) (s : t)
    : SetImagesLoad * t :=
  (c, log (ConsoleError "Failed to load image" (Some (Z.of_nat index))) s).

(** How the host ends one load. *)
Inductive LoadResult :=
| Loaded (index : nat) (texture : Texture)
| Failed (index : nat).

(** The host ends one load of a [setImages] call. *)
Definition deliver (r : LoadResult) (cs : SetImagesLoad * t)
    : SetImagesLoad * t :=
  match r with
  | Loaded index texture => setImages_onLoad index texture (fst cs) (snd cs)
  | Failed index => setImages_onError index (fst cs) (snd cs)
  end.

(** The host ends several loads of a [setImages] call, in order. *)
Definition deliverAll (results : list LoadResult) (cs : SetImagesLoad * t)
    : SetImagesLoad * t :=
  fold_left (fun cs r => deliver r cs) results cs.

(** [setImages(imageUrls, onComplete)] followed by the ends of its loads,
    in the order the host delivers them. *)
Definition setImages_then (imageUrls : list string)
    (onComplete : option Callback) (results : list LoadResult) (s : t) : t :=
  match setImages imageUrls onComplete s with
  | (Some c, s) => snd (deliverAll results (c, s))
  | (None, s) => s
  end.

(** The invocations of the callback [f] recorded in a trace. *)
Definition invocations (f : Callback) (tr : list Event) : nat :=
  length
    (List.filter
       (fun e => match e with Invoke g _ => String.eqb g f | _ => false end)
       tr).

(** A value found where the URL of a displacement map is expected: a
    string, or [undefined]. *)
Definition Url : Type := option string.

(** The code units below 256 that [String.prototype.trim] strips. *)
Definition isWhiteSpace (c : ascii) : bool :=
  let n := nat_of_ascii c in
  ((9 <=? n)%nat && (n <=? 13)%nat) || (n =? 32)%nat || (n =? 160)%nat.

Fixpoint trimStart (s : string) : string :=
  match s with
  | EmptyString => EmptyString
  | String c rest => if isWhiteSpace c then trimStart rest else s
  end.

Fixpoint trimEnd (s : string) : string :=
  match s with
  | EmptyString => EmptyString
  | String c rest =>
      match trimEnd rest with
      | EmptyString => if isWhiteSpace c then EmptyString else String c EmptyString
      | rest' => String c rest'
      end
  end.

(** [s.trim()]. *)
Definition trim (s : string) : string := trimEnd (trimStart s).

Definition isEmpty (s : string) : bool :=
  match s with EmptyString => true | String _ _ => false end.

(** Truthiness of a string that may be [undefined]. *)
Definition truthy_string (url : Url) : bool :=
  match url with Some s => negb (isEmpty s) | None => false end.

(** [url && typeof url === 'string' && url.trim() !== ''], the test of
    [loadTextures] and [setDisplacementImages]. *)
Definition validUrl (url : Url) : bool :=
  match url with
  | Some s => negb (isEmpty s) && negb (isEmpty (trim s))
  | None => false
  end.

(** The two options of the constructor that name displacement maps;
    [None] is an option left out. *)
Record DisplacementOptions := mkDisplacementOptions {
  opt_displacementImages : option (list Url);
  opt_displacementImage : Url
}.

(** [options.displacementImages || options.displacementImage ?
    [options.displacementImage] : []], the value of
    [config.displacementImages]: the conditional operator binds weaker than
    [||], so the array is its condition, never its value; an array is
    truthy, the empty one too. *)
Definition config_displacementImages (o : DisplacementOptions) : list Url :=
  if defined (opt_displacementImages o) || truthy_string (opt_displacementImage o)
  then [opt_displacementImage o]
  else [].

(** The indices at which [forEach] starts a load: those of the valid
    entries. *)
Definition startedLoads (urls : list Url) : list nat :=
  List.filter (fun index => validUrl (mjoin (urls !! index)))
    (seq 0 (length urls)).

(** The variables of [loadTextures] that its load callbacks close over;
    [loadedImages] is its [loadedImageCount]. *)
Record TexturesLoad := mkTexturesLoad {
  loadedImages : nat;
  loadedDisplacementCount : nat;
  validDisplacementCount : nat
}.

(** [loadTextures()], up to the point where the loads are started: one per
    index of [config.images], and one per index of [startedLoads] of
    [config.displacementImages], which only this method reads.  The
    warnings about the entries skipped are not recorded. *)
Definition loadTextures (displacementImages : list Url) (s : t)
    : TexturesLoad * t :=
  let s := s <| textures := [] |> <| textureResolutions := [] |> in
  ({| loadedImages := 0;
      loadedDisplacementCount := 0;
      validDisplacementCount :=
        length (List.filter validUrl displacementImages) |},
   s).

(** [loadedImageCount >= 2 && loadedDisplacementCount >=
    validDisplacementCount && validDisplacementCount > 0]. *)
Definition texturesReady (c : TexturesLoad) : bool :=
  (2 <=? loadedImages c)%nat
  && (validDisplacementCount c <=? loadedDisplacementCount c)%nat
  && (0 <? validDisplacementCount c)%nat.

(** The success callback of the load of the image [index] started by
    [loadTextures]. *)
Definition loadTextures_onImage (index : nat) (texture : Texture)
    (c : TexturesLoad) (s : t) : TexturesLoad * t :=
  let s := storeTexture index texture s in
  let c := {| loadedImages := S (loadedImages c);
              loadedDisplacementCount := loadedDisplacementCount c;
              validDisplacementCount := validDisplacementCount c |} in
  if texturesReady c then (c, onTexturesLoaded s) else (c, s).

(** The success callback of the load of the displacement map [index]
    started by [loadTextures]. *)
Definition loadTextures_onDisplacement (index : nat) (texture : Texture)
    (c : TexturesLoad) (s : t) : TexturesLoad * t :=
  let s :=
    s <| displacementTextures := put (displacementTextures s) index texture |> in
  let c := {| loadedImages := loadedImages c;
              loadedDisplacementCount := S (loadedDisplacementCount c);
              validDisplacementCount := validDisplacementCount c |} in
  let s :=
    if (index =? 0)%nat then s <| displacementTexture := Some texture |> else s in
  if texturesReady c then (c, onTexturesLoaded s) else (c, s).

(** How the host ends one load started by [loadTextures]. *)
Inductive TextureResult :=
| ImageLoaded (index : nat) (texture : Texture)
| ImageFailed (index : nat)
| DisplacementLoaded (index : nat) (texture : Texture)
| DisplacementFailed (index : nat).

Definition loadTextures_deliver (r : TextureResult) (cs : TexturesLoad * t)
    : TexturesLoad * t :=
  match r with
  | ImageLoaded index texture =>
      loadTextures_onImage index texture (fst cs) (snd cs)
  | ImageFailed index =>
      (fst cs,
       log (ConsoleError "Failed to load image" (Some (Z.of_nat index))) (snd cs))
  | DisplacementLoaded index texture =>
      loadTextures_onDisplacement index texture (fst cs) (snd cs)
  | DisplacementFailed index =>
      (fst cs,
       log (ConsoleError "Failed to load displacement map"
              (Some (Z.of_nat index))) (snd cs))
  end.

(** The host ends several of these loads, in order. *)
Definition loadTextures_deliverAll (results : list TextureResult)
    (cs : TexturesLoad * t) : TexturesLoad * t :=
  fold_left (fun cs r => loadTextures_deliver r cs) results cs.

(** [new ScrollDistortionEffect(options)]: the fields, then
    [loadTextures()].  The scene and the render loop are outside the
    embedding. *)
Definition new (options : Options) (maps : DisplacementOptions)
    : TexturesLoad * t :=
  loadTextures (config_displacementImages maps) (constructor options).

(** [setDisplacementImages(urls)], up to the point where the loads are
    started: the result lists their indices, or is nothing when the array
    is refused.  Its variable [loadedCount] is never read. *)
Definition setDisplacementImages (urls : list Url) (s : t)
    : option (list nat) * t :=
  if len urls =? 0
  then (None,
        log (ConsoleError "setDisplacementImages: Invalid urls array" None) s)
  else
    let s :=
      if 0 <? len (displacementTextures s)
      then disposeAll (displacementTextures s) s
      else s in
    let s := s <| displacementTextures := [] |> in
    (Some (startedLoads urls), s).

(** The success callback of the load of the map [index] started by
    [setDisplacementImages]. *)
Definition setDisplacementImages_onLoad (index : nat) (texture : Texture)
    (s : t) : t :=
  let s :=
    s <| displacementTextures := put (displacementTextures s) index texture |> in
  if (index =? 0)%nat then
    let s := s <| displacementTexture := Some texture |> in
    match material s with
    | Some m => s <| material := Some (m <| displacement := Some texture |>) |>
    | None => s
    end
  else s.

(** Its error callback. *)
Definition setDisplacementImages_onError (index : nat) (s : t) : t :=
  log (ConsoleError "Failed to load displacement map" (Some (Z.of_nat index))) s.

(** The host ends one load of a [setDisplacementImages] call. *)
Definition deliverMap (r : LoadResult) (s : t) : t :=
  match r with
  | Loaded index texture => setDisplacementImages_onLoad index texture s
  | Failed index => setDisplacementImages_onError index s
  end.

(** [setDisplacementImages(urls)] followed by the ends of its loads, in the
    order the host delivers them. *)
Definition setDisplacementImages_then (urls : list Url)
    (results : list LoadResult) (s : t) : t :=
  match setDisplacementImages urls s with
  | (Some _, s) => fold_left (fun s r => deliverMap r s) results s
  | (None, s) => s
  end.

(** What may happen to an engine, the replacement of the image list apart:
    a call of a method, an animation frame, or the end of a load, whose
    callback finds the closure variables [c] of the call that started it. *)
Inductive Call :=
| Next (t0 t1 : Z)
| Previous (t0 t1 : Z)
| Frame (now : Z)
| SetInitialImage (index : Z)
| SetIntensity (value : float)
| SetTransitionSpeed (value : float)
| SetDisplacementImages (urls : list Url)
| ImageLoadEnds (r : LoadResult) (c : SetImagesLoad)
| ConstructorLoadEnds (r : TextureResult) (c : TexturesLoad)
| MapLoadEnds (r : LoadResult).

Definition call (c : Call) (s : t) : option t :=
  match c with
  | Next t0 t1 => transitionToNext t0 t1 s
  | Previous t0 t1 => transitionToPrevious t0 t1 s
  | Frame now => frame now s
  | SetInitialImage index => Some (setInitialImage index s)
  | SetIntensity value => Some (setIntensity value s)
  | SetTransitionSpeed value => Some (setTransitionSpeed value s)
  | SetDisplacementImages urls => Some (snd (setDisplacementImages urls s))
  | ImageLoadEnds r c => Some (snd (deliver r (c, s)))
  | ConstructorLoadEnds r c => Some (snd (loadTextures_deliver r (c, s)))
  | MapLoadEnds r => Some (deliverMap r s)
  end.

(** These, one after the other. *)
Fixpoint calls (cs : list Call) (s : t) : option t :=
  match cs with
  | [] => Some s
  | c :: cs => s' ← call c s; calls cs s'
  end.

End Engine.

(** ** The state-class extraction of the first controller revision *)

Module ControllerV1.

(** [\d]: an ASCII digit. *)
Definition isDigit (c : ascii) : bool :=
  (48 <=? nat_of_ascii c)%nat && (nat_of_ascii c <=? 57)%nat.

Fixpoint allDigits (s : string) : bool :=
  match s with
  | EmptyString => true
  | String c rest => isDigit c && allDigits rest
  end.

(** The rest of [s] after the literal [literal], when [s] starts with it. *)
Fixpoint afterLiteral (literal s : string) : option string :=
  match literal, s with
  | EmptyString, _ => Some s
  | String a literal, String b s =>
      if Ascii.eqb a b then afterLiteral literal s else None
  | String _ _, EmptyString => None
  end.

(** [className.match(/^state-(\d+)$/)]: the captured group of a match,
    which is the whole rest of the token, one digit at least. *)
Definition matchState (className : string) : option string :=
  match afterLiteral "state-" className with
  | Some digits =>
      match digits with
      | EmptyString => None
      | String _ _ => if allDigits digits then Some digits else None
      end
  | None => None
  end.

Fixpoint parseDigits (acc : Z) (digits : string) : Z :=
  match digits with
  | EmptyString => acc
  | String c rest =>
      parseDigits (10 * acc + (Z.of_nat (nat_of_ascii c) - 48)) rest
  end.

(** [parseInt(digits, 10)] on a string of digits: the number it writes.
    The number of the code is the nearest binary64, which is this one up
    to [2^53]. *)
Definition parseInt (digits : string) : Z := parseDigits 0 digits.

(** The numbers that the pattern and [parseInt] find in a class list, in
    the order of the list. *)
Definition stateNumbers (classList : list string) : list Z :=
  omap (fun className => parseInt <$> matchState className) classList.

(** [extractStateNumber(element)] of the first revision, on the class list
    of the element: the first matching token decides. *)
Fixpoint extractStateNumber (classList : list string) : option Z :=
  match classList with
  | [] => None
  | className :: rest =>
      match matchState className with
      | Some digits =>
          let num := parseInt digits in
          Some (Z.max 0 (num - 1))
      | None => extractStateNumber rest
      end
  end.

End ControllerV1.

(** ** The revised controller: [WebflowGLController] *)

Module Controller.
Import Js.

(** The pattern and the call of [parseInt] are those of the first
    revision. *)
Definition matchState := ControllerV1.matchState.
Definition parseInt := ControllerV1.parseInt.

(** One round of the loop of [extractStateNumber] on the pair
    [(maxState, maxNum)]. *)
Definition scanClass (acc : option Z * Z) (className : string)
    : option Z * Z :=
  let '(maxState, maxNum) := acc in
  match matchState className with
  | Some digits =>
      let num := parseInt digits in
      if num >? maxNum then (Some num, num) else (maxState, maxNum)
  | None => (maxState, maxNum)
  end.

(** [extractStateNumber(element)], on the class list of the element. *)
Definition extractStateNumber (classList : list string) : option Z :=
  let '(maxState, _) := fold_left scanClass classList (None, -1) in
  match maxState with
  | Some maxState => Some (Z.max 0 (maxState - 1))
  | None => None
  end.

(** The three events whose listeners lock scrolling. *)
Inductive EventType := wheel | touchmove | keydown.

(** A capturing listener of [window]; the three closures that one call of
    [lockScroll] creates carry the number of that call. *)
Record Listener := mkListener {
  eventType : EventType;
  closure : nat
}.

(** A pending timer started by [scheduleScrollUnlock]: its callback calls
    [unlockScroll]; the host runs it no earlier than [due]. *)
Record Timer := mkTimer {
  timerId : nat;
  due : Z
}.

(** The fields of the object that the modelled methods use, then the host:
    the listeners the controller has on [window], the timer table, the two
    counters that number closures and timers, and the console. *)
Record t := mkController {
  imageUrls : list string;
  scrollLockDuration : Z;
  engine : option Engine.t;
  scrollLocked : bool;
  scrollUnlockCleanup : option nat;
  scrollUnlockTimer : option nat;
  currentState : option Z;
  isInitializing : bool;
  listeners : list Listener;
  nextClosure : nat;
  timers : list Timer;
  nextTimer : nat;
  console : list string
}.

#[global] Instance set_imageUrls : Setter imageUrls :=
  {| set := fun f s => {| imageUrls := f (imageUrls s);
       scrollLockDuration := scrollLockDuration s; engine := engine s;
       scrollLocked := scrollLocked s;
       scrollUnlockCleanup := scrollUnlockCleanup s;
       scrollUnlockTimer := scrollUnlockTimer s;
       currentState := currentState s; isInitializing := isInitializing s;
       listeners := listeners s; nextClosure := nextClosure s;
       timers := timers s; nextTimer := nextTimer s;
       console := console s |} |}.
#[global] Instance set_scrollLockDuration : Setter scrollLockDuration :=
  {| set := fun f s => {| imageUrls := imageUrls s;
       scrollLockDuration := f (scrollLockDuration s); engine := engine s;
       scrollLocked := scrollLocked s;
       scrollUnlockCleanup := scrollUnlockCleanup s;
       scrollUnlockTimer := scrollUnlockTimer s;
       currentState := currentState s; isInitializing := isInitializing s;
       listeners := listeners s; nextClosure := nextClosure s;
       timers := timers s; nextTimer := nextTimer s;
       console := console s |} |}.
#[global] Instance set_engine : Setter engine :=
  {| set := fun f s => {| imageUrls := imageUrls s;
       scrollLockDuration := scrollLockDuration s; engine := f (engine s);
       scrollLocked := scrollLocked s;
       scrollUnlockCleanup := scrollUnlockCleanup s;
       scrollUnlockTimer := scrollUnlockTimer s;
       currentState := currentState s; isInitializing := isInitializing s;
       listeners := listeners s; nextClosure := nextClosure s;
       timers := timers s; nextTimer := nextTimer s;
       console := console s |} |}.
#[global] Instance set_scrollLocked : Setter scrollLocked :=
  {| set := fun f s => {| imageUrls := imageUrls s;
       scrollLockDuration := scrollLockDuration s; engine := engine s;
       scrollLocked := f (scrollLocked s);
       scrollUnlockCleanup := scrollUnlockCleanup s;
       scrollUnlockTimer := scrollUnlockTimer s;
       currentState := currentState s; isInitializing := isInitializing s;
       listeners := listeners s; nextClosure := nextClosure s;
       timers := timers s; nextTimer := nextTimer s;
       console := console s |} |}.
#[global] Instance set_scrollUnlockCleanup : Setter scrollUnlockCleanup :=
  {| set := fun f s => {| imageUrls := imageUrls s;
       scrollLockDuration := scrollLockDuration s; engine := engine s;
       scrollLocked := scrollLocked s;
       scrollUnlockCleanup := f (scrollUnlockCleanup s);
       scrollUnlockTimer := scrollUnlockTimer s;
       currentState := currentState s; isInitializing := isInitializing s;
       listeners := listeners s; nextClosure := nextClosure s;
       timers := timers s; nextTimer := nextTimer s;
       console := console s |} |}.
#[global] Instance set_scrollUnlockTimer : Setter scrollUnlockTimer :=
  {| set := fun f s => {| imageUrls := imageUrls s;
       scrollLockDuration := scrollLockDuration s; engine := engine s;
       scrollLocked := scrollLocked s;
       scrollUnlockCleanup := scrollUnlockCleanup s;
       scrollUnlockTimer := f (scrollUnlockTimer s);
       currentState := currentState s; isInitializing := isInitializing s;
       listeners := listeners s; nextClosure := nextClosure s;
       timers := timers s; nextTimer := nextTimer s;
       console := console s |} |}.
#[global] Instance set_currentState : Setter currentState :=
  {| set := fun f s => {| imageUrls := imageUrls s;
       scrollLockDuration := scrollLockDuration s; engine := engine s;
       scrollLocked := scrollLocked s;
       scrollUnlockCleanup := scrollUnlockCleanup s;
       scrollUnlockTimer := scrollUnlockTimer s;
       currentState := f (currentState s);
       isInitializing := isInitializing s; listeners := listeners s;
       nextClosure := nextClosure s; timers := timers s;
       nextTimer := nextTimer s; console := console s |} |}.
#[global] Instance set_isInitializing : Setter isInitializing :=
  {| set := fun f s => {| imageUrls := imageUrls s;
       scrollLockDuration := scrollLockDuration s; engine := engine s;
       scrollLocked := scrollLocked s;
       scrollUnlockCleanup := scrollUnlockCleanup s;
       scrollUnlockTimer := scrollUnlockTimer s;
       currentState := currentState s;
       isInitializing := f (isInitializing s); listeners := listeners s;
       nextClosure := nextClosure s; timers := timers s;
       nextTimer := nextTimer s; console := console s |} |}.
#[global] Instance set_listeners : Setter listeners :=
  {| set := fun f s => {| imageUrls := imageUrls s;
       scrollLockDuration := scrollLockDuration s; engine := engine s;
       scrollLocked := scrollLocked s;
       scrollUnlockCleanup := scrollUnlockCleanup s;
       scrollUnlockTimer := scrollUnlockTimer s;
       currentState := currentState s; isInitializing := isInitializing s;
       listeners := f (listeners s); nextClosure := nextClosure s;
       timers := timers s; nextTimer := nextTimer s;
       console := console s |} |}.
#[global] Instance set_nextClosure : Setter nextClosure :=
  {| set := fun f s => {| imageUrls := imageUrls s;
       scrollLockDuration := scrollLockDuration s; engine := engine s;
       scrollLocked := scrollLocked s;
       scrollUnlockCleanup := scrollUnlockCleanup s;
       scrollUnlockTimer := scrollUnlockTimer s;
       currentState := currentState s; isInitializing := isInitializing s;
       listeners := listeners s; nextClosure := f (nextClosure s);
       timers := timers s; nextTimer := nextTimer s;
       console := console s |} |}.
#[global] Instance set_timers : Setter timers :=
  {| set := fun f s => {| imageUrls := imageUrls s;
       scrollLockDuration := scrollLockDuration s; engine := engine s;
       scrollLocked := scrollLocked s;
       scrollUnlockCleanup := scrollUnlockCleanup s;
       scrollUnlockTimer := scrollUnlockTimer s;
       currentState := currentState s; isInitializing := isInitializing s;
       listeners := listeners s; nextClosure := nextClosure s;
       timers := f (timers s); nextTimer := nextTimer s;
       console := console s |} |}.
#[global] Instance set_nextTimer : Setter nextTimer :=
  {| set := fun f s => {| imageUrls := imageUrls s;
       scrollLockDuration := scrollLockDuration s; engine := engine s;
       scrollLocked := scrollLocked s;
       scrollUnlockCleanup := scrollUnlockCleanup s;
       scrollUnlockTimer := scrollUnlockTimer s;
       currentState := currentState s; isInitializing := isInitializing s;
       listeners := listeners s; nextClosure := nextClosure s;
       timers := timers s; nextTimer := f (nextTimer s);
       console := console s |} |}.
#[global] Instance set_console : Setter console :=
  {| set := fun f s => {| imageUrls := imageUrls s;
       scrollLockDuration := scrollLockDuration s; engine := engine s;
       scrollLocked := scrollLocked s;
       scrollUnlockCleanup := scrollUnlockCleanup s;
       scrollUnlockTimer := scrollUnlockTimer s;
       currentState := currentState s; isInitializing := isInitializing s;
       listeners := listeners s; nextClosure := nextClosure s;
       timers := timers s; nextTimer := nextTimer s;
       console := f (console s) |} |}.

(** The configuration object given to [new WebflowGLController(config)], as
    far as the modelled methods read it. *)
Record Config := mkConfig {
  cfg_imageUrls : option (list string);
  cfg_scrollLockDuration : option Z
}.

(** [constructor], before [init()]: no engine yet, scrolling free, the
    initialization window open.  A timer id of the host is never zero. *)
Definition constructor (config : Config) : t :=
  {| imageUrls := default [] (cfg_imageUrls config);
     scrollLockDuration :=
       match cfg_scrollLockDuration config with
       | Some d => if d =? 0 then 1200 else d
       | None => 1200
       end;
     engine := None;
     scrollLocked := false;
     scrollUnlockCleanup := None;
     scrollUnlockTimer := None;
     currentState := None;
     isInitializing := true;
     listeners := [];
     nextClosure := 0;
     timers := [];
     nextTimer := 1;
     console := [] |}.

(** The three [window.addEventListener] calls of [lockScroll]. *)
Definition lockListeners (g : nat) : list Listener :=
  [ mkListener wheel g; mkListener touchmove g; mkListener keydown g ].

Definition sameEventType (a b : EventType) : bool :=
  match a, b with
  | wheel, wheel | touchmove, touchmove | keydown, keydown => true
  | _, _ => false
  end.

(** [window.removeEventListener(type, callback, {capture: true})]. *)
Definition removeEventListener (l : Listener) (ls : list Listener)
    : list Listener :=
  List.filter
    (fun l' =>
       negb (sameEventType (eventType l') (eventType l)
             && (closure l' =? closure l)%nat))
    ls.

(** [lockScroll()]. *)
Definition lockScroll (c : t) : t :=
  if scrollLocked c then c
  else
    let c := c <| scrollLocked := true |> in
    let g := nextClosure c in
    let c := c <| nextClosure := S g |> in
    let c := c <| listeners := listeners c ++ lockListeners g |> in
    c <| scrollUnlockCleanup := Some g |>.

(** The function stored in [scrollUnlockCleanup] by the call of
    [lockScroll] numbered [g]. *)
Definition cleanup (g : nat) (c : t) : t :=
  let c :=
    c <| listeners := fold_left (fun ls l => removeEventListener l ls)
                        (lockListeners g) (listeners c) |> in
  c <| scrollLocked := false |>.

(** Truthiness of a timer id that may be [null]. *)
Definition truthy_id (o : option nat) : bool :=
  match o with Some n => negb (n =? 0)%nat | None => false end.

(** [clearTimeout(id)]. *)
Definition clearTimeout (o : option nat) (c : t) : t :=
  match o with
  | Some id =>
      c <| timers := List.filter (fun x => negb (timerId x =? id)%nat)
                       (timers c) |>
  | None => c
  end.

(** [unlockScroll()]. *)
Definition unlockScroll (c : t) : t :=
  if negb (scrollLocked c) then c
  else
    let c :=
      match scrollUnlockCleanup c with
      | Some g => (cleanup g c) <| scrollUnlockCleanup := None |>
      | None => c
      end in
    if truthy_id (scrollUnlockTimer c)
    then (clearTimeout (scrollUnlockTimer c) c) <| scrollUnlockTimer := None |>
    else c.

(** [scheduleScrollUnlock()], called at the clock reading [now]. *)
Definition scheduleScrollUnlock (now : Z) (c : t) : t :=
  let c :=
    if truthy_id (scrollUnlockTimer c)
    then clearTimeout (scrollUnlockTimer c) c
    else c in
  let id := nextTimer c in
  let c := c <| nextTimer := S id |> in
  let c :=
    c <| timers := timers c ++ [mkTimer id (now + scrollLockDuration c)] |> in
  c <| scrollUnlockTimer := Some id |>.

(** The host runs the callback of the pending timer [id] at the clock
    reading [now]; it cannot before the timer is due, nor when no such
    timer is pending. *)
Definition fire (id : nat) (now : Z) (c : t) : option t :=
  match List.find (fun x => (timerId x =? id)%nat) (timers c) with
  | Some x =>
      if due x <=? now
      then Some (unlockScroll (clearTimeout (Some id) c))
      else None
  | None => None
  end.

(** [triggerTransition(index)]; [t0] and [t1] are the clock readings of the
    engine, [t2] the one at which the timer is started.  The content
    sections it shows and hides are outside the embedding. *)
Definition triggerTransition (index : Z) (t0 t1 t2 : Z) (c : t) : option t :=
  match engine c with
  | None =>
      Some (c <| console :=
              "Engine not initialized, cannot trigger transition"%string
                :: console c |>)
  | Some _ =>
      let c := lockScroll c in
      let targetIndex := Z.max 0 (Z.min index (len (imageUrls c) - 1)) in
      e ← engine c;
      e ← Engine.transitionTo targetIndex t0 t1 e;
      let c := c <| engine := Some e |> in
      Some (scheduleScrollUnlock t2 c)
  end.

(** [handleClassChange(controller)], on the class list of the controller
    element. *)
Definition handleClassChange (classList : list string) (t0 t1 t2 : Z) (c : t)
    : option t :=
  if isInitializing c then Some c
  else
    match extractStateNumber classList with
    | Some stateNumber =>
        if bool_decide (currentState c = Some stateNumber) then Some c
        else
          let c := c <| currentState := Some stateNumber |> in
          triggerTransition stateNumber t0 t1 t2 c
    | None => Some c
    end.

(** The callback of the timer that [setup] starts: the initialization
    window closes. *)
Definition endInitialization (c : t) : t := c <| isInitializing := false |>.

(** [readInitialState(controller)]. *)
Definition readInitialState (classList : list string) (c : t) : t :=
  match extractStateNumber classList with
  | Some stateNumber => c <| currentState := Some stateNumber |>
  | None => c <| currentState := Some 0 |>
  end.

(** The states the methods keep the controller in: the listeners on
    [window] are those of the lock in force, and none without a lock; the
    timer table holds the timer recorded in [scrollUnlockTimer], if any,
    and nothing else; ids are positive and below the next one. *)
Definition wf (c : t) : Prop :=
  (scrollLocked c = true ->
   exists g, scrollUnlockCleanup c = Some g /\ listeners c = lockListeners g) /\
  (scrollLocked c = false -> listeners c = [] /\ timers c = []) /\
  (timers c = [] \/
   exists x, timers c = [x] /\ scrollUnlockTimer c = Some (timerId x)) /\
  (forall id, scrollUnlockTimer c = Some id -> (1 <= id < nextTimer c)%nat) /\
  (1 <= nextTimer c)%nat.

(** The key codes of [preventKeyScroll]: space, page up and down, end,
    home and the four arrows. *)
Definition scrollKeys : list Z := [32; 33; 34; 35; 36; 37; 38; 39; 40].

(** The listener [l], one of [preventScroll], [preventTouchScroll] and
    [preventKeyScroll], run on an event whose [keyCode] is [keyCode] (the
    third only reads it): whether it cancels the event, by
    [preventDefault] and [stopPropagation]. *)
Definition handler (l : Listener) (keyCode : Z) (c : t) : bool :=
  if scrollLocked c then
    match eventType l with
    | wheel | touchmove => true
    | keydown => existsb (Z.eqb keyCode) scrollKeys
    end
  else false.

(** The host dispatches an event of [window] to the listeners of its type:
    whether one of them cancels it. *)
Definition dispatch (type : EventType) (keyCode : Z) (c : t) : bool :=
  existsb
    (fun l => sameEventType (eventType l) type && handler l keyCode c)
    (listeners c).

(** [destroy()]; the observer it disconnects and the [destroy] of the
    engine are outside the embedding. *)
Definition destroy (c : t) : t :=
  let c := unlockScroll c in
  match engine c with
  | Some _ => c <| engine := None |>
  | None => c
  end.

(** The value of [style.display] of a content section. *)
Inductive Display := block | none | other (value : string).

(** [updateContentSections(stateIndex)], on the sections that
    [querySelectorAll] finds, in document order; the selector is a
    parameter, [config.contentSectionSelector]. *)
Definition updateContentSections (contentSectionSelector : option string)
    (stateIndex : Z) (sections : list Display) : list Display :=
  match contentSectionSelector with
  | None | Some EmptyString => sections
  | Some _ =>
      let stateNumber := stateIndex + 1 in
      imap
        (fun index _ =>
           let sectionNumber := Z.of_nat index + 1 in
           if sectionNumber =? stateNumber then block else none)
        sections
  end.

(** [config.displacementImageUrls] as the constructor stores it: the valid
    entries of the array it is given, and nothing when it is given no
    array. *)
Definition displacementImageUrls (given : option (list Engine.Url))
    : list string :=
  match given with
  | Some urls => omap (fun url => if Engine.validUrl url then url else None) urls
  | None => []
  end.

(** The two closures that [initEngine] hands to [setTimeout], each with the
    [initialStateIndex] it has captured: the one that loads all images and
    maps (100 ms), and the one that sets the initial image (200 ms). *)
Inductive Deferred :=
| loadAll (initialStateIndex : Z)
| setInitial (initialStateIndex : Z).

(** The controller with what [initEngine] has started: the maps it is
    configured with, the closure variables of the loads of the engine's
    constructor, those of the [setImages] and [setDisplacementImages] calls
    once they are made, and the closure waiting for its timer, if any. *)
Record Session := mkSession {
  controller : t;
  maps : list string;
  constructorLoads : Engine.TexturesLoad;
  imageLoads : option Engine.SetImagesLoad;
  mapLoads : option (list nat);
  deferred : option Deferred
}.

(** [initEngine(container)] of the revised controller, with
    [config.displacementImageUrls], [config.intensity] and
    [config.transitionSpeed] as parameters. *)
Definition initEngine (maps : list string) (intensity : option float)
    (transitionSpeed : option float) (c : t) : Session :=
  let initialStateIndex := default 0 (currentState c) in
  let initialImages :=
    if 2 <=? len (imageUrls c) then take 2 (imageUrls c) else imageUrls c in
  let initialDisplacement := if 0 <? len maps then take 1 maps else [] in
  let created :=
    Engine.new
      {| Engine.opt_images := Some initialImages;
         Engine.opt_intensity := Some (Engine.intensity_or_default intensity);
         Engine.opt_transitionSpeed :=
           Some (Engine.speed_or_default transitionSpeed);
         Engine.opt_onImageChange := None |}
      {| Engine.opt_displacementImages := Some (Some <$> initialDisplacement);
         Engine.opt_displacementImage := None |} in
  {| controller := c <| engine := Some (snd created) |>;
     maps := maps;
     constructorLoads := fst created;
     imageLoads := None;
     mapLoads := None;
     deferred :=
       if (2 <? len (imageUrls c)) || (1 <? len maps)
       then Some (loadAll initialStateIndex)
       else if negb (initialStateIndex =? 0)
       then Some (setInitial initialStateIndex)
       else None |}.

(** The closure waiting for its timer runs.  The first one calls the
    engine without testing that it is still there. *)
Definition runDeferred (x : Session) : option Session :=
  match deferred x with
  | Some (loadAll initialStateIndex) =>
      e ← engine (controller x);
      let '(started, e) :=
        if len (maps x) =? 3
        then Engine.setDisplacementImages (Some <$> maps x) e
        else (mapLoads x, e) in
      if 2 <? len (imageUrls (controller x)) then
        let '(loads, e) :=
          Engine.setImages (imageUrls (controller x))
            (Some "initEngine"%string) e in
        Some {| controller := controller x <| engine := Some e |>;
                maps := maps x;
                constructorLoads := constructorLoads x;
                imageLoads := loads;
                mapLoads := started;
                deferred := None |}
      else
        Some {| controller := controller x <| engine := Some e |>;
                maps := maps x;
                constructorLoads := constructorLoads x;
                imageLoads := imageLoads x;
                mapLoads := started;
                deferred :=
                  if negb (initialStateIndex =? 0)
                  then Some (setInitial initialStateIndex)
                  else None |}
  | Some (setInitial initialStateIndex) =>
      let c :=
        match engine (controller x) with
        | Some e =>
            controller x
              <| engine := Some (Engine.setInitialImage initialStateIndex e) |>
        | None => controller x
        end in
      Some {| controller := c;
              maps := maps x;
              constructorLoads := constructorLoads x;
              imageLoads := imageLoads x;
              mapLoads := mapLoads x;
              deferred := None |}
  | None => None
  end.

(** What the host may do to a session. *)
Inductive HostEvent :=
| timeout
| constructorLoad (r : Engine.TextureResult)
| imageLoad (r : Engine.LoadResult)
| mapLoad (r : Engine.LoadResult)
| classChange (classList : list string) (t0 t1 t2 : Z)
| animationFrame (now : Z)
| unlockTimer (id : nat) (now : Z)
| initializationEnds.

Definition withController (x : Session) (c : t) : Session :=
  {| controller := c;
     maps := maps x;
     constructorLoads := constructorLoads x;
     imageLoads := imageLoads x;
     mapLoads := mapLoads x;
     deferred := deferred x |}.

(** One event of the host; it is impossible ([None]) when what it ends was
    never started: a load of a call not made, a displacement load of the
    constructor (it starts none, see [config_displacementImages]), a timer
    not pending; or when the code throws. *)
Definition host (ev : HostEvent) (x : Session) : option Session :=
  match ev with
  | timeout => runDeferred x
  | constructorLoad r =>
      match r with
      | Engine.ImageLoaded _ _ | Engine.ImageFailed _ =>
          e ← engine (controller x);
          let '(loads, e) := Engine.loadTextures_deliver r (constructorLoads x, e) in
          Some {| controller := controller x <| engine := Some e |>;
                  maps := maps x;
                  constructorLoads := loads;
                  imageLoads := imageLoads x;
                  mapLoads := mapLoads x;
                  deferred := deferred x |}
      | _ => None
      end
  | imageLoad r =>
      loads ← imageLoads x;
      e ← engine (controller x);
      let '(loads, e) := Engine.deliver r (loads, e) in
      Some {| controller := controller x <| engine := Some e |>;
              maps := maps x;
              constructorLoads := constructorLoads x;
              imageLoads := Some loads;
              mapLoads := mapLoads x;
              deferred := deferred x |}
  | mapLoad r =>
      _ ← mapLoads x;
      e ← engine (controller x);
      Some (withController x
              (controller x <| engine := Some (Engine.deliverMap r e) |>))
  | classChange classList t0 t1 t2 =>
      withController x <$> handleClassChange classList t0 t1 t2 (controller x)
  | animationFrame now =>
      e ← engine (controller x);
      e ← Engine.frame now e;
      Some (withController x (controller x <| engine := Some e |>))
  | unlockTimer id now => withController x <$> fire id now (controller x)
  | initializationEnds =>
      Some (withController x (endInitialization (controller x)))
  end.

(** The events of the host, in order. *)
Fixpoint run (events : list HostEvent) (x : Session) : option Session :=
  match events with
  | [] => Some x
  | ev :: events => x ← host ev x; run events x
  end.

End Controller.

(** ** Sample states *)

Module Sample.
Import Engine.

Definition picture (name : string) : Texture := mkTexture name (Some (1600, 900)).

Definition map0 : Texture := mkTexture "displacement-0" None.

(** An engine constructed for two images, none loaded yet. *)
Definition fresh : Engine.t :=
  Engine.constructor
    {| opt_images := Some ["a"; "b"]%string; opt_intensity := None;
       opt_transitionSpeed := None; opt_onImageChange := Some "changed"%string |}.

(** The same engine once its first displacement map is loaded. *)
Definition mapped : Engine.t :=
  fresh <| displacementTextures := [Some map0] |>
        <| displacementTexture := Some map0 |>.

(** Three images set and loaded in order: the second load creates the
    material. *)
Definition ready : Engine.t :=
  setImages_then ["a"; "b"; "c"]%string None
    [Loaded 0 (picture "a"); Loaded 1 (picture "b"); Loaded 2 (picture "c")]
    mapped.

(** A transition to the last image, accepted at the clock reading 1000. *)
Definition started : Engine.t :=
  default ready (transitionTo 2 1000 1000 ready).

(** The same transition with the duration set to 1000 seconds first, and
    accepted at the clock reading 0. *)
Definition slow : Engine.t :=
  let s := setTransitionSpeed 1000 ready in
  default s (transitionTo 2 0 0 s).

(** The engine once that transition has run to its end. *)
Definition atLast : Engine.t :=
  default started (run_frames [1600; 2200] started).

(** The engine at rest at the image 1 of the three, and then with a
    transition to the image 2 in flight, started by [transitionToNext]. *)
Definition atMiddle : Engine.t :=
  default ready (transitionToNext 1000 1000 ready ≫= run_frames [1600; 2200]).

Definition leavingMiddle : Engine.t :=
  default atMiddle (transitionToNext 5000 5000 atMiddle).

(** The first engine told of seven images, none of them loaded yet, and
    the closure variables of their loads. *)
Definition sevenUrls : list string := ["a"; "b"; "c"; "d"; "e"; "f"; "g"]%string.

Definition awaiting : Engine.t := snd (setImages sevenUrls None mapped).

Definition awaitingLoad : SetImagesLoad :=
  {| loadedImageCount := 0; totalImages := 7 |}.

(** Image 3 asked for while nothing is loaded, then the loads of the
    images 3 and 0 done. *)
Definition requested : Engine.t := setInitialImage 3 awaiting.

Definition partlyLoaded : SetImagesLoad * Engine.t :=
  deliverAll [Loaded 3 (picture "d"); Loaded 0 (picture "a")]
    (awaitingLoad, requested).

(** The same request, then the load of the image 0 alone done. *)
Definition firstLoaded : SetImagesLoad * Engine.t :=
  deliverAll [Loaded 0 (picture "a")] (awaitingLoad, requested).

(** A controller past its initialization, with the loaded engine. *)
Definition controller : Controller.t :=
  Controller.endInitialization
    ((Controller.constructor
        {| Controller.cfg_imageUrls := Some ["a"; "b"; "c"]%string;
           Controller.cfg_scrollLockDuration := None |})
       <| Controller.engine := Some ready |>).

End Sample.

(** ** The words of the specification *)

Module Spec.

(** The class token [state-<N>]: the prefix, then the decimal digits of
    [N], at least one. *)
Definition stateToken (className : string) (N : Z) : Prop :=
  exists digits : string,
    className = ("state-" ++ digits)%string /\
    digits <> EmptyString /\
    ControllerV1.allDigits digits = true /\
    N = ControllerV1.parseInt digits.

(** An index of the image sequence. *)
Definition validIndex (s : Engine.t) (i : Z) : Prop :=
  0 <= i <= Js.len (Engine.images s) - 1.

(** A transition to [target] started at [start] is in flight: the
    animation has what it reads, and its next frame is the one callback
    queued. *)
Definition inFlight (s : Engine.t) (target start : Z) : Prop :=
  Engine.isTransitioning s = true /\
  Engine.targetIndex s = Some target /\
  Engine.startTime s = Some start /\
  (exists m, Engine.material s = Some m) /\
  Engine.frames s = 1%nat.

(** An engine at rest at [index]: no transition, no frame queued, the
    progress uniform at 0. *)
Definition atRest (s : Engine.t) (index : Z) : Prop :=
  Engine.isTransitioning s = false /\
  Engine.frames s = 0%nat /\
  Engine.currentIndex s = index /\
  exists m, Engine.material s = Some m /\ Engine.progress m = 0%float.

(** A request recorded for [pending] is applied between [s] and [s']: the
    index, clamped to the images of [s], is the current one, its texture
    the first of the pair, the progress 0, no request is left, and no
    animation was started. *)
Definition appliedFrom (s s' : Engine.t) (pending : Z) : Prop :=
  let index := Z.max 0 (Z.min pending (Js.len (Engine.images s) - 1)) in
  exists m',
    Engine.material s' = Some m' /\
    Engine.currentIndex s' = index /\
    Engine.texture1 m' = Js.get (Engine.textures s) index /\
    Engine.progress m' = 0%float /\
    Engine.pendingInitialIndex s' = None /\
    Engine.isTransitioning s' = Engine.isTransitioning s /\
    Engine.frames s' = Engine.frames s.

(** The engine keeps one animation callback queued while a transition is
    in flight, and none otherwise. *)
Definition disciplined (s : Engine.t) : Prop :=
  if Engine.isTransitioning s
  then exists target start, inFlight s target start
  else Engine.frames s = 0%nat.

(** The indices the engine holds are indices of the image sequence: the
    current one and, while a transition is in flight, its target; and the
    animation is the one callback ([disciplined]). *)
Definition inRange (s : Engine.t) : Prop :=
  disciplined s /\
  validIndex s (Engine.currentIndex s) /\
  (forall target,
     Engine.isTransitioning s = true -> Engine.targetIndex s = Some target ->
     validIndex s target).

(** [s'] has the images of [s], and the current index of [s] or an index
    clamped to these images. *)
Definition keepsIndex (s s' : Engine.t) : Prop :=
  Engine.images s' = Engine.images s /\
  (Engine.currentIndex s' = Engine.currentIndex s \/
   exists p,
     Engine.currentIndex s'
     = Z.max 0 (Z.min p (Js.len (Engine.images s) - 1))).

(** [s'] has the animation of [s]: same flag, same queue, same target and
    start, and the material if [s] had it. *)
Definition sameAnimation (s s' : Engine.t) : Prop :=
  Engine.isTransitioning s' = Engine.isTransitioning s /\
  Engine.frames s' = Engine.frames s /\
  Engine.targetIndex s' = Engine.targetIndex s /\
  Engine.startTime s' = Engine.startTime s /\
  (is_Some (Engine.material s) -> is_Some (Engine.material s')).



(** The indices whose load succeeded, in the order of delivery. *)
Definition loadedIndices (results : list Engine.LoadResult) : list nat :=
  omap (fun r =>
          match r with
          | Engine.Loaded index _ => Some index
          | Engine.Failed _ => None
          end)
       results.

(** The loads of the constructor, one displacement map being awaited and
    no initial image asked for: the counters are no lower than what is
    loaded, and the material is there exactly when the two first images
    and the map are. *)
Definition constructing (c : Engine.TexturesLoad) (s : Engine.t) : Prop :=
  Engine.validDisplacementCount c = 1%nat /\
  Engine.pendingInitialIndex s = None /\
  (is_Some (Js.get (Engine.textures s) 0) -> (1 <= Engine.loadedImages c)%nat) /\
  (is_Some (Js.get (Engine.textures s) 1) -> (1 <= Engine.loadedImages c)%nat) /\
  (is_Some (Js.get (Engine.textures s) 0) ->
   is_Some (Js.get (Engine.textures s) 1) ->
   (2 <= Engine.loadedImages c)%nat) /\
  (is_Some (Engine.displacementTexture s) ->
   (1 <= Engine.loadedDisplacementCount c)%nat) /\
  (is_Some (Engine.material s) <->
   is_Some (Js.get (Engine.textures s) 0) /\
   is_Some (Js.get (Engine.textures s) 1) /\
   is_Some (Engine.displacementTexture s)).

(** A result of a load that the constructor has started when it awaits
    one displacement map: an image, or the map of index 0. *)
Definition ofOneMap (r : Engine.TextureResult) : Prop :=
  match r with
  | Engine.DisplacementLoaded index _ | Engine.DisplacementFailed index =>
      index = 0%nat
  | _ => True
  end.

(** A content section that [updateContentSections] has made visible. *)
Definition shown (d : Controller.Display) : bool :=
  match d with Controller.block => true | _ => false end.

(** A session whose engine has no material and cannot get one: the
    constructor awaits no displacement map; without exactly three maps
    configured no map is loaded or asked for; without more than two images
    [setImages] is not called. *)
Definition inert (images : list string) (maps : list string)
    (x : Controller.Session) : Prop :=
  exists e,
    Controller.engine (Controller.controller x) = Some e /\
    Engine.material e = None /\
    Engine.validDisplacementCount (Controller.constructorLoads x) = 0%nat /\
    Controller.imageUrls (Controller.controller x) = images /\
    Controller.maps x = maps /\
    (Js.len maps <> 3 ->
     Engine.displacementTexture e = None /\ Controller.mapLoads x = None) /\
    (Js.len images <= 2 -> Controller.imageLoads x = None).

(** The intensity that the shader reads is the configured one. *)
Definition intensityInStep (s : Engine.t) : Prop :=
  forall m, Engine.material s = Some m -> Engine.u_intensity m = Engine.intensity s.

End Spec.

(** * Properties *)

Import Js.

(** Unfold the record updates and compute the projections. *)
Ltac rsimpl := unfold set; simpl.

(** ** Arrays *)

(** A defined entry sits at an index of the array. *)
Lemma get_Some_bounds {A} (a : array A) (i : Z) (x : A) :
  get a i = Some x -> 0 <= i < len a.
Proof.
  unfold get, len. destruct (Z.leb_spec 0 i) as [Hi | Hi]; [|discriminate].
  destruct (a !! Z.to_nat i) as [o|] eqn:E; [|discriminate].
  intros _. apply lookup_lt_Some in E. lia.
Qed.

(** Reading back what [put] wrote, and the entries it left alone. *)
Lemma get_put_same {A} (a : array A) (i : nat) (x : A) :
  get (put a i x) (Z.of_nat i) = Some x.
Proof.
  unfold get, put. rewrite (proj2 (Z.leb_le 0 _)) by lia.
  rewrite Nat2Z.id.
  destruct (Nat.ltb_spec i (length a)) as [Hlt | Hge].
  - now rewrite list_lookup_insert_eq.
  - rewrite lookup_app_r by lia.
    rewrite lookup_app_r; rewrite length_replicate; [|lia].
    now replace (i - length a - (i - length a))%nat with 0%nat by lia.
Qed.

Lemma get_put_other {A} (a : array A) (i : nat) (x : A) (j : Z) :
  j <> Z.of_nat i -> get (put a i x) j = get a j.
Proof.
  intros Hne. unfold get, put.
  destruct (Z.leb_spec 0 j) as [Hj | Hj]; [|reflexivity].
  assert (Z.to_nat j <> i) as Hne' by lia.
  destruct (Nat.ltb_spec i (length a)) as [Hlt | Hge].
  - now rewrite list_lookup_insert_ne.
  - destruct (Nat.lt_ge_cases (Z.to_nat j) (length a)) as [Hjl | Hjg].
    + now rewrite lookup_app_l.
    + rewrite lookup_app_r by lia.
      rewrite (lookup_ge_None_2 a) by lia.
      destruct (Nat.lt_ge_cases (Z.to_nat j - length a) (i - length a))
        as [Hr | Hr].
      * rewrite lookup_app_l by (rewrite length_replicate; lia).
        rewrite lookup_replicate_2 by lia. reflexivity.
      * rewrite lookup_app_r by (rewrite length_replicate; lia).
        rewrite length_replicate.
        rewrite lookup_ge_None_2; [reflexivity|]. cbn. lia.
Qed.

(** ** Displacement buckets *)

(** C7: for every integer target index, [getDisplacementIndex] answers 0 on
    0..2, 1 on 3..6, 2 on 7..10, and 0 on every other integer (below 0 or
    above 10). *)
Theorem getDisplacementIndex_buckets (i : Z) :
  (0 <= i <= 2 -> Engine.getDisplacementIndex i = 0) /\
  (3 <= i <= 6 -> Engine.getDisplacementIndex i = 1) /\
  (7 <= i <= 10 -> Engine.getDisplacementIndex i = 2) /\
  (i < 0 \/ 10 < i -> Engine.getDisplacementIndex i = 0).
Proof.
  unfold Engine.getDisplacementIndex.
  repeat split; intros H;
    repeat match goal with
    | |- context [?a >=? ?b] => destruct (Z.geb_spec a b)
    | |- context [?a <=? ?b] => destruct (Z.leb_spec a b)
    end; cbn; lia.
Qed.

Lemma getDisplacementIndex_buckets_witness :
  Engine.getDisplacementIndex 1 = 0 /\
  Engine.getDisplacementIndex 5 = 1 /\
  Engine.getDisplacementIndex 9 = 2 /\
  Engine.getDisplacementIndex 11 = 0 /\
  Engine.getDisplacementIndex (-4) = 0.
Proof.
  refine (conj _ (conj _ (conj _ (conj _ _)))).
  - apply (proj1 (getDisplacementIndex_buckets 1)); lia.
  - apply (proj1 (proj2 (getDisplacementIndex_buckets 5))); lia.
  - apply (proj1 (proj2 (proj2 (getDisplacementIndex_buckets 9)))); lia.
  - apply (proj2 (proj2 (proj2 (getDisplacementIndex_buckets 11)))); lia.
  - apply (proj2 (proj2 (proj2 (getDisplacementIndex_buckets (-4))))); lia.
Defined.

(** The answer is always one of the three buckets. *)
Lemma getDisplacementIndex_range (i : Z) :
  0 <= Engine.getDisplacementIndex i <= 2.
Proof.
  unfold Engine.getDisplacementIndex.
  repeat match goal with
  | |- context [if ?b then _ else _] => destruct b
  end; lia.
Qed.

(** ** Comparisons of binary64 numbers *)

Lemma SFcompare_antisym (x y : spec_float) :
  SFcompare y x = option_map CompOpp (SFcompare x y).
Proof.
  destruct x as [sx | sx | | sx mx ex], y as [sy | sy | | sy my ey]; cbn;
    try reflexivity;
    try (destruct sx; reflexivity); try (destruct sy; reflexivity);
    try (destruct sx, sy; reflexivity).
  f_equal.
  rewrite (Z.compare_antisym ey ex).
  change (PosDef.Pos.compare_cont Eq mx my) with (Pos.compare mx my).
  change (PosDef.Pos.compare_cont Eq my mx) with (Pos.compare my mx).
  rewrite (Pos.compare_antisym my mx).
  destruct sx, sy, (ey ?= ex), (my ?= mx)%positive; reflexivity.
Qed.

Lemma SFcompare_finite_Eq (s : bool) (m : positive) (e : Z) (y : spec_float) :
  SFcompare (S754_finite s m e) y = Some Eq -> y = S754_finite s m e.
Proof.
  destruct y as [sy | sy | | sy my ey]; cbn.
  - destruct s; discriminate.
  - destruct sy; discriminate.
  - discriminate.
  - change (PosDef.Pos.compare_cont Eq m my) with (Pos.compare m my).
    destruct s, sy; try discriminate;
      destruct (Z.compare_spec e ey) as [-> | |]; try discriminate;
      destruct (Pos.compare_spec m my) as [-> | |]; try discriminate;
      reflexivity.
Qed.

Lemma is_nan_Prim2SF (x : float) :
  PrimFloat.is_nan x = true <-> Prim2SF x = S754_nan.
Proof.
  unfold PrimFloat.is_nan. rewrite FloatAxioms.eqb_spec. unfold SFeqb.
  destruct (Prim2SF x) as [s | s | | s m e]; cbn.
  - split; discriminate.
  - destruct s; split; discriminate.
  - split; reflexivity.
  - change (PosDef.Pos.compare_cont Eq m m) with (Pos.compare m m).
    rewrite Z.compare_refl, Pos.compare_refl. destruct s; split; discriminate.
Qed.

Lemma ltb_not_nan (x y : float) :
  PrimFloat.ltb x y = true ->
  PrimFloat.is_nan x = false /\ PrimFloat.is_nan y = false.
Proof.
  rewrite ltb_spec. unfold SFltb. intros H.
  split; apply not_true_is_false; intros N; apply is_nan_Prim2SF in N;
    rewrite N in H.
  - discriminate.
  - destruct (Prim2SF x); discriminate.
Qed.

Lemma ltb_asym (x y : float) :
  PrimFloat.ltb x y = true -> PrimFloat.ltb y x = false.
Proof.
  rewrite !ltb_spec. unfold SFltb.
  rewrite (SFcompare_antisym (Prim2SF x) (Prim2SF y)).
  destruct (SFcompare (Prim2SF x) (Prim2SF y)) as [[]|]; cbn; congruence.
Qed.

(** Two numbers neither of which is below the other are the same number,
    when one of them is finite and not zero. *)
Lemma ltb_neither (c y : float) (s : bool) (m : positive) (e : Z) :
  Prim2SF c = S754_finite s m e ->
  PrimFloat.is_nan y = false ->
  PrimFloat.ltb c y = false -> PrimFloat.ltb y c = false -> y = c.
Proof.
  intros Hc Hn. rewrite !ltb_spec. unfold SFltb.
  rewrite (SFcompare_antisym (Prim2SF c) (Prim2SF y)).
  intros H1 H2. apply Prim2SF_inj. rewrite Hc.
  apply SFcompare_finite_Eq. rewrite <- Hc.
  destruct (SFcompare (Prim2SF c) (Prim2SF y)) as [[]|] eqn:E; cbn in *;
    try congruence.
  exfalso. rewrite Hc in E.
  assert (Prim2SF y <> S754_nan) as N.
  { intros N. apply is_nan_Prim2SF in N. congruence. }
  destruct (Prim2SF y); cbn in E; congruence.
Qed.

(** [Math.min(x, c)] and [Math.min(c, x)] for a finite [c] other than
    zero: NaN when [x] is, the lesser of the two otherwise. *)
Lemma Math_min_upper (x c : float) (s : bool) (m : positive) (e : Z) :
  Prim2SF c = S754_finite s m e ->
  Math_min x c
  = if PrimFloat.is_nan x then PrimFloat.nan
    else if PrimFloat.ltb x c then x else c.
Proof.
  intros Hc. unfold Math_min.
  assert (PrimFloat.is_nan c = false) as ->.
  { apply not_true_is_false. intros N. apply is_nan_Prim2SF in N. congruence. }
  rewrite orb_false_r.
  destruct (PrimFloat.is_nan x) eqn:Hn; [reflexivity|].
  destruct (PrimFloat.ltb x c) eqn:H1; [reflexivity|].
  destruct (PrimFloat.ltb c x) eqn:H2; [reflexivity|].
  rewrite (ltb_neither c x s m e Hc Hn H2 H1).
  now destruct (PrimFloat.get_sign c).
Qed.

Lemma Math_min_lower (c x : float) (s : bool) (m : positive) (e : Z) :
  Prim2SF c = S754_finite s m e ->
  Math_min c x
  = if PrimFloat.is_nan x then PrimFloat.nan
    else if PrimFloat.ltb x c then x else c.
Proof.
  intros Hc. unfold Math_min.
  assert (PrimFloat.is_nan c = false) as ->.
  { apply not_true_is_false. intros N. apply is_nan_Prim2SF in N. congruence. }
  rewrite orb_false_l.
  destruct (PrimFloat.is_nan x) eqn:Hn; [reflexivity|].
  destruct (PrimFloat.ltb c x) eqn:H2.
  - now rewrite (ltb_asym _ _ H2).
  - destruct (PrimFloat.ltb x c) eqn:H1; [reflexivity|].
    rewrite (ltb_neither c x s m e Hc Hn H2 H1).
    now destruct (PrimFloat.get_sign c).
Qed.

(** ** Overscan *)

(** The extra of [computeOverscanFactor] is the product below the cap, the
    cap from there on, and NaN when the product is. *)
Lemma computeOverscanFactor_extra (s : Engine.t) :
  let extra := (Engine.intensity s * 1.2)%float in
  Engine.computeOverscanFactor s
  = (1.05 + (if PrimFloat.is_nan extra then PrimFloat.nan
             else if PrimFloat.ltb extra 0.6 then extra else 0.6))%float.
Proof.
  unfold Engine.computeOverscanFactor; cbn zeta.
  now rewrite (Math_min_lower 0.6 _ false 5404319552844595 (-53) eq_refl).
Qed.

(** C8: for every configured intensity [v], [computeOverscanFactor()] is
    [1.05 + min(0.6, v * 1.2)] in binary64 arithmetic: [1.05 + v * 1.2]
    while the product [v * 1.2] is below 0.6, [1.05 + 0.6] (the binary64
    number 1.65) from there on, and NaN when the product is NaN; at the
    intensity 0.4 it is the binary64 number 1.53. *)
Theorem computeOverscanFactor_formula (s : Engine.t) :
  let extra := (Engine.intensity s * 1.2)%float in
  (PrimFloat.ltb extra 0.6 = true ->
   Engine.computeOverscanFactor s = (1.05 + extra)%float) /\
  (PrimFloat.ltb extra 0.6 = false -> PrimFloat.is_nan extra = false ->
   Engine.computeOverscanFactor s = 1.65%float) /\
  (PrimFloat.is_nan extra = true ->
   PrimFloat.is_nan (Engine.computeOverscanFactor s) = true) /\
  (Engine.intensity s = 0.4%float ->
   Engine.computeOverscanFactor s = 1.53%float).
Proof.
  intros extra. pose proof (computeOverscanFactor_extra s) as E.
  cbn zeta in E. fold extra in E.
  split; [|split; [|split]].
  - intros H. rewrite E, H.
    now destruct (ltb_not_nan _ _ H) as [-> _].
  - intros H N. rewrite E, H, N. reflexivity.
  - intros N. rewrite E, N. reflexivity.
  - intros Hv. rewrite E. subst extra. rewrite Hv. reflexivity.
Qed.

Lemma computeOverscanFactor_formula_witness :
  Engine.computeOverscanFactor
    (Engine.constructor (Engine.mkOptions None None None None))
  = 1.53%float /\
  Engine.computeOverscanFactor
    (Engine.constructor (Engine.mkOptions None (Some 0.25%float) None None))
  = 1.35%float /\
  Engine.computeOverscanFactor
    (Engine.constructor (Engine.mkOptions None (Some 2%float) None None))
  = 1.65%float /\
  PrimFloat.is_nan
    (Engine.computeOverscanFactor
       (Engine.setIntensity PrimFloat.nan
          (Engine.constructor (Engine.mkOptions None None None None))))
  = true.
Proof.
  refine (conj _ (conj _ (conj _ _))).
  - apply (proj2 (proj2 (proj2 (computeOverscanFactor_formula _)))).
    reflexivity.
  - apply (proj1 (computeOverscanFactor_formula
                    (Engine.constructor
                       (Engine.mkOptions None (Some 0.25%float) None None)))).
    reflexivity.
  - apply (proj1 (proj2 (computeOverscanFactor_formula _))); reflexivity.
  - apply (proj1 (proj2 (proj2 (computeOverscanFactor_formula _)))).
    reflexivity.
Defined.

(** The intensity is the one configured last. *)
Lemma setIntensity_intensity (v : float) (s : Engine.t) :
  Engine.intensity (Engine.setIntensity v s) = v.
Proof.
  unfold Engine.setIntensity; cbn.
  destruct (Engine.material s); reflexivity.
Qed.

Lemma computeOverscanFactor_setIntensity (v : float) (s : Engine.t) :
  Engine.computeOverscanFactor (Engine.setIntensity v s)
  = (1.05 + Math_min 0.6 (v * 1.2))%float.
Proof.
  unfold Engine.computeOverscanFactor. now rewrite setIntensity_intensity.
Qed.

(** ** Rejected transitions *)

(** Putting the trace of a state back gives the state. *)
Lemma set_trace_same (s : Engine.t) : s <| Engine.trace := Engine.trace s |> = s.
Proof. destruct s; reflexivity. Qed.

Lemma log_set_trace (e : Engine.Event) (s : Engine.t) :
  (Engine.log e s) <| Engine.trace := Engine.trace s |> = s.
Proof. destruct s; reflexivity. Qed.

(** A rejected call returns the state as it is, or with one more line on
    the console. *)
Lemma transitionTo_rejected_cases (target t0 t1 : Z) (s : Engine.t) :
  Engine.isTransitioning s = true \/ target = Engine.currentIndex s
  \/ get (Engine.textures s) target = None ->
  Engine.transitionTo target t0 t1 s = Some s \/
  Engine.transitionTo target t0 t1 s
  = Some (Engine.log
            (Engine.ConsoleError "Target texture not loaded:" (Some target)) s).
Proof.
  unfold Engine.transitionTo.
  intros [H | [H | H]].
  - rewrite H. now left.
  - subst target. rewrite Z.eqb_refl, orb_true_r. now left.
  - destruct (_ || _ || _); [now left|].
    rewrite H. now right.
Qed.

(** C1: a call of [transitionTo(t)] made while a transition is in flight,
    or with [t] the current index, or with the texture of [t] not loaded,
    returns normally and changes nothing: [currentIndex],
    [isTransitioning], the material (hence the progress and the texture
    bindings) and the frame queue are as before, no callback is invoked,
    and apart from the console the whole state is the one before, so the
    request is remembered nowhere. *)
Theorem transitionTo_rejected (target t0 t1 : Z) (s : Engine.t) :
  Engine.isTransitioning s = true \/ target = Engine.currentIndex s
  \/ get (Engine.textures s) target = None ->
  exists s',
    Engine.transitionTo target t0 t1 s = Some s' /\
    Engine.currentIndex s' = Engine.currentIndex s /\
    Engine.isTransitioning s' = Engine.isTransitioning s /\
    Engine.material s' = Engine.material s /\
    Engine.frames s' = Engine.frames s /\
    (forall f, Engine.invocations f (Engine.trace s')
               = Engine.invocations f (Engine.trace s)) /\
    s' <| Engine.trace := Engine.trace s |> = s.
Proof.
  intros H.
  destruct (transitionTo_rejected_cases target t0 t1 s H) as [E | E];
    rewrite E; eexists; (split; [reflexivity|]).
  - repeat (split; [reflexivity|]). apply set_trace_same.
  - repeat (split; [reflexivity|]). apply log_set_trace.
Qed.

Lemma transitionTo_rejected_witness :
  exists s',
    Engine.transitionTo 7 0 0 Sample.ready = Some s' /\
    Engine.currentIndex s' = 0 /\
    Engine.material s' = Engine.material Sample.ready /\
    Engine.frames s' = 0%nat.
Proof.
  destruct (transitionTo_rejected 7 0 0 Sample.ready) as (s' & E & Hc & _ & Hm & Hf & _).
  - right; right. reflexivity.
  - exists s'. repeat split; assumption.
Defined.

(** ** One step of the animation *)

Lemma rawTime_cases (start now : Z) (s : Engine.t) :
  let x :=
    ((number now - number start) / 1000 / Engine.transitionSpeed s)%float in
  Engine.rawTime start now s
  = if PrimFloat.is_nan x then PrimFloat.nan
    else if PrimFloat.ltb x 1 then x else 1%float.
Proof.
  unfold Engine.rawTime; cbn zeta.
  apply (Math_min_upper _ 1 false 4503599627370496 (-52) eq_refl).
Qed.

Section AnimateProgress.

Variables (s : Engine.t) (m : Engine.Uniforms) (start now : Z).
Hypothesis Hmaterial : Engine.material s = Some m.
Hypothesis Hstart : Engine.startTime s = Some start.

(** Before the end: the eased value is written and a frame is asked for;
    nothing else changes. *)
Lemma animateProgress_running :
  Engine.goesOn start now s = true ->
  Engine.animateProgress now s
  = Some (Engine.requestAnimationFrame
            (s <| Engine.material :=
                    Some (m <| Engine.progress :=
                                 Engine.easeOut (Engine.rawTime start now s) s |>) |>)).
Proof.
  intros H. unfold Engine.animateProgress.
  rewrite Hstart, Hmaterial; cbn [mbind option_bind].
  unfold Engine.goesOn, Engine.rawTime in H. rewrite H. reflexivity.
Qed.

(** At the end: the target is committed, the flag cleared, the progress
    back at 0, and the pair of textures is the new current index and the
    one after it, the last at most. *)
Lemma animateProgress_done (target : Z) :
  Engine.targetIndex s = Some target ->
  Engine.goesOn start now s = false ->
  exists s' m',
    Engine.animateProgress now s = Some s' /\
    Engine.material s' = Some m' /\
    Engine.currentIndex s' = target /\
    Engine.isTransitioning s' = false /\
    Engine.progress m' = 0%float /\
    Engine.texture1 m' = get (Engine.textures s) target /\
    Engine.texture2 m'
    = get (Engine.textures s) (Z.min (target + 1) (len (Engine.images s) - 1)) /\
    Engine.frames s' = Engine.frames s /\
    Engine.images s' = Engine.images s /\
    Engine.targetIndex s' = Some target /\
    Engine.startTime s' = Some start /\
    Engine.transitionSpeed s' = Engine.transitionSpeed s /\
    Engine.Math_pow_3 s' = Engine.Math_pow_3 s.
Proof.
  intros Ht H. unfold Engine.animateProgress.
  rewrite Hstart, Hmaterial; cbn [mbind option_bind].
  unfold Engine.goesOn, Engine.rawTime in H. rewrite H.
  rsimpl. rewrite Ht; rsimpl.
  do 2 eexists. split; [reflexivity|].
  rsimpl. repeat (split; [reflexivity|]). split; [assumption|].
  repeat split.
Qed.

End AnimateProgress.

(** When the time is up, in a host whose [Math.pow(0, 3)] is 0 (as
    ECMA-262 prescribes), the frame does not go on. *)
Lemma goesOn_time_up (start now : Z) (s : Engine.t) :
  let x :=
    ((number now - number start) / 1000 / Engine.transitionSpeed s)%float in
  PrimFloat.is_nan x = false -> PrimFloat.ltb x 1 = false ->
  Engine.Math_pow_3 s 0 = 0%float ->
  Engine.goesOn start now s = false.
Proof.
  intros x N H Hpow. unfold Engine.goesOn, Engine.easeOut.
  pose proof (rawTime_cases start now s) as E. cbn zeta in E. fold x in E.
  rewrite E, N, H.
  change (1 - 1)%float with 0%float. rewrite Hpow. reflexivity.
Qed.

(** C4, as the code has it: for an accepted transition (the material is
    there, [startTime] and [targetIndex] are set) of duration [d], at the
    frame run at the clock reading [now], let [x] be [elapsed / d] with
    [elapsed = (now - startTime) / 1000], let [t] be [Math.min(x, 1)] (that
    is [x] below 1, with no bound from below, 1 from there on, NaN when [x]
    is) and [e] be [1 - Math.pow(1 - t, 3)], all in binary64 arithmetic.
    While [e < 1] the frame leaves [e] in the progress uniform, asks for
    one more frame and changes nothing else.  Otherwise it commits
    [currentIndex = targetIndex], clears the flag, leaves the progress
    uniform at 0 (the value it writes first is overwritten in the same
    call) and binds the textures of [currentIndex] and of
    [min(currentIndex + 1, last index)].  The second case is the one of a
    frame whose [x] is 1 or more, in a host whose [Math.pow(0, 3)] is 0. *)
Theorem animateProgress_eases_and_commits
    (s : Engine.t) (m : Engine.Uniforms) (start target now : Z) :
  Engine.material s = Some m ->
  Engine.startTime s = Some start ->
  Engine.targetIndex s = Some target ->
  let x :=
    ((number now - number start) / 1000 / Engine.transitionSpeed s)%float in
  let t :=
    if PrimFloat.is_nan x then PrimFloat.nan
    else if PrimFloat.ltb x 1 then x else 1%float in
  let e := (1 - Engine.Math_pow_3 s (1 - t))%float in
  (PrimFloat.ltb e 1 = true ->
   Engine.animateProgress now s
   = Some (s <| Engine.material := Some (m <| Engine.progress := e |>) |>
             <| Engine.frames := S (Engine.frames s) |>)) /\
  (PrimFloat.ltb e 1 = false ->
   exists s' m',
     Engine.animateProgress now s = Some s' /\
     Engine.material s' = Some m' /\
     Engine.currentIndex s' = target /\
     Engine.isTransitioning s' = false /\
     Engine.progress m' = 0%float /\
     Engine.texture1 m' = get (Engine.textures s) target /\
     Engine.texture2 m'
     = get (Engine.textures s)
         (Z.min (target + 1) (len (Engine.images s) - 1)) /\
     Engine.frames s' = Engine.frames s) /\
  (PrimFloat.is_nan x = false -> PrimFloat.ltb x 1 = false ->
   Engine.Math_pow_3 s 0 = 0%float -> PrimFloat.ltb e 1 = false).
Proof.
  intros Hm Hs Ht x t e.
  assert (Engine.rawTime start now s = t) as Et by apply rawTime_cases.
  assert (Engine.goesOn start now s = PrimFloat.ltb e 1) as Eg
    by (unfold Engine.goesOn, Engine.easeOut; now rewrite Et).
  split; [|split].
  - intros He. rewrite <- Eg in He.
    rewrite (animateProgress_running s m start now Hm Hs He).
    unfold Engine.easeOut. rewrite Et. reflexivity.
  - intros He. rewrite <- Eg in He.
    destruct (animateProgress_done s m start now Hm Hs target Ht He)
      as (s' & m' & E & Em & Hc & Hf & Hp & H1 & H2 & Hfr & _).
    exists s', m'. repeat (split; [assumption|]). assumption.
  - intros N H Hpow. rewrite <- Eg.
    now apply goesOn_time_up.
Qed.

Lemma animateProgress_eases_and_commits_witness :
  (exists s' m',
     Engine.animateProgress 1600 Sample.started = Some s' /\
     Engine.material s' = Some m' /\
     Engine.progress m' = 0.875%float /\
     Engine.frames s' = 2%nat /\
     Engine.currentIndex s' = 0 /\
     Engine.isTransitioning s' = true) /\
  (exists s' m',
     Engine.animateProgress 2200 Sample.started = Some s' /\
     Engine.material s' = Some m' /\
     Engine.currentIndex s' = 2 /\
     Engine.isTransitioning s' = false /\
     Engine.progress m' = 0%float /\
     Engine.texture1 m' = Some (Sample.picture "c") /\
     Engine.texture2 m' = Some (Sample.picture "c") /\
     Engine.frames s' = 1%nat).
Proof.
  split.
  - edestruct animateProgress_eases_and_commits
      with (s := Sample.started) (start := 1000) (target := 2) (now := 1600)
      as [H _];
      [vm_compute; reflexivity | vm_compute; reflexivity
      | vm_compute; reflexivity |].
    do 2 eexists. split; [apply H; vm_compute; reflexivity|].
    split; [vm_compute; reflexivity|].
    repeat split; vm_compute; reflexivity.
  - edestruct animateProgress_eases_and_commits
      with (s := Sample.started) (start := 1000) (target := 2) (now := 2200)
      as (_ & H & Hend);
      [vm_compute; reflexivity | vm_compute; reflexivity
      | vm_compute; reflexivity |].
    destruct H as (s' & m' & E & Em & Hc & Hf & Hp & H1 & H2 & Hfr).
    { apply Hend; vm_compute; reflexivity. }
    exists s', m'. repeat (split; [assumption|]).
    rewrite Hfr. vm_compute; reflexivity.
Defined.

(** Against C4 as it was claimed.  The code bounds [elapsed / d] from above
    only: with the clock read 100 ms before the start the progress written
    is below 0, where the clamp to [0, 1] gives 0.  And the commit is
    decided on the eased value, which is rounded: with a duration of 1000 s
    the frame run 1 ms before the end finds [elapsed / d] below 1 and
    commits all the same. *)
Lemma animateProgress_unclamped_and_early :
  (exists s' m',
     Engine.animateProgress 900 Sample.started = Some s' /\
     Engine.material s' = Some m' /\
     PrimFloat.ltb (Engine.progress m') 0 = true /\
     Engine.isTransitioning s' = true) /\
  (PrimFloat.ltb ((number 999999 - number 0) / 1000 / 1000) 1 = true /\
   Engine.startTime Sample.slow = Some 0 /\
   Engine.transitionSpeed Sample.slow = 1000%float /\
   Engine.isTransitioning Sample.slow = true /\
   exists s',
     Engine.animateProgress 999999 Sample.slow = Some s' /\
     Engine.currentIndex s' = 2 /\
     Engine.isTransitioning s' = false).
Proof.
  split.
  - do 2 eexists. split; [vm_compute; reflexivity|].
    split; [reflexivity|]. split; reflexivity.
  - repeat (split; [reflexivity|]).
    eexists. split; [vm_compute; reflexivity|]. split; reflexivity.
Qed.

(** A duration of zero ([setTransitionSpeed(0)]): [elapsed / d] is NaN at
    the start and infinite after it, and either way the first frame
    commits. *)
Example animateProgress_zero_duration :
  let s := Engine.setTransitionSpeed 0 Sample.ready in
  (Engine.currentIndex <$> Engine.transitionTo 2 1000 1000 s) = Some 2 /\
  (Engine.isTransitioning <$> Engine.transitionTo 2 1000 1000 s) = Some false /\
  (Engine.currentIndex <$> Engine.transitionTo 2 1000 1016 s) = Some 2 /\
  (Engine.isTransitioning <$> Engine.transitionTo 2 1000 1016 s) = Some false.
Proof. cbv zeta. do 3 (split; [vm_compute; reflexivity|]). vm_compute; reflexivity. Qed.

(** ** Setting the initial image *)

Lemma clampIndex_idempotent (i : Z) (s : Engine.t) :
  Engine.clampIndex (Engine.clampIndex i s) s = Engine.clampIndex i s.
Proof. unfold Engine.clampIndex. lia. Qed.

(** What [applyInitialImage] does when the material and the texture of the
    index are there: only the material, the active displacement texture and
    [currentIndex] change. *)
Lemma applyInitialImage_ready
    (index : Z) (s : Engine.t) (m : Engine.Uniforms) (texture : Engine.Texture) :
  Engine.material s = Some m ->
  get (Engine.textures s) index = Some texture ->
  let safeIndex := Engine.clampIndex index s in
  let nextIndex := Z.min (safeIndex + 1) (len (Engine.images s) - 1) in
  let s' := Engine.applyInitialImage index s in
  exists m',
    Engine.material s' = Some m' /\
    Engine.currentIndex s' = safeIndex /\
    Engine.texture1 m' = get (Engine.textures s) safeIndex /\
    Engine.texture2 m'
    = match get (Engine.textures s) nextIndex with
      | Some next => Some next
      | None => Engine.texture2 m
      end /\
    Engine.progress m' = 0%float /\
    Engine.isTransitioning s' = Engine.isTransitioning s /\
    Engine.frames s' = Engine.frames s /\
    Engine.trace s' = Engine.trace s /\
    Engine.images s' = Engine.images s /\
    Engine.textures s' = Engine.textures s /\
    Engine.pendingInitialIndex s' = Engine.pendingInitialIndex s.
Proof.
  intros Hm Ht safeIndex nextIndex s'. subst s'.
  unfold Engine.applyInitialImage. rewrite Hm, Ht. cbn [defined negb].
  fold safeIndex.
  destruct (get (Engine.displacementTextures s) _); rsimpl;
    fold safeIndex; fold nextIndex;
    destruct (get (Engine.textures s) nextIndex);
    eexists; (split; [reflexivity|]); rsimpl;
    repeat (split; [reflexivity|]); reflexivity.
Qed.

(** [applyInitialImage] never moves an index that is already the clamped
    one. *)
Lemma applyInitialImage_currentIndex (i : Z) (s : Engine.t) :
  Engine.currentIndex s = Engine.clampIndex i s ->
  Engine.currentIndex (Engine.applyInitialImage (Engine.clampIndex i s) s)
  = Engine.clampIndex i s.
Proof.
  intros Hc. unfold Engine.applyInitialImage.
  destruct (Engine.material s) as [m|] eqn:Hm; [|assumption].
  destruct (get (Engine.textures s) (Engine.clampIndex i s)) eqn:Ht;
    cbn [defined negb]; [|assumption].
  destruct (get (Engine.displacementTextures s) _); rsimpl;
    apply clampIndex_idempotent.
Qed.

Lemma setInitialImage_currentIndex (i : Z) (s : Engine.t) :
  Engine.currentIndex (Engine.setInitialImage i s) = Engine.clampIndex i s.
Proof.
  unfold Engine.setInitialImage.
  destruct (_ && _ && _).
  - exact (applyInitialImage_currentIndex i
             (s <| Engine.currentIndex := Engine.clampIndex i s |>) eq_refl).
  - destruct (negb _); reflexivity.
Qed.

(** Without the material or the texture [setInitialImage] touches the
    index and the pending request only. *)
Lemma setInitialImage_not_ready (i : Z) (s : Engine.t) :
  Engine.material s = None
  \/ get (Engine.textures s) (Engine.clampIndex i s) = None ->
  Engine.setInitialImage i s
  = s <| Engine.currentIndex := Engine.clampIndex i s |>
      <| Engine.pendingInitialIndex :=
           if truthy_number (Engine.pendingInitialIndex s)
           then Engine.pendingInitialIndex s
           else Some (Engine.clampIndex i s) |>.
Proof.
  intros Hnot. unfold Engine.setInitialImage.
  assert ((defined (Engine.material
                      (s <| Engine.currentIndex := Engine.clampIndex i s |>))
           && (0 <? len (Engine.textures
                           (s <| Engine.currentIndex := Engine.clampIndex i s |>)))
           && defined (get (Engine.textures
                              (s <| Engine.currentIndex := Engine.clampIndex i s |>))
                         (Engine.clampIndex i s))) = false) as ->.
  { rsimpl. destruct Hnot as [-> | ->]; [reflexivity|].
    now rewrite andb_false_r. }
  rsimpl. destruct (truthy_number _); destruct s; reflexivity.
Qed.

(** C10: [setInitialImage(i)] sets [currentIndex] at once to [i] clamped to
    the indices of the images, that is to [max(0, min(i, length - 1))]:
    [i] itself when it is one of them, 0 below them, the last one above
    them.  This holds whether or not anything can be shown:
    [getCurrentIndex()] reports that index, a later [transitionTo] of it is
    a no-op (target equals current), and while the material is missing
    nothing visible changes (no material, same textures, no frame asked
    for, no event). *)
Theorem setInitialImage_commits_index (i : Z) (s : Engine.t) :
  let s' := Engine.setInitialImage i s in
  let last := len (Engine.images s) - 1 in
  Engine.getCurrentIndex s' = Z.max 0 (Z.min i last) /\
  (0 <= i <= last -> Engine.getCurrentIndex s' = i) /\
  (i < 0 -> Engine.getCurrentIndex s' = 0) /\
  (0 <= last < i -> Engine.getCurrentIndex s' = last) /\
  (forall t0 t1 : Z,
     Engine.transitionTo (Z.max 0 (Z.min i last)) t0 t1 s' = Some s') /\
  (Engine.material s = None ->
   Engine.material s' = None /\
   Engine.textures s' = Engine.textures s /\
   Engine.isTransitioning s' = Engine.isTransitioning s /\
   Engine.frames s' = Engine.frames s /\
   Engine.trace s' = Engine.trace s).
Proof.
  intros s' last. subst s'.
  assert (Engine.getCurrentIndex (Engine.setInitialImage i s)
          = Z.max 0 (Z.min i last)) as Hc
    by apply setInitialImage_currentIndex.
  split; [exact Hc|].
  split; [intros H; rewrite Hc; lia|].
  split; [intros H; rewrite Hc; lia|].
  split; [intros H; rewrite Hc; lia|].
  split.
  - intros t0 t1. unfold Engine.transitionTo.
    unfold Engine.getCurrentIndex in Hc.
    rewrite Hc, Z.eqb_refl, orb_true_r.
    reflexivity.
  - intros Hm. rewrite (setInitialImage_not_ready i s (or_introl Hm)). rsimpl.
    repeat (split; [assumption || reflexivity|]). reflexivity.
Qed.

Lemma setInitialImage_commits_index_witness :
  Engine.getCurrentIndex (Engine.setInitialImage 3 Sample.awaiting) = 3 /\
  Engine.getCurrentIndex (Engine.setInitialImage (-2) Sample.awaiting) = 0 /\
  Engine.getCurrentIndex (Engine.setInitialImage 9 Sample.awaiting) = 6 /\
  Engine.material (Engine.setInitialImage 3 Sample.awaiting) = None /\
  Engine.transitionTo 3 0 0 (Engine.setInitialImage 3 Sample.awaiting)
  = Some (Engine.setInitialImage 3 Sample.awaiting).
Proof.
  destruct (setInitialImage_commits_index 3 Sample.awaiting)
    as (_ & Hin & _ & _ & Ht & Hv).
  destruct (setInitialImage_commits_index (-2) Sample.awaiting)
    as (_ & _ & Hlow & _).
  destruct (setInitialImage_commits_index 9 Sample.awaiting)
    as (_ & _ & _ & Hhigh & _).
  destruct Hv as (Hm & _); [reflexivity|].
  split; [apply Hin; vm_compute; split; discriminate|].
  split; [apply Hlow; reflexivity|].
  split; [apply Hhigh; vm_compute; split; [discriminate | reflexivity]|].
  split; [exact Hm|]. exact (Ht 0 0).
Defined.

(** ** Running a transition to its end *)

(** Every frame of an accepted transition returns: it either goes on or
    commits the target. *)
Lemma animateProgress_outcome
    (s : Engine.t) (m : Engine.Uniforms) (start target now : Z) :
  Engine.material s = Some m ->
  Engine.startTime s = Some start ->
  Engine.targetIndex s = Some target ->
  exists s',
    Engine.animateProgress now s = Some s' /\
    Engine.images s' = Engine.images s /\
    Engine.transitionSpeed s' = Engine.transitionSpeed s /\
    Engine.Math_pow_3 s' = Engine.Math_pow_3 s /\
    Engine.targetIndex s' = Some target /\
    Engine.startTime s' = Some start /\
    ((Engine.goesOn start now s = true /\
      (exists m', Engine.material s' = Some m') /\
      Engine.frames s' = S (Engine.frames s) /\
      Engine.currentIndex s' = Engine.currentIndex s /\
      Engine.isTransitioning s' = Engine.isTransitioning s) \/
     (Engine.goesOn start now s = false /\
      (exists m', Engine.material s' = Some m' /\ Engine.progress m' = 0%float) /\
      Engine.frames s' = Engine.frames s /\
      Engine.currentIndex s' = target /\
      Engine.isTransitioning s' = false)).
Proof.
  intros Hm Hs Ht.
  destruct (Engine.goesOn start now s) eqn:H.
  - rewrite (animateProgress_running s m start now Hm Hs H).
    eexists. split; [reflexivity|]. rsimpl.
    repeat (split; [assumption || reflexivity|]).
    left. split; [reflexivity|]. split; [eexists; reflexivity|].
    now repeat split.
  - destruct (animateProgress_done s m start now Hm Hs target Ht H)
      as (s' & m' & E & Em & Hc & Hf & Hp & _ & _ & Hfr & Hi & Ht' & Hs' & Hd
          & Hpow).
    exists s'. repeat (split; [assumption|]).
    right. split; [reflexivity|]. split; [now exists m'|]. now repeat split.
Qed.

(** With no callback queued the frames of the host find nothing to run. *)
Lemma run_frames_settled (times : list Z) (s : Engine.t) :
  Engine.frames s = 0%nat -> Engine.run_frames times s = Some s.
Proof.
  intros H. induction times as [|now times IH]; [reflexivity|].
  cbn [Engine.run_frames]. unfold Engine.frame. rewrite H. exact IH.
Qed.

(** The test of a frame reads the duration and the host only. *)
Lemma goesOn_ext (start now : Z) (s s' : Engine.t) :
  Engine.transitionSpeed s' = Engine.transitionSpeed s ->
  Engine.Math_pow_3 s' = Engine.Math_pow_3 s ->
  Engine.goesOn start now s' = Engine.goesOn start now s.
Proof.
  intros Hd Hpow. unfold Engine.goesOn, Engine.easeOut, Engine.rawTime.
  now rewrite Hd, Hpow.
Qed.

(** A frame of a transition in flight leaves it in flight at the same
    index, or, the eased value having reached 1, ends it at its target. *)
Lemma frame_in_flight (now target start : Z) (s : Engine.t) :
  Spec.inFlight s target start ->
  exists s',
    Engine.frame now s = Some s' /\
    Engine.images s' = Engine.images s /\
    Engine.transitionSpeed s' = Engine.transitionSpeed s /\
    Engine.Math_pow_3 s' = Engine.Math_pow_3 s /\
    ((Engine.goesOn start now s = true /\
      Spec.inFlight s' target start /\
      Engine.currentIndex s' = Engine.currentIndex s) \/
     (Engine.goesOn start now s = false /\ Spec.atRest s' target)).
Proof.
  intros (Hfl & Ht & Hs & (m & Hm) & Hf).
  unfold Engine.frame. rewrite Hf.
  pose proof (animateProgress_outcome (s <| Engine.frames := 0%nat |>)
                m start target now) as H.
  destruct (H Hm Hs Ht)
    as (s' & E & Hi & Hd & Hpow & Ht' & Hs'
        & [(Hraw & Hm' & Hfr & Hc & Hfl') | (Hraw & Hm' & Hfr & Hc & Hfl')]);
    exists s'; (split; [exact E|]); (split; [exact Hi|]);
    (split; [exact Hd|]); (split; [exact Hpow|]).
  - left. split; [exact Hraw|]. split; [|exact Hc].
    split; [rewrite Hfl'; exact Hfl|]. now repeat split.
  - right. split; [exact Hraw|]. now repeat split.
Qed.

Lemma run_frames_in_flight
    (times : list Z) (target start : Z) (s : Engine.t) :
  Spec.inFlight s target start ->
  exists s',
    Engine.run_frames times s = Some s' /\
    Engine.images s' = Engine.images s /\
    ((Spec.inFlight s' target start /\
      Engine.currentIndex s' = Engine.currentIndex s /\
      Forall (fun now => Engine.goesOn start now s = true) times) \/
     (Spec.atRest s' target /\
      Exists (fun now => Engine.goesOn start now s = false) times)).
Proof.
  revert s. induction times as [|now times IH]; intros s H.
  - exists s. cbn. split; [reflexivity|]. split; [reflexivity|]. left. auto.
  - cbn [Engine.run_frames].
    destruct (frame_in_flight now target start s H)
      as (s1 & E & Hi & Hd & Hpow & [(Hraw & H1 & Hc) | (Hraw & Hrest)]);
      rewrite E; cbn.
    + destruct (IH s1 H1) as (s' & E' & Hi' & Hcase).
      exists s'. split; [exact E'|]. split; [congruence|].
      assert (forall t, Engine.goesOn start t s1 = Engine.goesOn start t s)
        as Eraw by (intros t; now apply goesOn_ext).
      destruct Hcase as [(Hfl' & Hc' & Hall) | (Hrest & Hex)].
      * left. split; [exact Hfl'|]. split; [congruence|].
        constructor; [exact Hraw|].
        eapply Forall_impl; [exact Hall|]. intros t Ht.
        exact (eq_trans (eq_sym (Eraw t)) Ht).
      * right. split; [exact Hrest|]. apply Exists_cons_tl.
        eapply Exists_impl; [exact Hex|]. intros t Ht.
        exact (eq_trans (eq_sym (Eraw t)) Ht).
    + exists s1. destruct Hrest as (Hfl' & Hfr & Hrest).
      split; [now apply run_frames_settled|]. split; [exact Hi|].
      right. split; [now repeat split|]. now apply Exists_cons_hd.
Qed.

(** An accepted call binds the pair (current, target), tells the callback,
    and hands over to [animateProgress]. *)
Lemma transitionTo_accepted
    (target t0 t1 : Z) (s : Engine.t) (m : Engine.Uniforms)
    (texture : Engine.Texture) :
  Engine.isTransitioning s = false ->
  target <> Engine.currentIndex s ->
  Engine.material s = Some m ->
  get (Engine.textures s) target = Some texture ->
  exists s1 m1,
    Engine.transitionTo target t0 t1 s = Engine.animateProgress t1 s1 /\
    Engine.material s1 = Some m1 /\
    Engine.startTime s1 = Some t0 /\
    Engine.targetIndex s1 = Some target /\
    Engine.isTransitioning s1 = true /\
    Engine.currentIndex s1 = Engine.currentIndex s /\
    Engine.images s1 = Engine.images s /\
    Engine.transitionSpeed s1 = Engine.transitionSpeed s /\
    Engine.textures s1 = Engine.textures s /\
    Engine.frames s1 = Engine.frames s /\
    Engine.texture1 m1 = get (Engine.textures s) (Engine.currentIndex s) /\
    Engine.texture2 m1 = Some texture /\
    Engine.progress m1 = Engine.progress m /\
    Engine.trace s1
    = match Engine.onImageChange s with
      | Some f => Engine.Invoke f target :: Engine.trace s
      | None => Engine.trace s
      end /\
    Engine.Math_pow_3 s1 = Engine.Math_pow_3 s.
Proof.
  intros Hidle Hne Hm Htex. unfold Engine.transitionTo.
  apply Z.eqb_neq in Hne. rewrite Hidle, Hne, Hm, Htex.
  cbn [orb defined negb]. rsimpl. rewrite Hm. cbn [mbind option_bind].
  destruct (get (Engine.displacementTextures s) _);
    destruct (Engine.onImageChange s); rsimpl;
    do 2 eexists; (split; [reflexivity|]); rsimpl;
    rewrite ?Htex; repeat split.
Qed.

(** What [transitionTo] does to an idle engine: nothing besides a console
    line, or a transition in flight, or (when the eased value of the first
    reading of the clock is 1 already) a transition done. *)
Lemma transitionTo_idle (target t0 t1 : Z) (s : Engine.t) :
  Engine.isTransitioning s = false ->
  Engine.frames s = 0%nat ->
  exists s',
    Engine.transitionTo target t0 t1 s = Some s' /\
    Engine.images s' = Engine.images s /\
    Engine.transitionSpeed s' = Engine.transitionSpeed s /\
    Engine.Math_pow_3 s' = Engine.Math_pow_3 s /\
    ((Engine.isTransitioning s' = false /\
      Engine.frames s' = 0%nat /\
      Engine.currentIndex s' = Engine.currentIndex s /\
      (target = Engine.currentIndex s \/ Engine.material s = None
       \/ get (Engine.textures s) target = None)) \/
     (Spec.inFlight s' target t0 /\
      Engine.currentIndex s' = Engine.currentIndex s /\
      Engine.goesOn t0 t1 s = true) \/
     (Spec.atRest s' target /\ Engine.goesOn t0 t1 s = false)).
Proof.
  intros Hidle Hfr.
  destruct (Z.eq_dec target (Engine.currentIndex s)) as [Heq | Hne].
  { destruct (transitionTo_rejected_cases target t0 t1 s) as [E | E];
      [auto | |]; rewrite E; eexists; (split; [reflexivity|]);
      repeat (split; [reflexivity|]); left;
      repeat (split; [reflexivity || exact Hidle|]); auto. }
  destruct (get (Engine.textures s) target) as [texture|] eqn:Htex.
  2: { destruct (transitionTo_rejected_cases target t0 t1 s) as [E | E];
         [auto | |]; rewrite E; eexists; (split; [reflexivity|]);
         repeat (split; [reflexivity|]); left;
      repeat (split; [reflexivity || exact Hidle|]); auto. }
  destruct (Engine.material s) as [m|] eqn:Hm.
  2: { exists s. unfold Engine.transitionTo. rewrite Hm.
       cbn [defined negb]. rewrite orb_true_r.
       repeat (split; [reflexivity|]). left.
       repeat (split; [reflexivity || exact Hidle|]). auto. }
  destruct (transitionTo_accepted target t0 t1 s m texture Hidle Hne Hm Htex)
    as (s1 & m1 & E & Hm1 & Hs1 & Ht1 & Hfl1 & Hc1 & Hi1 & Hd1 & _ & Hf1 & _
        & _ & _ & _ & Hp1).
  rewrite E.
  assert (Engine.goesOn t0 t1 s1 = Engine.goesOn t0 t1 s) as Eraw
    by now apply goesOn_ext.
  destruct (animateProgress_outcome s1 m1 t0 target t1 Hm1 Hs1 Ht1)
    as (s' & E' & Hi & Hd & Hpow & Ht' & Hs'
        & [(Hraw & Hm' & Hf & Hc & Hfl) | (Hraw & Hm' & Hf & Hc & Hfl)]);
    exists s'; (split; [exact E'|]); (split; [congruence|]);
    (split; [congruence|]); (split; [congruence|]); rewrite Eraw in Hraw.
  - right; left. split; [|split; [congruence | exact Hraw]].
    split; [congruence|]. repeat (split; [assumption|]). congruence.
  - right; right. split; [|exact Hraw].
    split; [exact Hfl|]. split; [congruence|]. split; [exact Hc | exact Hm'].
Qed.

(** From an idle engine, a call of [transitionTo] and any frames after it
    end at the index before the call or at the target. *)
Lemma transitionTo_then_frames
    (target t0 t1 : Z) (times : list Z) (s : Engine.t) :
  Engine.isTransitioning s = false ->
  Engine.frames s = 0%nat ->
  exists s' s'',
    Engine.transitionTo target t0 t1 s = Some s' /\
    Engine.run_frames times s' = Some s'' /\
    Engine.images s'' = Engine.images s /\
    (Engine.currentIndex s'' = Engine.currentIndex s \/
     Engine.currentIndex s'' = target).
Proof.
  intros Hidle Hfr.
  destruct (transitionTo_idle target t0 t1 s Hidle Hfr)
    as (s' & E & Hi & _ & _
        & [(_ & Hf & Hc & _) | [(Hfl & Hc & _) | ((_ & Hf & Hc & _) & _)]]).
  - exists s', s'. rewrite (run_frames_settled times s' Hf). auto.
  - destruct (run_frames_in_flight times target t0 s' Hfl)
      as (s'' & E' & Hi' & Hcase).
    exists s', s''. repeat (split; [assumption || congruence|]).
    destruct Hcase as [(_ & Hc' & _) | ((_ & _ & Hc' & _) & _)];
      [left | right]; congruence.
  - exists s', s'. rewrite (run_frames_settled times s' Hf). auto.
Qed.

(** X3: an accepted transition runs to its end at the first frame that
    does not find the eased value below 1: the engine is then at rest at
    the target, the progress uniform back at 0, and later frames find
    nothing to run; until such a frame comes it is in flight at the index
    it left.  In a host whose [Math.pow(0, 3)] is 0, a frame whose
    [elapsed / duration] is a number not below 1 is such a frame. *)
Theorem transitionTo_completes
    (target t0 t1 : Z) (times : list Z) (s : Engine.t)
    (texture : Engine.Texture) :
  Engine.isTransitioning s = false ->
  Engine.frames s = 0%nat ->
  target <> Engine.currentIndex s ->
  is_Some (Engine.material s) ->
  get (Engine.textures s) target = Some texture ->
  let x now :=
    ((number now - number t0) / 1000 / Engine.transitionSpeed s)%float in
  let t now :=
    if PrimFloat.is_nan (x now) then PrimFloat.nan
    else if PrimFloat.ltb (x now) 1 then x now else 1%float in
  let e now := (1 - Engine.Math_pow_3 s (1 - t now))%float in
  exists s' s'',
    Engine.transitionTo target t0 t1 s = Some s' /\
    Engine.run_frames times s' = Some s'' /\
    (Exists (fun now => PrimFloat.ltb (e now) 1 = false) (t1 :: times) ->
     Spec.atRest s'' target) /\
    (Forall (fun now => PrimFloat.ltb (e now) 1 = true) (t1 :: times) ->
     Spec.inFlight s'' target t0 /\
     Engine.currentIndex s'' = Engine.currentIndex s) /\
    (Engine.Math_pow_3 s 0 = 0%float ->
     Exists (fun now => PrimFloat.is_nan (x now) = false
                        /\ PrimFloat.ltb (x now) 1 = false) (t1 :: times) ->
     Spec.atRest s'' target).
Proof.
  intros Hidle Hfr Hne [m Hm] Htex x t e.
  assert (forall now, Engine.goesOn t0 now s = PrimFloat.ltb (e now) 1) as Eg.
  { intros now. unfold Engine.goesOn, Engine.easeOut.
    now rewrite rawTime_cases. }
  assert (exists s' s'',
            Engine.transitionTo target t0 t1 s = Some s' /\
            Engine.run_frames times s' = Some s'' /\
            (Exists (fun now => Engine.goesOn t0 now s = false) (t1 :: times) ->
             Spec.atRest s'' target) /\
            (Forall (fun now => Engine.goesOn t0 now s = true) (t1 :: times) ->
             Spec.inFlight s'' target t0 /\
             Engine.currentIndex s'' = Engine.currentIndex s)) as Hmain.
  { destruct (transitionTo_idle target t0 t1 s Hidle Hfr)
      as (s' & E & Hi & Hd & Hpow
          & [(_ & _ & _ & [Heq | [Hnone | Hnone]])
            | [(Hfl & Hc & Hraw) | (Hrest & Hraw)]]);
      try congruence.
    - destruct (run_frames_in_flight times target t0 s' Hfl)
        as (s'' & E' & Hi' & Hcase).
      assert (forall t, Engine.goesOn t0 t s' = Engine.goesOn t0 t s)
        as Eraw by (intros u; now apply goesOn_ext).
      exists s', s''. split; [exact E|]. split; [exact E'|].
      destruct Hcase as [(Hfl' & Hc' & Hall) | (Hrest & Hex)]; split.
      + intros Hex. exfalso. inversion Hex as [? ? H1 | ? ? H1]; subst.
        * congruence.
        * rewrite Forall_forall in Hall. apply Exists_exists in H1.
          destruct H1 as (u & Hin & Ht). specialize (Hall u Hin).
          rewrite Eraw in Hall. congruence.
      + intros _. split; [exact Hfl' | congruence].
      + intros _. exact Hrest.
      + intros Hall. exfalso. inversion Hall as [|? ? _ Hall']; subst.
        rewrite Forall_forall in Hall'. apply Exists_exists in Hex.
        destruct Hex as (u & Hin & Ht). specialize (Hall' u Hin).
        rewrite Eraw in Ht. congruence.
    - exists s', s'. destruct Hrest as (Hfl' & Hf' & Hrest).
      split; [exact E|]. split; [now apply run_frames_settled|]. split.
      + intros _. now repeat split.
      + intros Hall. exfalso. inversion Hall as [|? ? H1 _]; subst.
        congruence. }
  destruct Hmain as (s' & s'' & E & E' & Hend & Hgo).
  exists s', s''. split; [exact E|]. split; [exact E'|].
  split; [|split].
  - intros Hex. apply Hend. eapply Exists_impl; [exact Hex|].
    intros now H. cbn beta in H. now rewrite Eg.
  - intros Hall. apply Hgo. eapply Forall_impl; [exact Hall|].
    intros now H. cbn beta in H. now rewrite Eg.
  - intros Hpow Hex. apply Hend. eapply Exists_impl; [exact Hex|].
    intros now [N H]. now apply goesOn_time_up.
Qed.

(** ** The animation discipline *)

Lemma sameAnimation_refl (s : Engine.t) : Spec.sameAnimation s s.
Proof. unfold Spec.sameAnimation. auto. Qed.

Lemma sameAnimation_trans (s1 s2 s3 : Engine.t) :
  Spec.sameAnimation s1 s2 -> Spec.sameAnimation s2 s3 ->
  Spec.sameAnimation s1 s3.
Proof.
  intros (A1 & A2 & A3 & A4 & A5) (B1 & B2 & B3 & B4 & B5).
  unfold Spec.sameAnimation. repeat split; try congruence. auto.
Qed.

Lemma disciplined_sameAnimation (s s' : Engine.t) :
  Spec.sameAnimation s s' -> Spec.disciplined s -> Spec.disciplined s'.
Proof.
  intros (H1 & H2 & H3 & H4 & H5). unfold Spec.disciplined, Spec.inFlight.
  rewrite H1, H2, H3, H4.
  destruct (Engine.isTransitioning s); [|auto].
  intros (target & start & Hfl & Ht & Hs & Hm & Hf).
  exists target, start. repeat (split; [assumption|]).
  split; [|assumption]. destruct (H5 ltac:(destruct Hm; eauto)). eauto.
Qed.

Lemma applyInitialImage_sameAnimation (index : Z) (s : Engine.t) :
  Spec.sameAnimation s (Engine.applyInitialImage index s).
Proof.
  unfold Engine.applyInitialImage.
  destruct (Engine.material s) as [m|] eqn:Hm; [|apply sameAnimation_refl].
  destruct (negb _); [apply sameAnimation_refl|].
  destruct (get (Engine.displacementTextures s) _);
    unfold Spec.sameAnimation; rsimpl; repeat split; eauto.
Qed.

Lemma onTexturesLoaded_sameAnimation (s : Engine.t) :
  Spec.sameAnimation s (Engine.onTexturesLoaded s).
Proof.
  unfold Engine.onTexturesLoaded.
  destruct (_ || _ || _ || _); [apply sameAnimation_refl|].
  assert (Spec.sameAnimation s (Engine.createMaterial s)) as Hc
    by (unfold Spec.sameAnimation; rsimpl; repeat split; eauto).
  destruct (Engine.pendingInitialIndex (Engine.createMaterial s))
    as [pending|]; [|exact Hc].
  eapply sameAnimation_trans; [exact Hc|].
  eapply sameAnimation_trans; [apply applyInitialImage_sameAnimation|].
  unfold Spec.sameAnimation; rsimpl; repeat split; auto.
Qed.

Lemma setInitialImage_sameAnimation (i : Z) (s : Engine.t) :
  Spec.sameAnimation s (Engine.setInitialImage i s).
Proof.
  unfold Engine.setInitialImage.
  set (s1 := s <| Engine.currentIndex := Engine.clampIndex i s |>).
  assert (Spec.sameAnimation s s1) as H1
    by (unfold Spec.sameAnimation; rsimpl; repeat split; auto).
  destruct (_ && _ && _).
  - eapply sameAnimation_trans; [exact H1|].
    apply applyInitialImage_sameAnimation.
  - destruct (negb _); [|exact H1].
    unfold Spec.sameAnimation; rsimpl; repeat split; auto.
Qed.

Lemma storeTexture_sameAnimation
    (index : nat) (texture : Engine.Texture) (s : Engine.t) :
  Spec.sameAnimation s (Engine.storeTexture index texture s).
Proof.
  unfold Engine.storeTexture.
  destruct (Engine.image texture);
    unfold Spec.sameAnimation; rsimpl; repeat split; auto.
Qed.

Lemma deliver_sameAnimation
    (r : Engine.LoadResult) (cs : Engine.SetImagesLoad * Engine.t) :
  Spec.sameAnimation (snd cs) (snd (Engine.deliver r cs)).
Proof.
  destruct r as [index texture | index]; cbn [Engine.deliver].
  - unfold Engine.setImages_onLoad.
    pose proof (storeTexture_sameAnimation index texture (snd cs)) as H1.
    set (s1 := Engine.storeTexture index texture (snd cs)) in *.
    destruct (_ && _); [|exact H1].
    destruct (Engine.material s1) as [m|] eqn:Hm.
    + destruct (Engine.pendingInitialIndex s1) as [pending|]; cbn [snd].
      * eapply sameAnimation_trans; [exact H1|].
        eapply sameAnimation_trans; [apply applyInitialImage_sameAnimation|].
        unfold Spec.sameAnimation; rsimpl; repeat split; auto.
      * eapply sameAnimation_trans; [exact H1|].
        unfold Spec.sameAnimation; rsimpl; repeat split; eauto.
    + cbn [snd]. eapply sameAnimation_trans; [exact H1|].
      apply onTexturesLoaded_sameAnimation.
  - unfold Spec.sameAnimation; rsimpl; repeat split; auto.
Qed.

Lemma disposeAll_sameAnimation (a : array Engine.Texture) (s : Engine.t) :
  Spec.sameAnimation s (Engine.disposeAll a s).
Proof.
  unfold Engine.disposeAll. revert s.
  induction a as [|[texture|] a IH]; intros s; cbn [fold_left];
    [apply sameAnimation_refl | | apply IH].
  eapply sameAnimation_trans; [|apply IH].
  unfold Spec.sameAnimation; rsimpl; repeat split; auto.
Qed.

Lemma setImages_sameAnimation
    (imageUrls : list string) (onComplete : option Engine.Callback)
    (s : Engine.t) :
  Spec.sameAnimation s (snd (Engine.setImages imageUrls onComplete s)).
Proof.
  unfold Engine.setImages.
  destruct (len imageUrls =? 0); cbn [snd];
    [unfold Spec.sameAnimation; rsimpl; repeat split; auto|].
  destruct (0 <? len (Engine.textures s)).
  - eapply sameAnimation_trans; [apply disposeAll_sameAnimation|].
    unfold Spec.sameAnimation; rsimpl; repeat split; auto.
  - unfold Spec.sameAnimation; rsimpl; repeat split; auto.
Qed.

(** X4: the engine keeps one animation callback queued while a transition
    is in flight and none otherwise; this holds from the constructor on,
    through every modelled method and host event. *)
Theorem disciplined_preserved :
  (forall options, Spec.disciplined (Engine.constructor options)) /\
  (forall target t0 t1 s s',
     Spec.disciplined s -> Engine.transitionTo target t0 t1 s = Some s' ->
     Spec.disciplined s') /\
  (forall now s s',
     Spec.disciplined s -> Engine.frame now s = Some s' ->
     Spec.disciplined s') /\
  (forall i s, Spec.disciplined s -> Spec.disciplined (Engine.setInitialImage i s)) /\
  (forall imageUrls onComplete s,
     Spec.disciplined s ->
     Spec.disciplined (snd (Engine.setImages imageUrls onComplete s))) /\
  (forall r cs,
     Spec.disciplined (snd cs) -> Spec.disciplined (snd (Engine.deliver r cs))).
Proof.
  split; [intros options; reflexivity|].
  split; [|split; [|split; [|split]]].
  - intros target t0 t1 s s' Hd E. unfold Spec.disciplined in Hd.
    destruct (Engine.isTransitioning s) eqn:Hfl.
    + destruct (transitionTo_rejected_cases target t0 t1 s (or_introl Hfl))
        as [E' | E']; rewrite E' in E; injection E as <-.
      * unfold Spec.disciplined. now rewrite Hfl.
      * apply (disciplined_sameAnimation s);
          [unfold Spec.sameAnimation; rsimpl; repeat split; auto|].
        unfold Spec.disciplined. now rewrite Hfl.
    + destruct (transitionTo_idle target t0 t1 s Hfl Hd)
        as (s1 & E1 & _ & _ & _ & Hcase).
      rewrite E1 in E. injection E as <-. unfold Spec.disciplined.
      destruct Hcase
        as [(Hfl' & Hf & _) | [((Hfl' & Hin) & _) | ((Hfl' & Hf & _) & _)]];
        rewrite Hfl'; [exact Hf | | exact Hf].
      exists target, t0. now split.
  - intros now s s' Hd E. unfold Spec.disciplined in Hd.
    destruct (Engine.isTransitioning s) eqn:Hfl.
    + destruct Hd as (target & start & Hin).
      destruct (frame_in_flight now target start s Hin)
        as (s1 & E1 & _ & _ & _ & [(_ & Hin' & _) | (_ & Hr & Hf & _)]);
        rewrite E1 in E; injection E as <-; unfold Spec.disciplined.
      * destruct Hin' as (Hfl' & Hrest). rewrite Hfl'.
        exists target, start. now split.
      * now rewrite Hr.
    + unfold Engine.frame in E. rewrite Hd in E. injection E as <-.
      unfold Spec.disciplined. now rewrite Hfl.
  - intros i s. apply disciplined_sameAnimation.
    apply setInitialImage_sameAnimation.
  - intros imageUrls onComplete s. apply disciplined_sameAnimation.
    apply setImages_sameAnimation.
  - intros r cs. apply disciplined_sameAnimation. apply deliver_sameAnimation.
Qed.

(** ** No wraparound *)

Lemma keepsIndex_refl (s : Engine.t) : Spec.keepsIndex s s.
Proof. split; auto. Qed.

Lemma keepsIndex_trans (s1 s2 s3 : Engine.t) :
  Spec.keepsIndex s1 s2 -> Spec.keepsIndex s2 s3 -> Spec.keepsIndex s1 s3.
Proof.
  intros (Hi & Hc) (Hi' & Hc'). split; [congruence|].
  destruct Hc' as [Hc' | (p & Hc')].
  - rewrite Hc'. exact Hc.
  - right. exists p. now rewrite Hc', Hi.
Qed.

(** A state that differs from [s] in fields other than the images and the
    current index. *)
Ltac keeps_fields :=
  split; [reflexivity | left; reflexivity].

Ltac same_fields :=
  unfold Spec.sameAnimation; rsimpl; repeat split; auto;
  try (intros _; eexists; reflexivity).

Lemma disposeAll_currentIndex (a : array Engine.Texture) (s : Engine.t) :
  Engine.currentIndex (Engine.disposeAll a s) = Engine.currentIndex s.
Proof.
  unfold Engine.disposeAll. revert s.
  induction a as [|[texture|] a IH]; intros s; cbn [fold_left];
    [reflexivity | | apply IH].
  now rewrite IH.
Qed.

Lemma applyInitialImage_keepsIndex (index : Z) (s : Engine.t) :
  Spec.keepsIndex s (Engine.applyInitialImage index s).
Proof.
  unfold Engine.applyInitialImage.
  destruct (Engine.material s) as [m|]; [|apply keepsIndex_refl].
  destruct (negb _); [apply keepsIndex_refl|].
  destruct (get (Engine.displacementTextures s) _); rsimpl;
    (split; [reflexivity|]); right; exists index; reflexivity.
Qed.

Lemma onTexturesLoaded_keepsIndex (s : Engine.t) :
  Spec.keepsIndex s (Engine.onTexturesLoaded s).
Proof.
  unfold Engine.onTexturesLoaded.
  destruct (_ || _ || _ || _); [apply keepsIndex_refl|].
  assert (Spec.keepsIndex s (Engine.createMaterial s)) as Hc by keeps_fields.
  destruct (Engine.pendingInitialIndex (Engine.createMaterial s))
    as [pending|]; [|exact Hc].
  eapply keepsIndex_trans; [exact Hc|].
  eapply keepsIndex_trans; [apply applyInitialImage_keepsIndex|].
  keeps_fields.
Qed.

Lemma setInitialImage_keepsIndex (i : Z) (s : Engine.t) :
  Spec.keepsIndex s (Engine.setInitialImage i s).
Proof.
  unfold Engine.setInitialImage.
  set (s1 := s <| Engine.currentIndex := Engine.clampIndex i s |>).
  assert (Spec.keepsIndex s s1) as H1
    by (split; [reflexivity | right; exists i; reflexivity]).
  destruct (_ && _ && _).
  - eapply keepsIndex_trans; [exact H1|].
    apply applyInitialImage_keepsIndex.
  - destruct (negb _); [|exact H1].
    eapply keepsIndex_trans; [exact H1|]. keeps_fields.
Qed.

Lemma storeTexture_keepsIndex
    (index : nat) (texture : Engine.Texture) (s : Engine.t) :
  Spec.keepsIndex s (Engine.storeTexture index texture s).
Proof.
  unfold Engine.storeTexture. destruct (Engine.image texture); keeps_fields.
Qed.

Lemma deliver_keepsIndex
    (r : Engine.LoadResult) (cs : Engine.SetImagesLoad * Engine.t) :
  Spec.keepsIndex (snd cs) (snd (Engine.deliver r cs)).
Proof.
  destruct r as [index texture | index]; cbn [Engine.deliver].
  - unfold Engine.setImages_onLoad.
    pose proof (storeTexture_keepsIndex index texture (snd cs)) as H1.
    set (s1 := Engine.storeTexture index texture (snd cs)) in *.
    destruct (_ && _); [|exact H1].
    destruct (Engine.material s1) as [m|] eqn:Hm.
    + destruct (Engine.pendingInitialIndex s1) as [pending|]; cbn [snd].
      * eapply keepsIndex_trans; [exact H1|].
        eapply keepsIndex_trans; [apply applyInitialImage_keepsIndex|].
        keeps_fields.
      * eapply keepsIndex_trans; [exact H1|]. keeps_fields.
    + cbn [snd]. eapply keepsIndex_trans; [exact H1|].
      apply onTexturesLoaded_keepsIndex.
  - keeps_fields.
Qed.

Lemma loadTextures_deliver_keepsIndex
    (r : Engine.TextureResult) (cs : Engine.TexturesLoad * Engine.t) :
  Spec.keepsIndex (snd cs) (snd (Engine.loadTextures_deliver r cs)).
Proof.
  destruct r as [index texture | index | index texture | index];
    cbn [Engine.loadTextures_deliver]; try keeps_fields.
  - unfold Engine.loadTextures_onImage.
    destruct (Engine.texturesReady _); cbn [snd];
      [|apply storeTexture_keepsIndex].
    eapply keepsIndex_trans; [apply storeTexture_keepsIndex|].
    apply onTexturesLoaded_keepsIndex.
  - unfold Engine.loadTextures_onDisplacement.
    destruct (Engine.texturesReady _); cbn [snd].
    + eapply keepsIndex_trans; [|apply onTexturesLoaded_keepsIndex].
      destruct (index =? 0)%nat; keeps_fields.
    + destruct (index =? 0)%nat; keeps_fields.
Qed.

Lemma loadTextures_deliver_sameAnimation
    (r : Engine.TextureResult) (cs : Engine.TexturesLoad * Engine.t) :
  Spec.sameAnimation (snd cs) (snd (Engine.loadTextures_deliver r cs)).
Proof.
  destruct r as [index texture | index | index texture | index];
    cbn [Engine.loadTextures_deliver];
    try (unfold Spec.sameAnimation; rsimpl; repeat split; auto; fail).
  - unfold Engine.loadTextures_onImage.
    destruct (Engine.texturesReady _); cbn [snd];
      [|apply storeTexture_sameAnimation].
    eapply sameAnimation_trans; [apply storeTexture_sameAnimation|].
    apply onTexturesLoaded_sameAnimation.
  - unfold Engine.loadTextures_onDisplacement.
    destruct (Engine.texturesReady _); cbn [snd].
    + eapply sameAnimation_trans; [|apply onTexturesLoaded_sameAnimation].
      destruct (index =? 0)%nat;
        unfold Spec.sameAnimation; rsimpl; repeat split; auto.
    + destruct (index =? 0)%nat;
        unfold Spec.sameAnimation; rsimpl; repeat split; auto.
Qed.

Lemma disposeAll_keepsIndex (a : array Engine.Texture) (s : Engine.t) :
  Spec.keepsIndex s (Engine.disposeAll a s).
Proof.
  unfold Engine.disposeAll. revert s.
  induction a as [|[texture|] a IH]; intros s; cbn [fold_left];
    [apply keepsIndex_refl | | apply IH].
  eapply keepsIndex_trans; [|apply IH]. keeps_fields.
Qed.

(** The methods and callbacks that touch neither the animation nor the
    indices beyond clamping the current one. *)
Lemma quiet_calls (s : Engine.t) :
  (forall i, Spec.sameAnimation s (Engine.setInitialImage i s)
             /\ Spec.keepsIndex s (Engine.setInitialImage i s)) /\
  (forall v, Spec.sameAnimation s (Engine.setIntensity v s)
             /\ Spec.keepsIndex s (Engine.setIntensity v s)) /\
  (forall v, Spec.sameAnimation s (Engine.setTransitionSpeed v s)
             /\ Spec.keepsIndex s (Engine.setTransitionSpeed v s)) /\
  (forall urls, Spec.sameAnimation s (snd (Engine.setDisplacementImages urls s))
                /\ Spec.keepsIndex s (snd (Engine.setDisplacementImages urls s))) /\
  (forall r c, Spec.sameAnimation s (snd (Engine.deliver r (c, s)))
               /\ Spec.keepsIndex s (snd (Engine.deliver r (c, s)))) /\
  (forall r c, Spec.sameAnimation s (snd (Engine.loadTextures_deliver r (c, s)))
               /\ Spec.keepsIndex s (snd (Engine.loadTextures_deliver r (c, s)))) /\
  (forall r, Spec.sameAnimation s (Engine.deliverMap r s)
             /\ Spec.keepsIndex s (Engine.deliverMap r s)).
Proof.
  split; [intros i; split;
          [apply setInitialImage_sameAnimation | apply setInitialImage_keepsIndex]|].
  split.
  { intros v. unfold Engine.setIntensity.
    change (Engine.material (s <| Engine.intensity := v |>))
      with (Engine.material s).
    destruct (Engine.material s) as [m|] eqn:Hm; split; try keeps_fields;
      unfold Spec.sameAnimation; rsimpl; repeat split; auto;
      rewrite ?Hm; auto; intros _; eexists; reflexivity. }
  split.
  { intros v. split; [|keeps_fields].
    unfold Spec.sameAnimation; rsimpl; repeat split; auto. }
  split.
  { intros urls. unfold Engine.setDisplacementImages.
    destruct (len urls =? 0); cbn [snd].
    - split; [|keeps_fields].
      unfold Spec.sameAnimation; rsimpl; repeat split; auto.
    - destruct (0 <? len (Engine.displacementTextures s)); split.
      + eapply sameAnimation_trans; [apply disposeAll_sameAnimation|].
        unfold Spec.sameAnimation; rsimpl; repeat split; auto.
      + eapply keepsIndex_trans; [apply disposeAll_keepsIndex|]. keeps_fields.
      + unfold Spec.sameAnimation; rsimpl; repeat split; auto.
      + keeps_fields. }
  split; [intros r c; split;
          [apply (deliver_sameAnimation r (c, s))
          | apply (deliver_keepsIndex r (c, s))]|].
  split; [intros r c; split;
          [apply (loadTextures_deliver_sameAnimation r (c, s))
          | apply (loadTextures_deliver_keepsIndex r (c, s))]|].
  intros [index texture | index]; cbn [Engine.deliverMap].
  - unfold Engine.setDisplacementImages_onLoad.
    destruct (index =? 0)%nat.
    + change (Engine.material
                (s <| Engine.displacementTextures :=
                        put (Engine.displacementTextures s) index texture |>
                   <| Engine.displacementTexture := Some texture |>))
        with (Engine.material s).
      destruct (Engine.material s) as [m|] eqn:Hm; split; try keeps_fields;
        unfold Spec.sameAnimation; rsimpl; repeat split; auto;
        rewrite ?Hm; auto; intros _; eexists; reflexivity.
    + split; [same_fields | keeps_fields].
  - split; [|keeps_fields].
    unfold Spec.sameAnimation; rsimpl; repeat split; auto.
Qed.

(** An index clamped to a sequence that is not empty is one of its
    indices. *)
Lemma clamp_valid (s : Engine.t) (p : Z) :
  0 <= len (Engine.images s) - 1 ->
  Spec.validIndex s (Z.max 0 (Z.min p (len (Engine.images s) - 1))).
Proof. unfold Spec.validIndex. lia. Qed.

Lemma inRange_quiet (s s' : Engine.t) :
  Spec.sameAnimation s s' /\ Spec.keepsIndex s s' ->
  Spec.inRange s -> Spec.inRange s'.
Proof.
  intros [Ha (Hi & Hc)] (Hd & Hv & Ht).
  pose proof Ha as (Hfl & _ & Htg & _).
  unfold Spec.inRange, Spec.validIndex in *. rewrite Hi, Hfl, Htg.
  split; [now apply (disciplined_sameAnimation s)|].
  split; [|exact Ht].
  destruct Hc as [-> | (p & ->)]; lia.
Qed.

(** [transitionTo] of a valid index keeps the indices in range. *)
Lemma transitionTo_inRange (target t0 t1 : Z) (s : Engine.t) :
  Spec.inRange s -> Engine.isTransitioning s = false ->
  Spec.validIndex s target ->
  exists s',
    Engine.transitionTo target t0 t1 s = Some s' /\ Spec.inRange s' /\
    Engine.images s' = Engine.images s /\
    (Engine.currentIndex s' = Engine.currentIndex s
     \/ Engine.currentIndex s' = target).
Proof.
  intros (Hd & Hv & _) Hidle Htarget.
  unfold Spec.disciplined in Hd. rewrite Hidle in Hd.
  destruct (transitionTo_idle target t0 t1 s Hidle Hd)
    as (s' & E & Hi & _ & _
        & [(Hfl & Hf & Hc & _) | [(Hin & Hc & _) | ((Hfl & Hf & Hc & _) & _)]]);
    exists s'; (split; [exact E|]);
    unfold Spec.inRange, Spec.disciplined, Spec.validIndex in *; rewrite Hi.
  - rewrite Hfl, Hc.
    split; [split; [exact Hf | split; [lia | intros x H; discriminate H]]
           | split; [reflexivity | now left]].
  - pose proof Hin as (Hfl & Ht & _). rewrite Hfl, Hc.
    split; [split; [eauto | split; [lia|]] | split; [reflexivity | now left]].
    intros x _ Hx. rewrite Ht in Hx. injection Hx as <-. lia.
  - rewrite Hfl, Hc.
    split; [split; [exact Hf | split; [lia | intros x H; discriminate H]]
           | split; [reflexivity | now right]].
Qed.

(** Each call keeps the indices in range, and returns. *)
Lemma call_inRange (c : Engine.Call) (s : Engine.t) :
  Spec.inRange s -> exists s', Engine.call c s = Some s' /\ Spec.inRange s'.
Proof.
  intros Hr. pose proof Hr as (Hd & Hv & Ht).
  pose proof (quiet_calls s) as (Q1 & Q2 & Q3 & Q4 & Q5 & Q6 & Q7).
  destruct c; cbn [Engine.call];
    try (eexists; split; [reflexivity|];
         refine (inRange_quiet s _ _ Hr); auto; fail).
  - unfold Engine.transitionToNext.
    destruct (Engine.isTransitioning s) eqn:Hfl; [eauto|]. cbn [orb].
    destruct (negb _); [eauto|].
    destruct (Z.geb_spec (Engine.currentIndex s) (len (Engine.images s) - 1));
      [eauto|].
    destruct (transitionTo_inRange (Engine.currentIndex s + 1) t0 t1 s Hr Hfl)
      as (s' & E & Hr' & _); [unfold Spec.validIndex in *; lia | eauto].
  - unfold Engine.transitionToPrevious.
    destruct (Engine.isTransitioning s) eqn:Hfl; [eauto|]. cbn [orb].
    destruct (negb _); [eauto|].
    destruct (Z.leb_spec (Engine.currentIndex s) 0); [eauto|].
    destruct (transitionTo_inRange (Engine.currentIndex s - 1) t0 t1 s Hr Hfl)
      as (s' & E & Hr' & _); [unfold Spec.validIndex in *; lia | eauto].
  - unfold Spec.disciplined in Hd.
    destruct (Engine.isTransitioning s) eqn:Hfl.
    + destruct Hd as (target & start & Hin).
      pose proof Hin as (_ & Htg & _). specialize (Ht target eq_refl Htg).
      destruct (frame_in_flight now target start s Hin)
        as (s' & E & Hi & _ & _ & [(_ & Hin' & Hc) | (_ & Hfl' & Hf & Hc & _)]);
        exists s'; (split; [exact E|]);
        unfold Spec.inRange, Spec.disciplined, Spec.validIndex in *; rewrite Hi.
      * pose proof Hin' as (Hfl' & Htg' & _). rewrite Hfl', Hc.
        split; [eauto | split; [lia|]].
        intros x _ Hx. rewrite Htg' in Hx. injection Hx as <-. lia.
      * rewrite Hfl', Hc.
        split; [exact Hf | split; [lia | intros x H; discriminate H]].
    + exists s. unfold Engine.frame. rewrite Hd. auto.
Qed.

Lemma calls_inRange (cs : list Engine.Call) (s : Engine.t) :
  Spec.inRange s -> exists s', Engine.calls cs s = Some s' /\ Spec.inRange s'.
Proof.
  revert s. induction cs as [|c cs IH]; intros s Hr; cbn [Engine.calls];
    [eauto|].
  destruct (call_inRange c s Hr) as (s1 & E & Hr1). rewrite E. cbn.
  exact (IH s1 Hr1).
Qed.

(** [setImages] keeps the indices in range when the new sequence is not
    shorter than the one it replaces. *)
Lemma setImages_inRange
    (imageUrls : list string) (onComplete : option Engine.Callback)
    (s : Engine.t) :
  Spec.inRange s -> len (Engine.images s) <= len imageUrls ->
  Spec.inRange (snd (Engine.setImages imageUrls onComplete s)).
Proof.
  intros (Hd & Hv & Ht) Hlen.
  pose proof (setImages_sameAnimation imageUrls onComplete s) as Ha.
  pose proof Ha as (Hfl & _ & Htg & _).
  split; [now apply (disciplined_sameAnimation s)|].
  rewrite Hfl, Htg.
  assert (Engine.currentIndex (snd (Engine.setImages imageUrls onComplete s))
          = Engine.currentIndex s
          /\ len (Engine.images s)
             <= len (Engine.images (snd (Engine.setImages imageUrls onComplete s))))
    as [Hc Hi].
  { unfold Engine.setImages.
    destruct (len imageUrls =? 0); cbn [snd]; [split; [reflexivity | rsimpl; lia]|].
    destruct (0 <? len (Engine.textures s)); rsimpl;
      (split; [|exact Hlen]); try reflexivity.
    apply disposeAll_currentIndex. }
  unfold Spec.validIndex in *. rewrite Hc. split; [lia|].
  intros target H1 H2. specialize (Ht target H1 H2). lia.
Qed.

(** C5, where it holds.  At the last index [transitionToNext] changes
    nothing, at index 0 [transitionToPrevious] changes nothing, and both
    change nothing while a transition is in flight; from an idle state
    each of them returns, every run of frames after it returns, and the
    index it ends at is the one before the call or its neighbour on the
    side asked for, never one reached by wrapping around.  Whatever is
    interleaved with them and with the frames (calls of [setInitialImage],
    [setIntensity], [setTransitionSpeed], [setDisplacementImages], ends of
    loads), every call returns and the current index and the target of a
    transition in flight stay indices of the image sequence; a call of
    [setImages] keeps them so as long as the new sequence is not shorter
    than the one it replaces. *)
Theorem next_previous_stay_in_range
    (s : Engine.t) (t0 t1 : Z) (times : list Z) (cs : list Engine.Call) :
  Spec.validIndex s (Engine.currentIndex s) ->
  (Engine.currentIndex s = len (Engine.images s) - 1 ->
   Engine.transitionToNext t0 t1 s = Some s) /\
  (Engine.currentIndex s = 0 ->
   Engine.transitionToPrevious t0 t1 s = Some s) /\
  (Engine.isTransitioning s = true ->
   Engine.transitionToNext t0 t1 s = Some s /\
   Engine.transitionToPrevious t0 t1 s = Some s) /\
  (Engine.isTransitioning s = false -> Engine.frames s = 0%nat ->
   (exists s' s'',
      Engine.transitionToNext t0 t1 s = Some s' /\
      Engine.run_frames times s' = Some s'' /\
      Engine.images s'' = Engine.images s /\
      0 <= Engine.currentIndex s'' <= len (Engine.images s'') - 1 /\
      (Engine.currentIndex s'' = Engine.currentIndex s \/
       Engine.currentIndex s'' = Engine.currentIndex s + 1)) /\
   (exists s' s'',
      Engine.transitionToPrevious t0 t1 s = Some s' /\
      Engine.run_frames times s' = Some s'' /\
      Engine.images s'' = Engine.images s /\
      0 <= Engine.currentIndex s'' <= len (Engine.images s'') - 1 /\
      (Engine.currentIndex s'' = Engine.currentIndex s \/
       Engine.currentIndex s'' = Engine.currentIndex s - 1))) /\
  (Spec.inRange s ->
   exists s',
     Engine.calls cs s = Some s' /\
     Spec.inRange s' /\
     0 <= Engine.currentIndex s' <= len (Engine.images s') - 1) /\
  (Spec.inRange s ->
   forall imageUrls onComplete,
     len (Engine.images s) <= len imageUrls ->
     Spec.inRange (snd (Engine.setImages imageUrls onComplete s))).
Proof.
  intros Hv. unfold Spec.validIndex in *.
  split; [|split; [|split; [|split; [|split]]]].
  - intros Hlast. unfold Engine.transitionToNext.
    destruct (_ || _); [reflexivity|].
    rewrite Hlast. now rewrite (proj2 (Z.geb_le _ _) (Z.le_refl _)).
  - intros Hfirst. unfold Engine.transitionToPrevious.
    destruct (_ || _); [reflexivity|].
    rewrite Hfirst. reflexivity.
  - intros Hfl. unfold Engine.transitionToNext, Engine.transitionToPrevious.
    rewrite Hfl. split; reflexivity.
  - intros Hidle Hfr. split.
    + unfold Engine.transitionToNext. rewrite Hidle. cbn [orb].
      destruct (negb _).
      { exists s, s. rewrite (run_frames_settled times s Hfr).
        repeat (split; [reflexivity || lia|]). now left. }
      destruct (Z.geb_spec (Engine.currentIndex s) (len (Engine.images s) - 1))
        as [Hge | Hlt].
      { exists s, s. rewrite (run_frames_settled times s Hfr).
        repeat (split; [reflexivity || lia|]). now left. }
      destruct (transitionTo_then_frames (Engine.currentIndex s + 1)
                  t0 t1 times s Hidle Hfr) as (s' & s'' & E & E' & Hi & Hc).
      exists s', s''. repeat (split; [assumption|]).
      split; [|exact Hc]. rewrite Hi. lia.
    + unfold Engine.transitionToPrevious. rewrite Hidle. cbn [orb].
      destruct (negb _).
      { exists s, s. rewrite (run_frames_settled times s Hfr).
        repeat (split; [reflexivity || lia|]). now left. }
      destruct (Z.leb_spec (Engine.currentIndex s) 0) as [Hle | Hgt].
      { exists s, s. rewrite (run_frames_settled times s Hfr).
        repeat (split; [reflexivity || lia|]). now left. }
      destruct (transitionTo_then_frames (Engine.currentIndex s - 1)
                  t0 t1 times s Hidle Hfr) as (s' & s'' & E & E' & Hi & Hc).
      exists s', s''. repeat (split; [assumption|]).
      split; [|exact Hc]. rewrite Hi. lia.
  - intros Hr. destruct (calls_inRange cs s Hr) as (s' & E & Hr').
    exists s'. split; [exact E|]. split; [exact Hr'|].
    exact (proj1 (proj2 Hr')).
  - intros Hr imageUrls onComplete Hlen. now apply setImages_inRange.
Qed.

Lemma next_previous_stay_in_range_witness :
  Engine.transitionToPrevious 0 0 Sample.ready = Some Sample.ready /\
  Engine.transitionToNext 0 0 Sample.atLast = Some Sample.atLast /\
  (exists s' s'',
     Engine.transitionToNext 1000 1000 Sample.ready = Some s' /\
     Engine.run_frames [1600; 2200] s' = Some s'' /\
     0 <= Engine.currentIndex s'' <= len (Engine.images s'') - 1) /\
  (exists s',
     Engine.calls
       [Engine.SetInitialImage 9;
        Engine.ImageLoadEnds (Engine.Loaded 1 (Sample.picture "b"))
          (Engine.mkSetImagesLoad 1 3);
        Engine.Frame 5600; Engine.Next 5700 5700; Engine.Frame 6200;
        Engine.Previous 7000 7000]
       Sample.leavingMiddle = Some s' /\
     0 <= Engine.currentIndex s' <= len (Engine.images s') - 1) /\
  Spec.inRange
    (snd (Engine.setImages ["x"; "y"; "z"]%string None Sample.leavingMiddle)).
Proof.
  assert (Spec.inRange Sample.leavingMiddle) as Hr.
  { assert (Engine.isTransitioning Sample.leavingMiddle = true) as Hfl
      by (vm_compute; reflexivity).
    assert (Engine.targetIndex Sample.leavingMiddle = Some 2) as Htg
      by (vm_compute; reflexivity).
    unfold Spec.inRange, Spec.disciplined, Spec.inFlight, Spec.validIndex.
    rewrite Hfl, Htg.
    split; [|split].
    - exists 2, 5000.
      do 3 (split; [vm_compute; reflexivity|]).
      split; [eexists; vm_compute; reflexivity | vm_compute; reflexivity].
    - vm_compute. split; discriminate.
    - intros target _ [= <-]. vm_compute. split; discriminate. }
  split; [|split; [|split; [|split]]].
  - destruct (next_previous_stay_in_range Sample.ready 0 0 [] [])
      as (_ & Hfirst & _);
      [unfold Spec.validIndex; vm_compute; split; discriminate|].
    apply Hfirst. reflexivity.
  - destruct (next_previous_stay_in_range Sample.atLast 0 0 [] [])
      as (Hlast & _);
      [unfold Spec.validIndex; vm_compute; split; discriminate|].
    apply Hlast. reflexivity.
  - destruct (next_previous_stay_in_range Sample.ready 1000 1000 [1600; 2200] [])
      as (_ & _ & _ & H & _);
      [unfold Spec.validIndex; vm_compute; split; discriminate|].
    destruct H as [(s' & s'' & E & E' & _ & Hv & _) _];
      [reflexivity | reflexivity |].
    exists s', s''. repeat (split; [assumption|]). assumption.
  - edestruct (next_previous_stay_in_range Sample.leavingMiddle 0 0 [])
      as (_ & _ & _ & _ & H & _);
      [unfold Spec.validIndex; vm_compute; split; discriminate|].
    destruct (H Hr) as (s' & E & _ & Hv).
    exists s'. split; [exact E | exact Hv].
  - edestruct (next_previous_stay_in_range Sample.leavingMiddle 0 0 [] [])
      as (_ & _ & _ & _ & _ & H);
      [unfold Spec.validIndex; vm_compute; split; discriminate|].
    apply (H Hr). vm_compute. discriminate.
Defined.

(** C5 fails on the code when the image sequence is replaced by a shorter
    one while a transition is in flight: [setImages] neither ends the
    transition nor looks at the indices, and the frame that ends it commits
    the target as it was.  The engine is at rest at the image 1 of three;
    [transitionToNext] starts the transition to the image 2; [setImages]
    is given two images, which are loaded; the frame that ends the
    transition leaves [currentIndex] at 2 where the last index is 1, and
    the first texture of the pair undefined. *)
Lemma setImages_in_flight_leaves_range :
  let loading :=
    Engine.setImages ["x"; "y"]%string None Sample.leavingMiddle in
  let s2 :=
    snd (Engine.deliverAll
           [Engine.Loaded 0 (Sample.picture "x");
            Engine.Loaded 1 (Sample.picture "y")]
           (Engine.mkSetImagesLoad 0 2, snd loading)) in
  Engine.isTransitioning Sample.atMiddle = false /\
  Engine.currentIndex Sample.atMiddle = 1 /\
  len (Engine.images Sample.atMiddle) - 1 = 2 /\
  Engine.transitionToNext 5000 5000 Sample.atMiddle = Some Sample.leavingMiddle /\
  fst loading = Some (Engine.mkSetImagesLoad 0 2) /\
  exists s3,
    Engine.frame 6200 s2 = Some s3 /\
    Engine.isTransitioning s3 = false /\
    Engine.currentIndex s3 = 2 /\
    len (Engine.images s3) - 1 = 1 /\
    (Engine.texture1 <$> Engine.material s3) = Some None.
Proof.
  cbv zeta.
  do 5 (split; [vm_compute; reflexivity|]).
  eexists. split; [vm_compute; reflexivity|].
  do 3 (split; [vm_compute; reflexivity|]). vm_compute; reflexivity.
Qed.

(** On the sample the move does happen: index 0, then 1 once the duration
    has passed, and the move back from there. *)
Example next_then_previous_on_sample :
  (Engine.currentIndex <$>
     (Engine.transitionToNext 1000 1000 Sample.ready
        ≫= Engine.run_frames [1600; 2200])) = Some 1 /\
  (Engine.currentIndex <$>
     (Engine.transitionToPrevious 5000 5000 Sample.atLast
        ≫= Engine.run_frames [5016; 6200])) = Some 1.
Proof. split; vm_compute; reflexivity. Qed.

(** ** The state index of a class list *)

Lemma afterLiteral_app (literal s rest : string) :
  ControllerV1.afterLiteral literal s = Some rest <->
  s = (literal ++ rest)%string.
Proof.
  revert s. induction literal as [|a literal IH]; intros s; cbn.
  - split; [intros [= ->]; reflexivity | intros ->; reflexivity].
  - destruct s as [|b s]; [split; discriminate|].
    destruct (Ascii.eqb_spec a b) as [-> | Hne].
    + rewrite IH. split; [intros ->; reflexivity | intros [= ->]; reflexivity].
    + split; [discriminate | intros [= E _]; congruence].
Qed.

Lemma literal_app_inj (literal a b : string) :
  (literal ++ a)%string = (literal ++ b)%string -> a = b.
Proof.
  intros H. apply afterLiteral_app in H.
  pose proof (proj2 (afterLiteral_app literal (literal ++ a) a) eq_refl).
  congruence.
Qed.

(** The pattern matches the tokens [state-<N>] and nothing else. *)
Lemma matchState_token (className digits : string) :
  ControllerV1.matchState className = Some digits <->
  className = ("state-" ++ digits)%string /\
  digits <> EmptyString /\ ControllerV1.allDigits digits = true.
Proof.
  unfold ControllerV1.matchState.
  destruct (ControllerV1.afterLiteral "state-" className) as [rest|] eqn:E.
  - apply afterLiteral_app in E. subst className.
    destruct rest as [|c rest].
    + split; [discriminate|]. intros (E & Hne & _).
      apply literal_app_inj in E. congruence.
    + destruct (ControllerV1.allDigits (String c rest)) eqn:Hd.
      * split.
        -- intros [= <-]. repeat split; [discriminate | assumption].
        -- intros (E & _). apply literal_app_inj in E. congruence.
      * split; [discriminate|]. intros (E & _ & Hd').
        apply literal_app_inj in E. congruence.
  - split; [discriminate|]. intros (Hc & _).
    apply afterLiteral_app in Hc. congruence.
Qed.

Lemma stateNumbers_token (classList : list string) (N : Z) :
  In N (ControllerV1.stateNumbers classList) <->
  exists className, In className classList /\ Spec.stateToken className N.
Proof.
  unfold ControllerV1.stateNumbers, Spec.stateToken.
  rewrite <- list_elem_of_In, list_elem_of_omap.
  split.
  - intros (c & Hc & E). exists c. rewrite <- list_elem_of_In.
    split; [assumption|].
    destruct (ControllerV1.matchState c) as [digits|] eqn:Hm; [|discriminate].
    injection E as <-. apply matchState_token in Hm.
    exists digits. tauto.
  - intros (c & Hc & digits & E & Hne & Hd & ->).
    exists c. rewrite list_elem_of_In. split; [assumption|].
    rewrite (proj2 (matchState_token c digits)) by tauto. reflexivity.
Qed.

(** A run of digits never lowers the number read so far. *)
Lemma parseDigits_ge (digits : string) (acc : Z) :
  ControllerV1.allDigits digits = true -> 0 <= acc ->
  acc <= ControllerV1.parseDigits acc digits.
Proof.
  revert acc. induction digits as [|c rest IH]; intros acc Hd Hacc; cbn.
  - lia.
  - cbn in Hd. apply andb_true_iff in Hd as [Hc Hd].
    unfold ControllerV1.isDigit in Hc. apply andb_true_iff in Hc as [Hlo Hhi].
    apply Nat.leb_le in Hlo, Hhi.
    etransitivity; [|apply IH; [assumption|lia]]. lia.
Qed.

Lemma stateNumbers_nonneg (classList : list string) (N : Z) :
  In N (ControllerV1.stateNumbers classList) -> 0 <= N.
Proof.
  rewrite stateNumbers_token.
  intros (c & _ & digits & _ & _ & Hd & ->).
  apply (parseDigits_ge digits 0 Hd). lia.
Qed.

Lemma scanClass_step (maxState : option Z) (maxNum : Z) (className : string) :
  Controller.scanClass (maxState, maxNum) className
  = match ControllerV1.matchState className with
    | Some digits =>
        if ControllerV1.parseInt digits >? maxNum
        then (Some (ControllerV1.parseInt digits), ControllerV1.parseInt digits)
        else (maxState, maxNum)
    | None => (maxState, maxNum)
    end.
Proof. reflexivity. Qed.

Lemma stateNumbers_cons (className : string) (classList : list string) :
  ControllerV1.stateNumbers (className :: classList)
  = match ControllerV1.matchState className with
    | Some digits => ControllerV1.parseInt digits :: ControllerV1.stateNumbers classList
    | None => ControllerV1.stateNumbers classList
    end.
Proof.
  unfold ControllerV1.stateNumbers. cbn [omap list_omap].
  destruct (ControllerV1.matchState className); reflexivity.
Qed.

(** The loop of the revised controller keeps the highest number met, and
    [maxState] is that number as soon as one was met. *)
Lemma scanClass_fold (classList : list string) (maxState : option Z) (maxNum : Z) :
  let r := fold_left Controller.scanClass classList (maxState, maxNum) in
  maxNum <= snd r /\
  (forall n, In n (ControllerV1.stateNumbers classList) -> n <= snd r) /\
  ((snd r = maxNum /\ fst r = maxState) \/
   (In (snd r) (ControllerV1.stateNumbers classList) /\ fst r = Some (snd r))).
Proof.
  revert maxState maxNum.
  induction classList as [|c classList IH]; intros maxState maxNum; cbn zeta.
  - cbn. split; [lia|]. split; [tauto|]. now left.
  - cbn [fold_left]. rewrite scanClass_step, stateNumbers_cons.
    destruct (ControllerV1.matchState c) as [digits|] eqn:Hm; [|apply IH].
    destruct (Z.gtb_spec (ControllerV1.parseInt digits) maxNum) as [Hgt | Hle].
    + destruct (IH (Some (ControllerV1.parseInt digits))
                  (ControllerV1.parseInt digits)) as (H1 & H2 & H3).
      split; [lia|]. split.
      * intros n [<- | Hn]; [assumption | now apply H2].
      * right. destruct H3 as [(E1 & E2) | (Hin & E2)].
        -- split; [left; congruence | congruence].
        -- split; [now right | assumption].
    + destruct (IH maxState maxNum) as (H1 & H2 & H3).
      split; [assumption|]. split.
      * intros n [<- | Hn]; [lia | now apply H2].
      * destruct H3 as [H3 | (Hin & E2)]; [now left | right].
        split; [now right | assumption].
Qed.

(** The first revision answers with the first token of that shape, not the
    highest: the two revisions agree on a class list with one such token at
    most, and part on [state-2 state-5]. *)
Lemma extractStateNumber_first_revision (classList : list string) :
  ControllerV1.extractStateNumber classList
  = match ControllerV1.stateNumbers classList with
    | [] => None
    | n :: _ => Some (Z.max 0 (n - 1))
    end.
Proof.
  induction classList as [|c classList IH]; [reflexivity|].
  cbn [ControllerV1.extractStateNumber]. rewrite stateNumbers_cons.
  destruct (ControllerV1.matchState c); [reflexivity | exact IH].
Qed.

Lemma extractStateNumber_revisions_agree (classList : list string) :
  (length (ControllerV1.stateNumbers classList) <= 1)%nat ->
  Controller.extractStateNumber classList
  = ControllerV1.extractStateNumber classList.
Proof.
  intros Hlen. rewrite extractStateNumber_first_revision.
  unfold Controller.extractStateNumber.
  pose proof (scanClass_fold classList None (-1)) as H. cbn zeta in H.
  pose proof (stateNumbers_nonneg classList) as Hpos.
  destruct (fold_left Controller.scanClass classList (None, -1))
    as [maxState maxNum]. cbn [fst snd] in H.
  destruct H as (_ & Hall & Hcase).
  destruct (ControllerV1.stateNumbers classList) as [|n [|n' ns]]; cbn in Hlen;
    [| |lia].
  - destruct Hcase as [(_ & ->) | ([] & _)]. reflexivity.
  - destruct Hcase as [(-> & _) | ([<- | []] & ->)]; [|reflexivity].
    pose proof (Hall n (or_introl eq_refl)).
    pose proof (Hpos n (or_introl eq_refl)). lia.
Qed.

Example extractStateNumber_revisions_part :
  ControllerV1.extractStateNumber ["state-2"; "state-5"]%string = Some 1 /\
  Controller.extractStateNumber ["state-2"; "state-5"]%string = Some 4.
Proof. split; reflexivity. Qed.

(** A token [state-0] has the shape too; both revisions answer 0 on it. *)
Example extractStateNumber_state_0 :
  Controller.extractStateNumber ["state-0"]%string = Some 0 /\
  ControllerV1.extractStateNumber ["state-0"]%string = Some 0.
Proof. split; reflexivity. Qed.

(** C3: the revised controller does what the claim says: with a token
    [state-<N>], [N] positive, in the class list it returns the highest
    such [N] minus 1, without any such token it returns nothing, and
    [state-2 state-5] gives 4.  The first revision does not: it returns at
    the first token of that shape, and on [state-2 state-5] it gives 1. *)
Theorem extractStateNumber_highest_in_revised_only (classList : list string) :
  ((forall className N,
      In className classList -> ~ Spec.stateToken className N) ->
   Controller.extractStateNumber classList = None) /\
  (forall className N,
     In className classList -> Spec.stateToken className N ->
     1 <= N <= 2 ^ 53 ->
     (forall className' M,
        In className' classList -> Spec.stateToken className' M -> M <= N) ->
     Controller.extractStateNumber classList = Some (N - 1)) /\
  Controller.extractStateNumber ["state-2"; "state-5"]%string = Some 4 /\
  ControllerV1.extractStateNumber ["state-2"; "state-5"]%string = Some 1.
Proof.
  unfold Controller.extractStateNumber.
  pose proof (scanClass_fold classList None (-1)) as H. cbn zeta in H.
  destruct (fold_left Controller.scanClass classList (None, -1))
    as [maxState maxNum]. cbn [fst snd] in H.
  destruct H as (Hge & Hall & Hcase).
  split; [|split; [|split; reflexivity]].
  - intros Hnone. destruct Hcase as [(_ & ->) | (Hin & _)]; [reflexivity|].
    apply stateNumbers_token in Hin as (c & Hc & Htok).
    destruct (Hnone c maxNum Hc Htok).
  - intros c N Hc Htok [HN _] Hmax.
    assert (In N (ControllerV1.stateNumbers classList)) as HinN
      by (apply stateNumbers_token; eauto).
    pose proof (Hall N HinN) as HleN.
    destruct Hcase as [(-> & _) | (Hin & ->)]; [lia|].
    apply stateNumbers_token in Hin as (c' & Hc' & Htok').
    pose proof (Hmax c' maxNum Hc' Htok').
    f_equal. lia.
Qed.

Lemma extractStateNumber_highest_in_revised_only_witness :
  Controller.extractStateNumber ["slide"; "state-3"; "state-11"; "is-active"]%string
  = Some 10 /\
  Controller.extractStateNumber ["slide"; "is-active"; "state-"; "state-x1"]%string
  = None.
Proof.
  split.
  - apply (proj1 (proj2 (extractStateNumber_highest_in_revised_only _)) "state-11"%string 11).
    + cbn. tauto.
    + exists "11"%string. repeat split. discriminate.
    + lia.
    + intros c M Hc (digits & -> & _ & _ & ->).
      cbn in Hc.
      destruct Hc as [Hc | [Hc | [Hc | [Hc | []]]]];
        try discriminate;
        apply (literal_app_inj "state-") in Hc; subst digits;
        vm_compute; discriminate.
  - apply (proj1 (extractStateNumber_highest_in_revised_only _)).
    intros c N Hc (digits & -> & Hne & Hd & _).
    cbn in Hc.
    destruct Hc as [Hc | [Hc | [Hc | [Hc | []]]]];
      try discriminate;
      apply (literal_app_inj "state-") in Hc; subst digits;
      (congruence || discriminate).
Defined.

(** ** [transitionTo] always returns *)

Lemma transitionTo_total (target t0 t1 : Z) (s : Engine.t) :
  exists s', Engine.transitionTo target t0 t1 s = Some s'.
Proof.
  destruct (Engine.isTransitioning s) eqn:Hfl.
  { destruct (transitionTo_rejected_cases target t0 t1 s) as [E | E];
      [auto | |]; rewrite E; eauto. }
  destruct (Z.eq_dec target (Engine.currentIndex s)) as [Heq | Hne].
  { destruct (transitionTo_rejected_cases target t0 t1 s) as [E | E];
      [auto | |]; rewrite E; eauto. }
  destruct (get (Engine.textures s) target) as [texture|] eqn:Htex.
  2: { destruct (transitionTo_rejected_cases target t0 t1 s) as [E | E];
         [auto | |]; rewrite E; eauto. }
  destruct (Engine.material s) as [m|] eqn:Hm.
  2: { exists s. unfold Engine.transitionTo. rewrite Hm.
       cbn [defined negb]. now rewrite orb_true_r. }
  destruct (transitionTo_accepted target t0 t1 s m texture Hfl Hne Hm Htex)
    as (s1 & m1 & E & Hm1 & Hs1 & Ht1 & _).
  rewrite E.
  destruct (animateProgress_outcome s1 m1 t0 target t1 Hm1 Hs1 Ht1)
    as (s' & E' & _).
  eauto.
Qed.

(** ** The scroll lock *)

Lemma lockScroll_locked (c : Controller.t) :
  Controller.scrollLocked c = true -> Controller.lockScroll c = c.
Proof. intros H. unfold Controller.lockScroll. now rewrite H. Qed.

Lemma unlockScroll_unlocked (c : Controller.t) :
  Controller.scrollLocked c = false -> Controller.unlockScroll c = c.
Proof. intros H. unfold Controller.unlockScroll. now rewrite H. Qed.

(** The cleanup of a lock takes its three listeners off. *)
Lemma cleanup_listeners (g : nat) :
  fold_left (fun ls l => Controller.removeEventListener l ls)
    (Controller.lockListeners g) (Controller.lockListeners g) = [].
Proof.
  cbn. unfold Controller.removeEventListener.
  repeat (cbn; rewrite ?Nat.eqb_refl). reflexivity.
Qed.

Lemma wf_constructor (config : Controller.Config) :
  Controller.wf (Controller.constructor config).
Proof.
  unfold Controller.wf; cbn.
  repeat split; try discriminate; auto.
Qed.

Lemma wf_lockScroll (c : Controller.t) :
  Controller.wf c ->
  let c' := Controller.lockScroll c in
  Controller.scrollLocked c' = true /\
  (exists g, Controller.scrollUnlockCleanup c' = Some g /\
             Controller.listeners c' = Controller.lockListeners g) /\
  Controller.timers c' = Controller.timers c /\
  Controller.scrollUnlockTimer c' = Controller.scrollUnlockTimer c /\
  Controller.nextTimer c' = Controller.nextTimer c /\
  Controller.scrollLockDuration c' = Controller.scrollLockDuration c /\
  Controller.engine c' = Controller.engine c /\
  Controller.imageUrls c' = Controller.imageUrls c.
Proof.
  intros (Hl & Hu & Ht & Hid & Hn) c'. subst c'. unfold Controller.lockScroll.
  destruct (Controller.scrollLocked c) eqn:E.
  - split; [exact E|]. split; [exact (Hl eq_refl)|]. now repeat split.
  - rsimpl. split; [reflexivity|]. split.
    + eexists. split; [reflexivity|].
      now rewrite (proj1 (Hu eq_refl)).
    + now repeat split.
Qed.

(** [scheduleScrollUnlock] leaves one pending timer, the new one. *)
Lemma scheduleScrollUnlock_single (now : Z) (c : Controller.t) :
  (Controller.timers c = [] \/
   exists x, Controller.timers c = [x] /\
             Controller.scrollUnlockTimer c = Some (Controller.timerId x)) ->
  (forall id, Controller.scrollUnlockTimer c = Some id ->
              (1 <= id < Controller.nextTimer c)%nat) ->
  let c' := Controller.scheduleScrollUnlock now c in
  Controller.timers c'
  = [Controller.mkTimer (Controller.nextTimer c)
       (now + Controller.scrollLockDuration c)] /\
  Controller.scrollUnlockTimer c' = Some (Controller.nextTimer c) /\
  Controller.nextTimer c' = S (Controller.nextTimer c) /\
  Controller.scrollLocked c' = Controller.scrollLocked c /\
  Controller.scrollUnlockCleanup c' = Controller.scrollUnlockCleanup c /\
  Controller.listeners c' = Controller.listeners c.
Proof.
  intros Ht Hid c'. subst c'. unfold Controller.scheduleScrollUnlock.
  destruct Ht as [Ht | (x & Ht & Hx)].
  - destruct (Controller.truthy_id _);
      [unfold Controller.clearTimeout;
       destruct (Controller.scrollUnlockTimer c)|];
      rsimpl; rewrite Ht; now repeat split.
  - rewrite Hx. destruct (Hid _ Hx) as [Hpos _].
    unfold Controller.truthy_id.
    destruct (Nat.eqb_spec (Controller.timerId x) 0) as [E0 | _]; [lia|].
    rsimpl. rewrite Ht. cbn. rewrite Nat.eqb_refl. cbn.
    now repeat split.
Qed.

(** Firing the one pending timer of a locked controller unlocks it. *)
Lemma fire_unlocks (id : nat) (dueTime now : Z) (c : Controller.t) (g : nat) :
  Controller.scrollLocked c = true ->
  Controller.scrollUnlockCleanup c = Some g ->
  Controller.listeners c = Controller.lockListeners g ->
  Controller.timers c = [Controller.mkTimer id dueTime] ->
  Controller.scrollUnlockTimer c = Some id ->
  (1 <= id)%nat ->
  (dueTime <= now ->
   exists c',
     Controller.fire id now c = Some c' /\
     Controller.scrollLocked c' = false /\
     Controller.listeners c' = [] /\
     Controller.timers c' = [] /\
     Controller.scrollUnlockCleanup c' = None /\
     Controller.scrollUnlockTimer c' = None /\
     Controller.nextTimer c' = Controller.nextTimer c) /\
  (now < dueTime -> Controller.fire id now c = None).
Proof.
  intros Hl Hc Hls Ht Hid Hpos.
  destruct c; cbn in Hl, Hc, Hls, Ht, Hid; subst.
  unfold Controller.fire; cbn. rewrite Nat.eqb_refl. cbn [Controller.due].
  split; intros Hdue.
  - rewrite (proj2 (Z.leb_le _ _) Hdue).
    eexists. split; [reflexivity|].
    unfold Controller.unlockScroll, Controller.clearTimeout,
      Controller.cleanup, Controller.removeEventListener.
    rsimpl. repeat (rewrite ?Nat.eqb_refl; cbn).
    destruct (Nat.eqb_spec id 0) as [E0 | _]; [lia|]. now repeat split.
  - now rewrite (proj2 (Z.leb_gt _ _) Hdue).
Qed.

(** A triggered transition, an engine being there, leaves scrolling locked
    and one timer pending, the new one. *)
Lemma triggerTransition_schedules
    (index t0 t1 t2 : Z) (c : Controller.t) :
  Controller.wf c -> is_Some (Controller.engine c) ->
  exists c' g,
    Controller.triggerTransition index t0 t1 t2 c = Some c' /\
    Controller.wf c' /\
    Controller.scrollLocked c' = true /\
    Controller.scrollUnlockCleanup c' = Some g /\
    Controller.listeners c' = Controller.lockListeners g /\
    Controller.timers c'
    = [Controller.mkTimer (Controller.nextTimer c)
         (t2 + Controller.scrollLockDuration c)] /\
    Controller.scrollUnlockTimer c' = Some (Controller.nextTimer c) /\
    (1 <= Controller.nextTimer c)%nat.
Proof.
  intros Hwf [e He].
  pose proof Hwf as (_ & _ & Ht & Hid & Hn).
  destruct (wf_lockScroll c Hwf)
    as (Hl1 & (g & Hg & Hls) & Ht1 & Hid1 & Hn1 & Hd1 & He1 & _).
  unfold Controller.triggerTransition. rewrite He.
  rewrite He1, He. cbn [mbind option_bind].
  destruct (transitionTo_total
              (Z.max 0 (Z.min index
                 (len (Controller.imageUrls (Controller.lockScroll c)) - 1)))
              t0 t1 e) as (e' & ->).
  cbn [mbind option_bind].
  set (c2 := Controller.lockScroll c <| Controller.engine := Some e' |>).
  destruct (scheduleScrollUnlock_single t2 c2)
    as (Ht3 & Hid3 & Hn3 & Hl3 & Hg3 & Hls3).
  { subst c2; rsimpl. now rewrite Ht1, Hid1. }
  { subst c2; rsimpl. now rewrite Hid1, Hn1. }
  assert (Controller.nextTimer c2 = Controller.nextTimer c) as En
    by (subst c2; rsimpl; exact Hn1).
  assert (Controller.scrollLockDuration c2 = Controller.scrollLockDuration c)
    as Ed by (subst c2; rsimpl; exact Hd1).
  assert (Controller.scrollLocked c2 = true) as El
    by (subst c2; rsimpl; exact Hl1).
  assert (Controller.scrollUnlockCleanup c2 = Some g) as Eg
    by (subst c2; rsimpl; exact Hg).
  assert (Controller.listeners c2 = Controller.lockListeners g) as Els
    by (subst c2; rsimpl; exact Hls).
  rewrite En, Ed in Ht3. rewrite En in Hid3, Hn3.
  rewrite El in Hl3. rewrite Eg in Hg3. rewrite Els in Hls3.
  exists (Controller.scheduleScrollUnlock t2 c2), g.
  split; [reflexivity|]. split; [|now repeat split].
  unfold Controller.wf. rewrite Hl3, Hg3, Hls3, Ht3, Hid3, Hn3.
  split; [intros _; eauto|]. split; [discriminate|].
  split; [right; eexists; split; reflexivity|].
  split; [intros id [= <-]; lia | lia].
Qed.

(** C6: [lockScroll] on a locked controller and [unlockScroll] on an
    unlocked one return the controller as it is (no listener added,
    nothing changed); after every triggered transition (an engine is
    there) the timer table holds exactly one timer, due the configured
    duration after it was started, scrolling is locked, and the host
    firing that timer, which it can from the due time on and not before,
    unlocks scrolling and takes the listeners off without any other call;
    the duration is 1200 ms when none is configured. *)
Theorem scroll_lock_idempotent_with_safety_timer :
  (forall c, Controller.scrollLocked c = true -> Controller.lockScroll c = c) /\
  (forall c,
     Controller.scrollLocked c = false -> Controller.unlockScroll c = c) /\
  (forall c index t0 t1 t2,
     Controller.wf c -> is_Some (Controller.engine c) ->
     exists c' id,
       Controller.triggerTransition index t0 t1 t2 c = Some c' /\
       Controller.wf c' /\
       Controller.scrollLocked c' = true /\
       Controller.timers c'
       = [Controller.mkTimer id (t2 + Controller.scrollLockDuration c)] /\
       (forall now, t2 + Controller.scrollLockDuration c <= now ->
          exists c'',
            Controller.fire id now c' = Some c'' /\
            Controller.wf c'' /\
            Controller.scrollLocked c'' = false /\
            Controller.listeners c'' = [] /\
            Controller.timers c'' = []) /\
       (forall now, now < t2 + Controller.scrollLockDuration c ->
          Controller.fire id now c' = None)) /\
  (forall config,
     Controller.wf (Controller.constructor config) /\
     (Controller.cfg_scrollLockDuration config = None ->
      Controller.scrollLockDuration (Controller.constructor config) = 1200)).
Proof.
  split; [exact lockScroll_locked|].
  split; [exact unlockScroll_unlocked|].
  split.
  - intros c index t0 t1 t2 Hwf He.
    destruct (triggerTransition_schedules index t0 t1 t2 c Hwf He)
      as (c' & g & E & Hwf' & Hl & Hg & Hls & Ht & Hid & Hn).
    exists c', (Controller.nextTimer c).
    repeat (split; [assumption|]).
    pose proof (fun now =>
                  fire_unlocks (Controller.nextTimer c)
                    (t2 + Controller.scrollLockDuration c) now c' g
                    Hl Hg Hls Ht Hid Hn) as Hfire.
    split; intros now Hnow.
    + destruct (Hfire now) as [Hdue _].
      destruct (Hdue Hnow)
        as (c'' & E' & Hl'' & Hls'' & Ht'' & Hg'' & Hid'' & Hn'').
      exists c''. split; [exact E'|]. split; [|now repeat split].
      destruct Hwf' as (_ & _ & _ & _ & Hn').
      unfold Controller.wf. rewrite Hl'', Hls'', Ht'', Hid'', Hn''.
      split; [discriminate|]. split; [auto|]. split; [now left|].
      split; [discriminate | exact Hn'].
    + destruct (Hfire now) as [_ Hearly]. exact (Hearly Hnow).
  - intros config. split; [apply wf_constructor|].
    intros H. cbn. now rewrite H.
Qed.

Lemma scroll_lock_idempotent_with_safety_timer_witness :
  exists c' id,
    Controller.triggerTransition 2 1000 1000 1000 Sample.controller = Some c' /\
    Controller.timers c' = [Controller.mkTimer id 2200] /\
    Controller.lockScroll c' = c' /\
    Controller.fire id 2199 c' = None /\
    exists c'',
      Controller.fire id 2200 c' = Some c'' /\
      Controller.scrollLocked c'' = false /\
      Controller.listeners c'' = [] /\
      Controller.unlockScroll c'' = c''.
Proof.
  destruct scroll_lock_idempotent_with_safety_timer
    as (Hlock & Hunlock & Htrigger & _).
  destruct (Htrigger Sample.controller 2 1000 1000 1000)
    as (c' & id & E & _ & Hl & Ht & Hfire & Hearly).
  - unfold Controller.wf; cbn.
    split; [discriminate|]. split; [auto|]. split; [now left|].
    split; [discriminate | lia].
  - cbn. eauto.
  - exists c', id. split; [exact E|]. split; [exact Ht|].
    split; [exact (Hlock c' Hl)|].
    split; [apply Hearly; cbn; lia|].
    destruct (Hfire 2200) as (c'' & E' & _ & Hl' & Hls' & _); [cbn; lia|].
    exists c''. split; [exact E'|]. split; [exact Hl'|].
    split; [exact Hls' | exact (Hunlock c'' Hl')].
Defined.

(** On the sample: one trigger locks scrolling with three listeners and one
    timer due at 2200; the timer unlocks. *)
Example trigger_then_timer_on_sample :
  (c ← Controller.triggerTransition 2 1000 1000 1000 Sample.controller;
   Some (Controller.scrollLocked c, length (Controller.listeners c),
         Controller.timers c))
  = Some (true, 3%nat, [Controller.mkTimer 1 2200]) /\
  (c ← Controller.triggerTransition 2 1000 1000 1000 Sample.controller;
   c ← Controller.fire 1 2200 c;
   Some (Controller.scrollLocked c, length (Controller.listeners c),
         Controller.timers c))
  = Some (false, 0%nat, []).
Proof. split; vm_compute; reflexivity. Qed.

(** ** Loading a new image sequence *)

Lemma applyInitialImage_trace (index : Z) (s : Engine.t) :
  Engine.trace (Engine.applyInitialImage index s) = Engine.trace s.
Proof.
  unfold Engine.applyInitialImage.
  destruct (Engine.material s); [|reflexivity].
  destruct (negb _); [reflexivity|].
  destruct (get (Engine.displacementTextures s) _); reflexivity.
Qed.

Lemma onTexturesLoaded_trace (s : Engine.t) :
  Engine.trace (Engine.onTexturesLoaded s) = Engine.trace s.
Proof.
  unfold Engine.onTexturesLoaded.
  destruct (_ || _ || _ || _); [reflexivity|].
  destruct (Engine.pendingInitialIndex (Engine.createMaterial s))
    as [pending|]; [|reflexivity].
  change (Engine.trace
            (Engine.applyInitialImage pending (Engine.createMaterial s))
          = Engine.trace (Engine.createMaterial s)).
  apply applyInitialImage_trace.
Qed.

(** A load that succeeds puts nothing in the trace. *)
Lemma setImages_onLoad_trace
    (index : nat) (texture : Engine.Texture) (c : Engine.SetImagesLoad)
    (s : Engine.t) :
  Engine.trace (snd (Engine.setImages_onLoad index texture c s))
  = Engine.trace s.
Proof.
  unfold Engine.setImages_onLoad.
  set (s2 := Engine.storeTexture index texture s).
  assert (Engine.trace s2 = Engine.trace s) as E
    by (subst s2; unfold Engine.storeTexture;
        destruct (Engine.image texture); reflexivity).
  destruct (_ && _); [|exact E].
  destruct (Engine.material s2).
  - destruct (Engine.pendingInitialIndex s2); cbn [snd]; rsimpl;
      [rewrite applyInitialImage_trace|]; exact E.
  - cbn [snd]. now rewrite onTexturesLoaded_trace.
Qed.

(** A load that fails puts one line on the console and changes nothing
    else: the other loads of the batch go on. *)
Lemma setImages_onError_logs
    (index : nat) (c : Engine.SetImagesLoad) (s : Engine.t) :
  Engine.setImages_onError index c s
  = (c, Engine.log
          (Engine.ConsoleError "Failed to load image" (Some (Z.of_nat index)))
          s).
Proof. reflexivity. Qed.

Lemma deliver_invocations
    (f : Engine.Callback) (r : Engine.LoadResult)
    (cs : Engine.SetImagesLoad * Engine.t) :
  Engine.invocations f (Engine.trace (snd (Engine.deliver r cs)))
  = Engine.invocations f (Engine.trace (snd cs)).
Proof.
  destruct r as [index texture | index]; cbn [Engine.deliver].
  - now rewrite setImages_onLoad_trace.
  - reflexivity.
Qed.

Lemma deliverAll_invocations
    (f : Engine.Callback) (results : list Engine.LoadResult)
    (cs : Engine.SetImagesLoad * Engine.t) :
  Engine.invocations f (Engine.trace (snd (Engine.deliverAll results cs)))
  = Engine.invocations f (Engine.trace (snd cs)).
Proof.
  unfold Engine.deliverAll. revert cs.
  induction results as [|r results IH]; intros cs; [reflexivity|].
  cbn [fold_left]. rewrite IH. apply deliver_invocations.
Qed.

Lemma disposeAll_invocations
    (f : Engine.Callback) (a : array Engine.Texture) (s : Engine.t) :
  Engine.invocations f (Engine.trace (Engine.disposeAll a s))
  = Engine.invocations f (Engine.trace s).
Proof.
  unfold Engine.disposeAll. revert s.
  induction a as [|[texture|] a IH]; intros s; cbn [fold_left];
    [reflexivity | rewrite IH; reflexivity | apply IH].
Qed.

Lemma setImages_invocations
    (f : Engine.Callback) (imageUrls : list string)
    (onComplete : option Engine.Callback) (s : Engine.t) :
  Engine.invocations f
    (Engine.trace (snd (Engine.setImages imageUrls onComplete s)))
  = Engine.invocations f (Engine.trace s).
Proof.
  unfold Engine.setImages.
  destruct (len imageUrls =? 0); [reflexivity|].
  cbn [snd]. rsimpl.
  destruct (0 <? len (Engine.textures s)); [|reflexivity].
  apply disposeAll_invocations.
Qed.

(** C2, as the code has it: [setImages] never invokes the completion
    callback it is given, however its loads end.  The claim asks for
    exactly one invocation once every load has ended; on three images
    that all load there is none. *)
Theorem setImages_never_invokes_onComplete :
  (forall (imageUrls : list string) (onComplete : Engine.Callback)
          (results : list Engine.LoadResult) (s : Engine.t),
     Engine.invocations onComplete
       (Engine.trace
          (Engine.setImages_then imageUrls (Some onComplete) results s))
     = Engine.invocations onComplete (Engine.trace s)) /\
  Engine.invocations "done"
    (Engine.trace
       (Engine.setImages_then ["a"; "b"; "c"]%string (Some "done"%string)
          [Engine.Loaded 0 (Sample.picture "a");
           Engine.Loaded 1 (Sample.picture "b");
           Engine.Loaded 2 (Sample.picture "c")]
          Sample.mapped))
  = 0%nat.
Proof.
  split; [|reflexivity].
  intros imageUrls onComplete results s. unfold Engine.setImages_then.
  pose proof (setImages_invocations onComplete imageUrls (Some onComplete) s)
    as H.
  destruct (Engine.setImages imageUrls (Some onComplete) s) as [[c|] s'];
    cbn [snd] in H; [|exact H].
  rewrite deliverAll_invocations. exact H.
Qed.

(** ** A pending initial image *)

(** [applyInitialImage] does nothing for an index whose texture is not
    loaded. *)
Lemma applyInitialImage_missing (index : Z) (s : Engine.t) :
  get (Engine.textures s) index = None -> Engine.applyInitialImage index s = s.
Proof.
  intros H. unfold Engine.applyInitialImage. rewrite H.
  now destruct (Engine.material s).
Qed.

(** [onTexturesLoaded], when it creates the material with a request
    recorded: the request is applied if its texture is there, and cleared
    either way. *)
Lemma onTexturesLoaded_request (s : Engine.t) (pending : Z) :
  Engine.material s = None ->
  is_Some (get (Engine.textures s) 0) ->
  is_Some (get (Engine.textures s) 1) ->
  is_Some (Engine.displacementTexture s) ->
  Engine.pendingInitialIndex s = Some pending ->
  Engine.onTexturesLoaded s
  = (Engine.applyInitialImage pending (Engine.createMaterial s))
      <| Engine.pendingInitialIndex := None |>.
Proof.
  intros Hm [t0 H0] [t1 H1] [d Hd] Hp. unfold Engine.onTexturesLoaded.
  rewrite Hm, H0, H1, Hd. cbn [defined negb orb].
  change (Engine.pendingInitialIndex (Engine.createMaterial s))
    with (Engine.pendingInitialIndex s).
  now rewrite Hp.
Qed.

Lemma applyInitialImage_applied
    (s : Engine.t) (m : Engine.Uniforms) (pending : Z)
    (texture : Engine.Texture) :
  Engine.material s = Some m ->
  get (Engine.textures s) pending = Some texture ->
  Spec.appliedFrom s
    ((Engine.applyInitialImage pending s) <| Engine.pendingInitialIndex := None |>)
    pending.
Proof.
  intros Hm Htex.
  destruct (applyInitialImage_ready pending s m texture Hm Htex)
    as (m' & Em & Hc & H1 & _ & Hp & Hfl & Hfr & _).
  exists m'. rsimpl. repeat (split; [assumption || reflexivity|]). assumption.
Qed.

(** The load callback of [setImages] that finds two loads of its batch
    done, a displacement texture and, when the material is still to be
    created, the textures 0 and 1: a recorded request is applied if its
    texture is there, and cleared either way. *)
Lemma setImages_onLoad_request
    (s : Engine.t) (pending : Z) (index : nat) (texture : Engine.Texture)
    (c : Engine.SetImagesLoad) :
  let s1 := Engine.storeTexture index texture s in
  Engine.pendingInitialIndex s = Some pending ->
  is_Some (Engine.displacementTexture s) ->
  (1 <= Engine.loadedImageCount c)%nat ->
  (Engine.material s = None ->
   is_Some (get (Engine.textures s1) 0) /\ is_Some (get (Engine.textures s1) 1)) ->
  snd (Engine.setImages_onLoad index texture c s)
  = (Engine.applyInitialImage pending
       (match Engine.material s with
        | Some _ => s1
        | None => Engine.createMaterial s1
        end))
      <| Engine.pendingInitialIndex := None |>.
Proof.
  intros s1 Hp Hd Hc H01. unfold Engine.setImages_onLoad. fold s1.
  assert (Engine.pendingInitialIndex s1 = Some pending
          /\ Engine.displacementTexture s1 = Engine.displacementTexture s
          /\ Engine.material s1 = Engine.material s) as (Hp1 & Hd1 & Hm1).
  { subst s1. unfold Engine.storeTexture.
    destruct (Engine.image texture); rsimpl; auto. }
  cbn [Engine.loadedImageCount].
  destruct (Nat.leb_spec 2 (S (Engine.loadedImageCount c))) as [_ | Hlt];
    [|lia].
  rewrite Hd1. destruct Hd as [d Hd]. rewrite Hd. cbn [defined andb].
  rewrite Hm1.
  destruct (Engine.material s) as [m|] eqn:Hm.
  - rewrite Hp1. reflexivity.
  - cbn [snd]. destruct (H01 eq_refl) as [H0 H1].
    apply onTexturesLoaded_request; auto.
    rewrite Hd1, Hd. eauto.
Qed.

Lemma setInitialImage_ready
    (i : Z) (s : Engine.t) (m : Engine.Uniforms) (texture : Engine.Texture) :
  Engine.material s = Some m ->
  get (Engine.textures s) (Engine.clampIndex i s) = Some texture ->
  Engine.setInitialImage i s
  = Engine.applyInitialImage (Engine.clampIndex i s)
      (s <| Engine.currentIndex := Engine.clampIndex i s |>).
Proof.
  intros Hm Htex. unfold Engine.setInitialImage.
  assert ((defined (Engine.material
                      (s <| Engine.currentIndex := Engine.clampIndex i s |>))
           && (0 <? len (Engine.textures
                           (s <| Engine.currentIndex := Engine.clampIndex i s |>)))
           && defined (get (Engine.textures
                              (s <| Engine.currentIndex := Engine.clampIndex i s |>))
                         (Engine.clampIndex i s))) = true) as ->;
    [|reflexivity].
  rsimpl. rewrite Hm, Htex. cbn [defined andb]. rewrite andb_true_r.
  apply Z.ltb_lt. apply get_Some_bounds in Htex. unfold len in *. lia.
Qed.

(** A call of [setInitialImage] made while a request is recorded is not
    recorded.  Seven images are being loaded, no material yet; index 3 is
    asked for, then index 5.  The recorded request stays 3, and once the
    textures 3, 5, 0 and 1 are loaded it is index 3 that is applied, the
    texture of index 5 being there. *)
Lemma setInitialImage_later_request_not_recorded :
  let s1 := Engine.setInitialImage 3 Sample.awaiting in
  let s2 := Engine.setInitialImage 5 s1 in
  let s3 :=
    snd (Engine.deliverAll
           [Engine.Loaded 3 (Sample.picture "d");
            Engine.Loaded 5 (Sample.picture "f");
            Engine.Loaded 0 (Sample.picture "a");
            Engine.Loaded 1 (Sample.picture "b")]
           (Sample.awaitingLoad, s2)) in
  Engine.material s1 = None /\
  Engine.pendingInitialIndex s1 = Some 3 /\
  Engine.pendingInitialIndex s2 <> Some 5 /\
  Engine.pendingInitialIndex s2 = Some 3 /\
  get (Engine.textures s3) 5 = Some (Sample.picture "f") /\
  Engine.currentIndex s3 = 3 /\
  (Engine.texture1 <$> Engine.material s3) = Some (Some (Sample.picture "d")).
Proof.
  cbv zeta.
  split; [reflexivity|]. split; [reflexivity|].
  split; [vm_compute; discriminate|].
  repeat (split; [vm_compute; reflexivity|]). vm_compute; reflexivity.
Qed.

(** C9 fails on the code: a recorded request is lost when the load
    callback that may apply it runs before the texture of the request is
    loaded.  Seven images are being loaded, the displacement map is there,
    no material yet; index 3 is asked for, and the seven loads then end in
    the order of the indices.  The callback of image 1 creates the material
    and clears the request, texture 3 not being loaded; the callback of
    image 3 finds no request.  At the end all seven textures are loaded,
    [getCurrentIndex()] answers 3, the pair shown is that of the images 0
    and 1, and a transition to 3 is refused as a transition to the current
    index. *)
Lemma setInitialImage_request_lost :
  let s1 := Engine.setInitialImage 3 Sample.awaiting in
  let after results := snd (Engine.deliverAll results (Sample.awaitingLoad, s1)) in
  let first2 :=
    [Engine.Loaded 0 (Sample.picture "a"); Engine.Loaded 1 (Sample.picture "b")] in
  let all7 :=
    first2 ++
    [Engine.Loaded 2 (Sample.picture "c"); Engine.Loaded 3 (Sample.picture "d");
     Engine.Loaded 4 (Sample.picture "e"); Engine.Loaded 5 (Sample.picture "f");
     Engine.Loaded 6 (Sample.picture "g")] in
  Engine.material s1 = None /\
  Engine.pendingInitialIndex s1 = Some 3 /\
  Engine.pendingInitialIndex (after first2) = None /\
  get (Engine.textures (after all7)) 3 = Some (Sample.picture "d") /\
  Engine.pendingInitialIndex (after all7) = None /\
  Engine.getCurrentIndex (after all7) = 3 /\
  (Engine.texture1 <$> Engine.material (after all7))
  = Some (Some (Sample.picture "a")) /\
  (Engine.texture2 <$> Engine.material (after all7))
  = Some (Some (Sample.picture "b")) /\
  Engine.transitionTo 3 0 0 (after all7) = Some (after all7).
Proof.
  cbv zeta.
  do 8 (split; [vm_compute; reflexivity|]). vm_compute; reflexivity.
Qed.

(** C9, as the code has it.  [setInitialImage(i)] makes the clamped index
    [max(0, min(i, length - 1))] the current one.  When the material and
    the texture of the clamped index are there, that texture is bound as
    the first of the pair, the progress is set to 0 and no animation
    starts; the texture of [min(clamped + 1, last index)] is bound as the
    second of the pair when it is loaded, and the second stays as it was
    otherwise.  When they are not there, only the index and the recorded
    request change: the clamped index is recorded, unless a request other
    than 0 is recorded already, which stays.  The load callback of
    [setImages] that finds two loads of its batch done and a displacement
    texture (and, when it has to create the material, the textures 0 and 1)
    clears the recorded request; it applies it when the texture of the
    request is loaded, and binds nothing of it otherwise, so that this
    request is lost.  So does [onTexturesLoaded] when a load of the
    constructor makes it create the material. *)
Theorem setInitialImage_clamps_applies_or_records (i : Z) (s : Engine.t) :
  let last := len (Engine.images s) - 1 in
  let safeIndex := Z.max 0 (Z.min i last) in
  let nextIndex := Z.min (safeIndex + 1) last in
  let s' := Engine.setInitialImage i s in
  Engine.currentIndex s' = safeIndex /\
  (forall m texture,
     Engine.material s = Some m ->
     get (Engine.textures s) safeIndex = Some texture ->
     exists m',
       Engine.material s' = Some m' /\
       Engine.texture1 m' = Some texture /\
       Engine.texture2 m'
       = match get (Engine.textures s) nextIndex with
         | Some next => Some next
         | None => Engine.texture2 m
         end /\
       Engine.progress m' = 0%float /\
       Engine.isTransitioning s' = Engine.isTransitioning s /\
       Engine.frames s' = Engine.frames s /\
       Engine.pendingInitialIndex s' = Engine.pendingInitialIndex s) /\
  (Engine.material s = None \/ get (Engine.textures s) safeIndex = None ->
   s' = s <| Engine.currentIndex := safeIndex |>
          <| Engine.pendingInitialIndex :=
               match Engine.pendingInitialIndex s with
               | Some p => if p =? 0 then Some safeIndex else Some p
               | None => Some safeIndex
               end |>) /\
  (forall (e : Engine.t) (pending : Z) (index : nat)
          (texture : Engine.Texture) (c : Engine.SetImagesLoad),
     let e1 := Engine.storeTexture index texture e in
     let e' := snd (Engine.setImages_onLoad index texture c e) in
     Engine.pendingInitialIndex e = Some pending ->
     is_Some (Engine.displacementTexture e) ->
     (1 <= Engine.loadedImageCount c)%nat ->
     (Engine.material e = None ->
      is_Some (get (Engine.textures e1) 0) /\
      is_Some (get (Engine.textures e1) 1)) ->
     Engine.pendingInitialIndex e' = None /\
     (is_Some (get (Engine.textures e1) pending) ->
      Spec.appliedFrom
        (match Engine.material e with
         | Some _ => e1
         | None => Engine.createMaterial e1
         end) e' pending) /\
     (get (Engine.textures e1) pending = None ->
      e' = (match Engine.material e with
            | Some _ => e1
            | None => Engine.createMaterial e1
            end) <| Engine.pendingInitialIndex := None |>)) /\
  (forall (e : Engine.t) (pending : Z),
     Engine.pendingInitialIndex e = Some pending ->
     Engine.material e = None ->
     is_Some (get (Engine.textures e) 0) ->
     is_Some (get (Engine.textures e) 1) ->
     is_Some (Engine.displacementTexture e) ->
     (is_Some (get (Engine.textures e) pending) ->
      Spec.appliedFrom (Engine.createMaterial e) (Engine.onTexturesLoaded e)
        pending) /\
     (get (Engine.textures e) pending = None ->
      Engine.onTexturesLoaded e
      = (Engine.createMaterial e) <| Engine.pendingInitialIndex := None |>)).
Proof.
  intros last safeIndex nextIndex s'.
  split; [apply setInitialImage_currentIndex|].
  split; [|split; [|split]].
  - intros m texture Hm Htex. subst s'.
    rewrite (setInitialImage_ready i s m texture Hm Htex).
    change (Engine.clampIndex i s) with safeIndex.
    pose proof (applyInitialImage_ready safeIndex
                  (s <| Engine.currentIndex := safeIndex |>) m texture) as H.
    destruct (H Hm Htex)
      as (m' & Em & _ & H1 & H2 & Hp & Hfl & Hfr & _ & _ & _ & Hpend).
    assert (Engine.clampIndex safeIndex (s <| Engine.currentIndex := safeIndex |>)
            = safeIndex) as Eidem
      by (unfold Engine.clampIndex; rsimpl; subst safeIndex last; lia).
    rewrite Eidem in H1, H2.
    exists m'. split; [exact Em|]. split; [now rewrite H1|].
    split; [exact H2|]. now repeat split.
  - intros Hnot. subst s'. rewrite (setInitialImage_not_ready i s Hnot).
    change (Engine.clampIndex i s) with safeIndex.
    destruct (Engine.pendingInitialIndex s) as [p|]; cbn [truthy_number];
      [destruct (p =? 0)|]; reflexivity.
  - intros e pending index texture c e1 e' Hp Hd Hc H01.
    assert (e' = (Engine.applyInitialImage pending
                    (match Engine.material e with
                     | Some _ => e1
                     | None => Engine.createMaterial e1
                     end))
                   <| Engine.pendingInitialIndex := None |>) as E
      by (now apply setImages_onLoad_request).
    split; [rewrite E; reflexivity|]. split.
    + intros [tx Htex]. rewrite E.
      assert (Engine.material e1 = Engine.material e) as Hm1.
      { subst e1. unfold Engine.storeTexture.
        destruct (Engine.image texture); reflexivity. }
      destruct (Engine.material e) as [m|] eqn:Hm.
      * exact (applyInitialImage_applied e1 m pending tx Hm1 Htex).
      * exact (applyInitialImage_applied (Engine.createMaterial e1) _ pending tx
                 eq_refl Htex).
    + intros Hnone. rewrite E. f_equal.
      apply applyInitialImage_missing.
      now destruct (Engine.material e).
  - intros e pending Hp Hm H0 H1 Hd.
    rewrite (onTexturesLoaded_request e pending Hm H0 H1 Hd Hp). split.
    + intros [tx Htex].
      exact (applyInitialImage_applied (Engine.createMaterial e) _ pending tx
               eq_refl Htex).
    + intros Hnone. f_equal. now apply applyInitialImage_missing.
Qed.

Lemma setInitialImage_clamps_applies_or_records_witness :
  (exists m',
     Engine.material (Engine.setInitialImage 1 Sample.ready) = Some m' /\
     Engine.texture1 m' = Some (Sample.picture "b") /\
     Engine.texture2 m' = Some (Sample.picture "c") /\
     Engine.progress m' = 0%float) /\
  Engine.pendingInitialIndex (Engine.setInitialImage 3 Sample.awaiting)
  = Some 3 /\
  Engine.pendingInitialIndex (Engine.setInitialImage 5 Sample.requested)
  = Some 3 /\
  Spec.appliedFrom
    (Engine.createMaterial
       (Engine.storeTexture 1 (Sample.picture "b") (snd Sample.partlyLoaded)))
    (snd (Engine.setImages_onLoad 1 (Sample.picture "b")
            (fst Sample.partlyLoaded) (snd Sample.partlyLoaded)))
    3 /\
  Engine.pendingInitialIndex
    (snd (Engine.setImages_onLoad 1 (Sample.picture "b")
            (fst Sample.firstLoaded) (snd Sample.firstLoaded)))
  = None /\
  Engine.currentIndex
    (snd (Engine.setImages_onLoad 1 (Sample.picture "b")
            (fst Sample.firstLoaded) (snd Sample.firstLoaded)))
  = 3 /\
  (Engine.texture1 <$>
     Engine.material
       (snd (Engine.setImages_onLoad 1 (Sample.picture "b")
               (fst Sample.firstLoaded) (snd Sample.firstLoaded))))
  = Some (Some (Sample.picture "a")) /\
  Engine.pendingInitialIndex
    (Engine.onTexturesLoaded
       (Engine.storeTexture 1 (Sample.picture "b") (snd Sample.firstLoaded)))
  = None.
Proof.
  split; [|split; [|split]].
  - destruct (setInitialImage_clamps_applies_or_records 1 Sample.ready)
      as (_ & Hready & _).
    edestruct Hready as (m' & Em & H1 & H2 & Hp & _);
      [vm_compute; reflexivity | vm_compute; reflexivity |].
    exists m'. repeat split; assumption.
  - destruct (setInitialImage_clamps_applies_or_records 3 Sample.awaiting)
      as (_ & _ & Hnot & _).
    rewrite Hnot; [reflexivity | left; reflexivity].
  - destruct (setInitialImage_clamps_applies_or_records 5 Sample.requested)
      as (_ & _ & Hnot & _).
    rewrite Hnot; [reflexivity | left; reflexivity].
  - destruct (setInitialImage_clamps_applies_or_records 0 Sample.ready)
      as (_ & _ & _ & Hlazy & Hcreate).
    split.
    + destruct (Hlazy (snd Sample.partlyLoaded) 3 1%nat (Sample.picture "b")
                  (fst Sample.partlyLoaded)) as (_ & Happlied & _);
        [reflexivity | vm_compute; eauto | vm_compute; lia
        | intros _; split; vm_compute; eauto |].
      apply Happlied. vm_compute. eauto.
    + destruct (Hlazy (snd Sample.firstLoaded) 3 1%nat (Sample.picture "b")
                  (fst Sample.firstLoaded)) as (Hcleared & _ & Hlost);
        [reflexivity | vm_compute; eauto | vm_compute; lia
        | intros _; split; vm_compute; eauto |].
      split; [exact Hcleared|].
      rewrite Hlost by reflexivity.
      split; [vm_compute; reflexivity|]. split; [vm_compute; reflexivity|].
      destruct (Hcreate
                  (Engine.storeTexture 1 (Sample.picture "b")
                     (snd Sample.firstLoaded)) 3) as (_ & Hlost0);
        [reflexivity | reflexivity | vm_compute; eauto | vm_compute; eauto
        | vm_compute; eauto |].
      rewrite Hlost0 by reflexivity. reflexivity.
Defined.

(** ** The controller stays well formed *)

Lemma wf_unlockScroll (c : Controller.t) :
  Controller.wf c ->
  Controller.wf (Controller.unlockScroll c) /\
  Controller.scrollLocked (Controller.unlockScroll c) = false.
Proof.
  intros (Hl & Hu & Ht & Hid & Hn).
  destruct (Controller.scrollLocked c) eqn:Elock.
  2: { rewrite (unlockScroll_unlocked c Elock). split; [|exact Elock].
       unfold Controller.wf. rewrite Elock. auto. }
  destruct (Hl eq_refl) as (g & Hg & Hls).
  unfold Controller.unlockScroll. rewrite Elock, Hg. cbn [negb].
  unfold Controller.cleanup, Controller.clearTimeout, Controller.wf,
    Controller.removeEventListener.
  destruct c; cbn in *; subst.
  repeat (cbn; rewrite ?Nat.eqb_refl).
  destruct Ht as [-> | (x & -> & ->)].
  - destruct scrollUnlockTimer as [id|]; cbn.
    + destruct (Hid id eq_refl) as [Hpos _].
      destruct (Nat.eqb_spec id 0) as [E0 | _]; [lia|]. cbn.
      split; [|reflexivity].
      split; [discriminate|]. split; [auto|]. split; [now left|].
      split; [discriminate | assumption].
    + split; [|reflexivity].
      split; [discriminate|]. split; [auto|]. split; [now left|].
      split; [discriminate | assumption].
  - cbn. destruct (Hid _ eq_refl) as [Hpos _].
    destruct (Nat.eqb_spec (Controller.timerId x) 0) as [E0 | _]; [lia|].
    cbn. rewrite Nat.eqb_refl. cbn.
    split; [|reflexivity].
    split; [discriminate|]. split; [auto|]. split; [now left|].
    split; [discriminate | assumption].
Qed.

Lemma wf_fire (id : nat) (now : Z) (c c' : Controller.t) :
  Controller.wf c -> Controller.fire id now c = Some c' ->
  Controller.wf c' /\ Controller.scrollLocked c' = false /\
  Controller.timers c' = [].
Proof.
  intros Hwf E. unfold Controller.fire in E.
  destruct (List.find _ (Controller.timers c)) as [x|] eqn:Hfind;
    [|discriminate].
  destruct (Controller.due x <=? now); [|discriminate].
  injection E as <-.
  pose proof Hwf as (Hl & Hu & Ht & Hid & Hn).
  destruct Ht as [Ht | (y & Ht & Hy)]; [rewrite Ht in Hfind; discriminate|].
  rewrite Ht in Hfind. cbn in Hfind.
  destruct (Nat.eqb_spec (Controller.timerId y) id) as [<- | Hne];
    [|discriminate].
  assert (Controller.wf (Controller.clearTimeout (Some (Controller.timerId y)) c)
          /\ Controller.timers
               (Controller.clearTimeout (Some (Controller.timerId y)) c) = [])
    as (Hwf1 & Ht1).
  { unfold Controller.clearTimeout, Controller.wf. rsimpl.
    rewrite Ht. cbn. rewrite Nat.eqb_refl. cbn.
    split; [|reflexivity]. split; [exact Hl|]. split.
    - intros H. split; [exact (proj1 (Hu H)) | reflexivity].
    - split; [now left | now split]. }
  destruct (wf_unlockScroll _ Hwf1) as (Hwf2 & Hl2).
  split; [exact Hwf2|]. split; [exact Hl2|].
  destruct Hwf2 as (_ & Hu2 & _). exact (proj2 (Hu2 Hl2)).
Qed.

(** X6: every modelled method and host event keeps the controller well
    formed; in a well-formed controller scrolling is locked exactly while
    the three listeners are installed, and at most one timer is pending. *)
Theorem wf_preserved :
  (forall config, Controller.wf (Controller.constructor config)) /\
  (forall c, Controller.wf c -> Controller.wf (Controller.lockScroll c)) /\
  (forall c, Controller.wf c -> Controller.wf (Controller.unlockScroll c)) /\
  (forall index t0 t1 t2 c c',
     Controller.wf c ->
     Controller.triggerTransition index t0 t1 t2 c = Some c' ->
     Controller.wf c') /\
  (forall classList t0 t1 t2 c c',
     Controller.wf c ->
     Controller.handleClassChange classList t0 t1 t2 c = Some c' ->
     Controller.wf c') /\
  (forall id now c c',
     Controller.wf c -> Controller.fire id now c = Some c' ->
     Controller.wf c') /\
  (forall c, Controller.wf c ->
     (length (Controller.timers c) <= 1)%nat /\
     (Controller.scrollLocked c = false -> Controller.listeners c = []) /\
     (Controller.scrollLocked c = true ->
      length (Controller.listeners c) = 3%nat)).
Proof.
  assert (forall c, Controller.wf c -> Controller.wf (Controller.lockScroll c))
    as Hlock.
  { intros c Hwf. pose proof Hwf as (_ & _ & Ht & Hid & Hn).
    destruct (wf_lockScroll c Hwf)
      as (Hl1 & Hg & Ht1 & Hid1 & Hn1 & _).
    unfold Controller.wf. rewrite Hl1, Ht1, Hid1, Hn1.
    split; [intros _; exact Hg|]. split; [discriminate|]. auto. }
  assert (forall index t0 t1 t2 c c',
            Controller.wf c ->
            Controller.triggerTransition index t0 t1 t2 c = Some c' ->
            Controller.wf c') as Htrigger.
  { intros index t0 t1 t2 c c' Hwf E.
    destruct (Controller.engine c) as [e|] eqn:He.
    - destruct (triggerTransition_schedules index t0 t1 t2 c Hwf)
        as (c1 & g & E1 & Hwf1 & _); [eauto|].
      congruence.
    - unfold Controller.triggerTransition in E. rewrite He in E.
      injection E as <-. exact Hwf. }
  split; [exact wf_constructor|]. split; [exact Hlock|].
  split; [intros c Hwf; exact (proj1 (wf_unlockScroll c Hwf))|].
  split; [exact Htrigger|]. split; [|split].
  - intros classList t0 t1 t2 c c' Hwf E.
    unfold Controller.handleClassChange in E.
    destruct (Controller.isInitializing c); [congruence|].
    destruct (Controller.extractStateNumber classList) as [n|]; [|congruence].
    destruct (bool_decide _); [congruence|].
    eapply Htrigger; [|exact E]. exact Hwf.
  - intros id now c c' Hwf E. exact (proj1 (wf_fire id now c c' Hwf E)).
  - intros c (Hl & Hu & Ht & _). split; [|split].
    + destruct Ht as [-> | (x & -> & _)]; cbn; lia.
    + intros H. exact (proj1 (Hu H)).
    + intros H. destruct (Hl H) as (g & _ & ->). reflexivity.
Qed.

(** * Further properties *)

(** ** The image-change callback *)

Lemma animateProgress_trace (now : Z) (s s' : Engine.t) :
  Engine.animateProgress now s = Some s' -> Engine.trace s' = Engine.trace s.
Proof.
  unfold Engine.animateProgress.
  destruct (Engine.startTime s); [|discriminate].
  destruct (Engine.material s); [|discriminate].
  cbn [mbind option_bind].
  destruct (PrimFloat.ltb _ 1); [intros [= <-]; reflexivity|].
  rsimpl. destruct (Engine.targetIndex s); [|discriminate].
  intros [= <-]. reflexivity.
Qed.

Lemma run_frames_trace (times : list Z) (s s' : Engine.t) :
  Engine.run_frames times s = Some s' -> Engine.trace s' = Engine.trace s.
Proof.
  revert s. induction times as [|now times IH]; intros s; cbn.
  - now intros [= <-].
  - unfold Engine.frame.
    destruct (Engine.frames s) as [|n] eqn:Hf; cbn [mbind option_bind].
    + apply IH.
    + destruct (Engine.animateProgress now (s <| Engine.frames := n |>))
        as [s1|] eqn:E; [|discriminate].
      cbn [mbind option_bind]. intros H. rewrite (IH _ H).
      now rewrite (animateProgress_trace _ _ _ E).
Qed.

(** X5: an accepted [transitionTo] invokes the [onImageChange] callback
    once, with the target index, at the start of the transition; the frames
    that follow, the one that commits the target included, invoke nothing
    and write nothing on the console. *)
Theorem onImageChange_once_per_transition
    (target t0 t1 : Z) (times : list Z) (s : Engine.t) (f : Engine.Callback)
    (texture : Engine.Texture) :
  Engine.isTransitioning s = false ->
  Engine.frames s = 0%nat ->
  target <> Engine.currentIndex s ->
  is_Some (Engine.material s) ->
  get (Engine.textures s) target = Some texture ->
  Engine.onImageChange s = Some f ->
  exists s' s'',
    Engine.transitionTo target t0 t1 s = Some s' /\
    Engine.run_frames times s' = Some s'' /\
    Engine.trace s' = Engine.Invoke f target :: Engine.trace s /\
    Engine.trace s'' = Engine.Invoke f target :: Engine.trace s.
Proof.
  intros Hidle Hfr Hne [m Hm] Htex Hcb.
  destruct (transitionTo_then_frames target t0 t1 times s Hidle Hfr)
    as (s' & s'' & E & E' & _).
  exists s', s''. split; [exact E|]. split; [exact E'|].
  destruct (transitionTo_accepted target t0 t1 s m texture Hidle Hne Hm Htex)
    as (s1 & m1 & E1 & _ & _ & _ & _ & _ & _ & _ & _ & _ & _ & _ & _ & Htr & _).
  rewrite Hcb in Htr. rewrite E1 in E.
  apply animateProgress_trace in E. apply run_frames_trace in E'.
  split; congruence.
Qed.

Lemma onImageChange_once_per_transition_witness :
  exists s' s'',
    Engine.transitionTo 2 1000 1000 Sample.ready = Some s' /\
    Engine.run_frames [1600; 2200; 2800] s' = Some s'' /\
    Engine.trace s' = Engine.Invoke "changed" 2 :: Engine.trace Sample.ready /\
    Engine.trace s'' = Engine.Invoke "changed" 2 :: Engine.trace Sample.ready.
Proof.
  apply (onImageChange_once_per_transition 2 1000 1000 [1600; 2200; 2800]
           Sample.ready "changed" (Sample.picture "c")).
  - vm_compute. reflexivity.
  - vm_compute. reflexivity.
  - vm_compute. discriminate.
  - eexists. vm_compute. reflexivity.
  - vm_compute. reflexivity.
  - vm_compute. reflexivity.
Defined.

(** ** Sample runs of three earlier theorems *)

Lemma transitionTo_completes_witness :
  exists s' s'',
    Engine.transitionTo 2 1000 1000 Sample.ready = Some s' /\
    Engine.run_frames [1600; 2200] s' = Some s'' /\
    Spec.atRest s'' 2.
Proof.
  destruct (transitionTo_completes 2 1000 1000 [1600; 2200] Sample.ready
              (Sample.picture "c"))
    as (s' & s'' & E & E' & Hdone & _).
  - vm_compute. reflexivity.
  - vm_compute. reflexivity.
  - vm_compute. discriminate.
  - eexists. vm_compute. reflexivity.
  - vm_compute. reflexivity.
  - exists s', s''. split; [exact E|]. split; [exact E'|].
    apply Hdone. apply Exists_cons_tl, Exists_cons_tl, Exists_cons_hd.
    vm_compute. reflexivity.
Defined.

Lemma disciplined_preserved_witness :
  Spec.disciplined Sample.started /\ Spec.disciplined Sample.atLast.
Proof.
  destruct disciplined_preserved as (_ & Htransition & Hframe & _).
  assert (Spec.disciplined Sample.started) as H1.
  { apply (Htransition 2 1000 1000 Sample.ready Sample.started).
    - vm_compute. reflexivity.
    - vm_compute. reflexivity. }
  split; [exact H1|].
  apply (Hframe 2200 (default Sample.started (Engine.frame 1600 Sample.started))
           Sample.atLast).
  - apply (Hframe 1600 Sample.started); [exact H1|].
    vm_compute. reflexivity.
  - vm_compute. reflexivity.
Defined.

Lemma wf_preserved_witness :
  exists c',
    Controller.handleClassChange ["slide"; "state-3"]%string 1000 1000 1000
      Sample.controller = Some c' /\
    Controller.wf c' /\
    (length (Controller.timers c') <= 1)%nat.
Proof.
  destruct wf_preserved as (_ & _ & _ & _ & Hchange & _ & Hshape).
  destruct (Controller.handleClassChange ["slide"; "state-3"]%string
              1000 1000 1000 Sample.controller) as [c'|] eqn:E;
    [|vm_compute in E; discriminate].
  exists c'. split; [reflexivity|].
  assert (Controller.wf c') as Hwf.
  { eapply Hchange; [|exact E].
    unfold Controller.wf; cbn.
    split; [discriminate|]. split; [auto|]. split; [now left|].
    split; [discriminate | lia]. }
  split; [exact Hwf | exact (proj1 (Hshape c' Hwf))].
Defined.

(** ** Class changes the engine does not follow *)

Lemma lockScroll_keeps (c : Controller.t) :
  Controller.engine (Controller.lockScroll c) = Controller.engine c /\
  Controller.currentState (Controller.lockScroll c) = Controller.currentState c /\
  Controller.isInitializing (Controller.lockScroll c)
  = Controller.isInitializing c /\
  Controller.imageUrls (Controller.lockScroll c) = Controller.imageUrls c /\
  Controller.scrollLockDuration (Controller.lockScroll c)
  = Controller.scrollLockDuration c /\
  Controller.scrollLocked (Controller.lockScroll c) = true.
Proof.
  unfold Controller.lockScroll.
  destruct (Controller.scrollLocked c) eqn:E; now repeat split.
Qed.

Lemma scheduleScrollUnlock_keeps (now : Z) (c : Controller.t) :
  Controller.engine (Controller.scheduleScrollUnlock now c)
  = Controller.engine c /\
  Controller.currentState (Controller.scheduleScrollUnlock now c)
  = Controller.currentState c /\
  Controller.isInitializing (Controller.scheduleScrollUnlock now c)
  = Controller.isInitializing c /\
  Controller.imageUrls (Controller.scheduleScrollUnlock now c)
  = Controller.imageUrls c /\
  Controller.scrollLockDuration (Controller.scheduleScrollUnlock now c)
  = Controller.scrollLockDuration c /\
  Controller.scrollLocked (Controller.scheduleScrollUnlock now c)
  = Controller.scrollLocked c.
Proof.
  unfold Controller.scheduleScrollUnlock, Controller.clearTimeout.
  destruct (Controller.truthy_id _);
    [destruct (Controller.scrollUnlockTimer c)|]; now repeat split.
Qed.

(** X7: a class change that arrives while the engine is in a transition is
    lost: the controller records the new state and locks scrolling, the
    engine is left as it is (its transition goes on to its own target), and
    the same class list seen again later changes nothing, since the state
    it names is the recorded one. *)
Theorem handleClassChange_lost_during_transition
    (classList : list string) (n t0 t1 t2 t0' t1' t2' : Z)
    (c : Controller.t) (e : Engine.t) :
  Controller.isInitializing c = false ->
  Controller.engine c = Some e ->
  Engine.isTransitioning e = true ->
  Controller.extractStateNumber classList = Some n ->
  Controller.currentState c <> Some n ->
  exists c',
    Controller.handleClassChange classList t0 t1 t2 c = Some c' /\
    Controller.currentState c' = Some n /\
    Controller.engine c' = Some e /\
    Controller.scrollLocked c' = true /\
    Controller.handleClassChange classList t0' t1' t2' c' = Some c'.
Proof.
  intros Hinit He Hfl Hext Hne.
  unfold Controller.handleClassChange at 1. rewrite Hinit, Hext.
  rewrite bool_decide_eq_false_2 by exact Hne.
  set (c1 := c <| Controller.currentState := Some n |>).
  unfold Controller.triggerTransition.
  change (Controller.engine c1) with (Controller.engine c). rewrite He.
  destruct (lockScroll_keeps c1) as (E1 & E2 & E3 & E4 & E5 & E6).
  rewrite E1. change (Controller.engine c1) with (Controller.engine c).
  rewrite He. cbn [mbind option_bind].
  assert (forall target, Engine.transitionTo target t0 t1 e = Some e) as ->
    by (intros target; unfold Engine.transitionTo; now rewrite Hfl).
  cbn [mbind option_bind].
  set (c2 := Controller.lockScroll c1 <| Controller.engine := Some e |>).
  destruct (scheduleScrollUnlock_keeps t2 c2) as (F1 & F2 & F3 & F4 & F5 & F6).
  eexists. split; [reflexivity|].
  split; [rewrite F2; exact E2|].
  split; [rewrite F1; reflexivity|].
  split; [rewrite F6; exact E6|].
  unfold Controller.handleClassChange. rewrite F3.
  change (Controller.isInitializing c2)
    with (Controller.isInitializing (Controller.lockScroll c1)).
  rewrite E3. change (Controller.isInitializing c1)
    with (Controller.isInitializing c).
  rewrite Hinit, Hext, F2.
  change (Controller.currentState c2)
    with (Controller.currentState (Controller.lockScroll c1)).
  rewrite E2. change (Controller.currentState c1) with (Some n).
  now rewrite bool_decide_eq_true_2.
Qed.

Lemma handleClassChange_lost_during_transition_witness :
  exists c',
    Controller.handleClassChange ["state-2"]%string 1300 1300 1300
      (Sample.controller <| Controller.engine := Some Sample.started |>)
    = Some c' /\
    Controller.currentState c' = Some 1 /\
    Controller.engine c' = Some Sample.started /\
    Controller.scrollLocked c' = true /\
    Controller.handleClassChange ["state-2"]%string 3000 3000 3000 c' = Some c'.
Proof.
  apply (handleClassChange_lost_during_transition ["state-2"]%string 1
           1300 1300 1300 3000 3000 3000
           (Sample.controller <| Controller.engine := Some Sample.started |>)
           Sample.started).
  - reflexivity.
  - reflexivity.
  - vm_compute. reflexivity.
  - vm_compute. reflexivity.
  - vm_compute. discriminate.
Defined.

(** ** A second trigger before the timer fires *)

(** X8: when a transition is triggered again before the unlock timer of the
    first trigger has fired, the first timer is cancelled and one new timer
    is pending, due the configured duration after the second trigger; the
    three listeners of the first lock stay, none is added; the cancelled
    timer can no longer fire. *)
Theorem retrigger_replaces_timer
    (index index' t0 t1 t2 t0' t1' t2' : Z) (c : Controller.t) :
  Controller.wf c -> is_Some (Controller.engine c) ->
  exists c1 c2 id1 id2,
    Controller.triggerTransition index t0 t1 t2 c = Some c1 /\
    Controller.triggerTransition index' t0' t1' t2' c1 = Some c2 /\
    Controller.timers c1
    = [Controller.mkTimer id1 (t2 + Controller.scrollLockDuration c)] /\
    Controller.timers c2
    = [Controller.mkTimer id2 (t2' + Controller.scrollLockDuration c)] /\
    id1 <> id2 /\
    Controller.scrollLocked c2 = true /\
    Controller.listeners c2 = Controller.listeners c1 /\
    length (Controller.listeners c2) = 3%nat /\
    (forall now, Controller.fire id1 now c2 = None).
Proof.
  intros Hwf He.
  destruct (triggerTransition_schedules index t0 t1 t2 c Hwf He)
    as (c1 & g & E1 & Hwf1 & Hl1 & Hg1 & Hls1 & Ht1 & Hid1 & Hn).
  assert (is_Some (Controller.engine c1) /\
          Controller.scrollLockDuration c1 = Controller.scrollLockDuration c)
    as (He1 & Hd1).
  { destruct He as [e He]. unfold Controller.triggerTransition in E1.
    rewrite He in E1.
    destruct (lockScroll_keeps c) as (K1 & _ & _ & _ & K5 & _).
    rewrite K1, He in E1. cbn [mbind option_bind] in E1.
    destruct (Engine.transitionTo _ t0 t1 e) as [e'|]; [|discriminate].
    cbn [mbind option_bind] in E1. injection E1 as <-.
    match goal with
    | |- context [Controller.scheduleScrollUnlock t2 ?x] =>
        destruct (scheduleScrollUnlock_keeps t2 x) as (F1 & _ & _ & _ & F5 & _)
    end.
    rewrite F1, F5. split; [eexists; reflexivity | exact K5]. }
  destruct (triggerTransition_schedules index' t0' t1' t2' c1 Hwf1 He1)
    as (c2 & g2 & E2 & Hwf2 & Hl2 & Hg2 & Hls2 & Ht2 & Hid2 & Hn1).
  assert (g2 = g /\ Controller.listeners c2 = Controller.listeners c1)
    as (-> & Hsame).
  { unfold Controller.triggerTransition in E2.
    destruct He1 as [e1 He1]. rewrite He1 in E2.
    rewrite (lockScroll_locked c1 Hl1), He1 in E2.
    cbn [mbind option_bind] in E2.
    destruct (Engine.transitionTo _ t0' t1' e1) as [e'|]; [|discriminate].
    cbn [mbind option_bind] in E2. injection E2 as <-.
    pose proof Hwf1 as (_ & _ & Htim & Hbound & _).
    pose proof (scheduleScrollUnlock_single t2'
                  (c1 <| Controller.engine := Some e' |>)) as Hsingle.
    destruct (Hsingle Htim Hbound) as (_ & _ & _ & _ & Hg' & Hls').
    change (Controller.scrollUnlockCleanup
              (Controller.scheduleScrollUnlock t2'
                 (c1 <| Controller.engine := Some e' |>)) = Some g2) in Hg2.
    rewrite Hg' in Hg2.
    change (Controller.scrollUnlockCleanup c1 = Some g2) in Hg2.
    split; [congruence | exact Hls']. }
  assert (Controller.nextTimer c < Controller.nextTimer c1)%nat as Hlt.
  { pose proof Hwf1 as (_ & _ & _ & Hbound & _).
    destruct (Hbound _ Hid1). assumption. }
  exists c1, c2, (Controller.nextTimer c), (Controller.nextTimer c1).
  split; [exact E1|]. split; [exact E2|]. split; [exact Ht1|].
  split; [rewrite <- Hd1; exact Ht2|]. split; [lia|].
  split; [exact Hl2|]. split; [exact Hsame|].
  split; [rewrite Hls2; reflexivity|].
  intros now. unfold Controller.fire. rewrite Ht2. cbn.
  destruct (Nat.eqb_spec (Controller.nextTimer c1) (Controller.nextTimer c));
    [lia | reflexivity].
Qed.

Lemma retrigger_replaces_timer_witness :
  exists c1 c2 id1 id2,
    Controller.triggerTransition 2 1000 1000 1000 Sample.controller = Some c1 /\
    Controller.triggerTransition 1 1500 1500 1500 c1 = Some c2 /\
    Controller.timers c1 = [Controller.mkTimer id1 2200] /\
    Controller.timers c2 = [Controller.mkTimer id2 2700] /\
    id1 <> id2 /\
    Controller.scrollLocked c2 = true /\
    Controller.listeners c2 = Controller.listeners c1 /\
    length (Controller.listeners c2) = 3%nat /\
    (forall now, Controller.fire id1 now c2 = None).
Proof.
  apply (retrigger_replaces_timer 2 1 1000 1000 1000 1500 1500 1500
           Sample.controller).
  - unfold Controller.wf; cbn.
    split; [discriminate|]. split; [auto|]. split; [now left|].
    split; [discriminate | lia].
  - cbn. eauto.
Defined.

(** ** The order of the classes *)

(** What the loop of the revised controller returns is fixed by the numbers
    found, whatever their order. *)
Lemma extractStateNumber_by_numbers (classList classList' : list string) :
  (forall n, In n (ControllerV1.stateNumbers classList) <->
             In n (ControllerV1.stateNumbers classList')) ->
  Controller.extractStateNumber classList
  = Controller.extractStateNumber classList'.
Proof.
  intros Hsame. unfold Controller.extractStateNumber.
  pose proof (scanClass_fold classList None (-1)) as H.
  pose proof (scanClass_fold classList' None (-1)) as H'.
  cbn zeta in H, H'.
  pose proof (stateNumbers_nonneg classList) as Hpos.
  pose proof (stateNumbers_nonneg classList') as Hpos'.
  destruct (fold_left Controller.scanClass classList (None, -1))
    as [maxState maxNum].
  destruct (fold_left Controller.scanClass classList' (None, -1))
    as [maxState' maxNum'].
  cbn [fst snd] in H, H'.
  destruct H as (_ & Hall & Hcase). destruct H' as (_ & Hall' & Hcase').
  destruct Hcase as [(-> & ->) | (Hin & ->)];
    destruct Hcase' as [(-> & ->) | (Hin' & ->)].
  - reflexivity.
  - apply Hsame in Hin'. pose proof (Hall _ Hin'). pose proof (Hpos _ Hin'). lia.
  - apply Hsame in Hin. pose proof (Hall' _ Hin). pose proof (Hpos' _ Hin). lia.
  - pose proof (Hall' _ (proj1 (Hsame _) Hin)).
    pose proof (Hall _ (proj2 (Hsame _) Hin')).
    f_equal. lia.
Qed.

(** X9: the state index that the revised controller reads depends on the
    set of classes of the element only, not on their order or repetition;
    that of the first revision depends on the order. *)
Theorem extractStateNumber_order_independent
    (classList classList' : list string) :
  (forall className, In className classList <-> In className classList') ->
  Controller.extractStateNumber classList
  = Controller.extractStateNumber classList' /\
  ControllerV1.extractStateNumber ["state-2"; "state-5"]%string
  <> ControllerV1.extractStateNumber ["state-5"; "state-2"]%string.
Proof.
  intros Hsame. split; [|vm_compute; discriminate].
  apply extractStateNumber_by_numbers. intros n.
  rewrite !stateNumbers_token.
  split; intros (c & Hc & Htok); exists c; (split; [|exact Htok]);
    now apply Hsame.
Qed.

Lemma extractStateNumber_order_independent_witness :
  Controller.extractStateNumber ["state-7"; "w-slide"; "state-3"]%string
  = Controller.extractStateNumber
      ["state-3"; "state-7"; "state-3"; "w-slide"]%string.
Proof.
  apply (extractStateNumber_order_independent
           ["state-7"; "w-slide"; "state-3"]%string
           ["state-3"; "state-7"; "state-3"; "w-slide"]%string).
  intros className. cbn. tauto.
Defined.

(** ** Where the textures of a new sequence go *)

Lemma applyInitialImage_textures (index : Z) (s : Engine.t) :
  Engine.textures (Engine.applyInitialImage index s) = Engine.textures s /\
  Engine.textureResolutions (Engine.applyInitialImage index s)
  = Engine.textureResolutions s /\
  Engine.images (Engine.applyInitialImage index s) = Engine.images s.
Proof.
  unfold Engine.applyInitialImage.
  destruct (Engine.material s); [|now repeat split].
  destruct (negb _); [now repeat split|].
  destruct (get (Engine.displacementTextures s) _); now repeat split.
Qed.

Lemma onTexturesLoaded_textures (s : Engine.t) :
  Engine.textures (Engine.onTexturesLoaded s) = Engine.textures s /\
  Engine.textureResolutions (Engine.onTexturesLoaded s)
  = Engine.textureResolutions s /\
  Engine.images (Engine.onTexturesLoaded s) = Engine.images s.
Proof.
  unfold Engine.onTexturesLoaded.
  destruct (_ || _ || _ || _); [now repeat split|].
  destruct (Engine.pendingInitialIndex (Engine.createMaterial s))
    as [pending|]; [|now repeat split].
  destruct (applyInitialImage_textures pending (Engine.createMaterial s))
    as (E1 & E2 & E3).
  split; [exact E1|]. split; [exact E2 | exact E3].
Qed.

Lemma storeTexture_textures
    (index : nat) (texture : Engine.Texture) (s : Engine.t) :
  Engine.textures (Engine.storeTexture index texture s)
  = put (Engine.textures s) index texture /\
  Engine.textureResolutions (Engine.storeTexture index texture s)
  = match Engine.image texture with
    | Some size => put (Engine.textureResolutions s) index size
    | None => Engine.textureResolutions s
    end /\
  Engine.images (Engine.storeTexture index texture s) = Engine.images s.
Proof.
  unfold Engine.storeTexture. destruct (Engine.image texture); now repeat split.
Qed.

(** A success callback changes the two arrays as [storeTexture] does. *)
Lemma setImages_onLoad_textures
    (index : nat) (texture : Engine.Texture) (c : Engine.SetImagesLoad)
    (s : Engine.t) :
  let s' := snd (Engine.setImages_onLoad index texture c s) in
  Engine.textures s' = put (Engine.textures s) index texture /\
  Engine.textureResolutions s'
  = match Engine.image texture with
    | Some size => put (Engine.textureResolutions s) index size
    | None => Engine.textureResolutions s
    end /\
  Engine.images s' = Engine.images s.
Proof.
  cbn zeta. unfold Engine.setImages_onLoad.
  destruct (storeTexture_textures index texture s) as (E1 & E2 & E3).
  set (s2 := Engine.storeTexture index texture s) in *.
  destruct (_ && _); [|now repeat split].
  destruct (Engine.material s2).
  - destruct (Engine.pendingInitialIndex s2) as [pending|]; cbn [snd].
    + destruct (applyInitialImage_textures pending s2) as (A1 & A2 & A3).
      split; [exact (eq_trans A1 E1)|].
      split; [exact (eq_trans A2 E2) | exact (eq_trans A3 E3)].
    + split; [exact E1|]. split; [exact E2 | exact E3].
  - cbn [snd]. destruct (onTexturesLoaded_textures s2) as (A1 & A2 & A3).
    rewrite A1, A2, A3. now repeat split.
Qed.

Lemma loadedIndices_cons (r : Engine.LoadResult) (results : list Engine.LoadResult) :
  Spec.loadedIndices (r :: results)
  = match r with
    | Engine.Loaded index _ => index :: Spec.loadedIndices results
    | Engine.Failed _ => Spec.loadedIndices results
    end.
Proof. destruct r; reflexivity. Qed.

Lemma loadedIndices_In (results : list Engine.LoadResult) (i : nat) :
  In i (Spec.loadedIndices results) <->
  exists texture, In (Engine.Loaded i texture) results.
Proof.
  induction results as [|r results IH].
  { cbn. split; [tauto|]. intros (texture & Hin). exact Hin. }
  rewrite loadedIndices_cons. destruct r as [index texture | index]; cbn.
  - rewrite IH. split.
    + intros [<- | (t & Ht)]; eauto.
    + intros (t & [[= <- <-] | Ht]); eauto.
  - rewrite IH. split.
    + intros (t & Ht); eauto.
    + intros (t & [[=] | Ht]); eauto.
Qed.

Lemma get_nil {A} (i : Z) : get ([] : list (option A)) i = None.
Proof. unfold get. destruct (0 <=? i); reflexivity. Qed.

Lemma len_nonempty {A} (l : list A) : l <> [] -> (len l =? 0) = false.
Proof.
  intros H. destruct l; [congruence|].
  apply Z.eqb_neq. unfold len. cbn [length]. lia.
Qed.

Lemma disposeAll_fields (a : list (option Engine.Texture)) (s : Engine.t) :
  let s' := Engine.disposeAll a s in
  Engine.currentIndex s' = Engine.currentIndex s /\
  Engine.material s' = Engine.material s /\
  Engine.pendingInitialIndex s' = Engine.pendingInitialIndex s /\
  Engine.displacementTexture s' = Engine.displacementTexture s /\
  Engine.displacementTextures s' = Engine.displacementTextures s.
Proof.
  cbn zeta. unfold Engine.disposeAll. revert s.
  induction a as [|[texture|] a IH]; intros s; cbn [fold_left];
    [now repeat split | | apply IH].
  destruct (IH (Engine.log (Engine.Dispose texture) s))
    as (E1 & E2 & E3 & E4 & E5).
  rewrite E1, E2, E3, E4, E5. now repeat split.
Qed.

(** What [setImages] does before its loads are started. *)
Lemma setImages_resets
    (imageUrls : list string) (onComplete : option Engine.Callback)
    (s : Engine.t) :
  imageUrls <> [] ->
  exists c s',
    Engine.setImages imageUrls onComplete s = (Some c, s') /\
    Engine.textures s' = [] /\
    Engine.textureResolutions s' = [] /\
    Engine.images s' = imageUrls /\
    Engine.currentIndex s' = Engine.currentIndex s /\
    Engine.material s' = Engine.material s /\
    Engine.pendingInitialIndex s' = Engine.pendingInitialIndex s /\
    Engine.displacementTexture s' = Engine.displacementTexture s /\
    Engine.displacementTextures s' = Engine.displacementTextures s /\
    Engine.trace s' = Engine.trace (Engine.disposeAll (Engine.textures s) s).
Proof.
  intros Hne. unfold Engine.setImages. rewrite (len_nonempty _ Hne).
  do 2 eexists. split; [reflexivity|]. rsimpl.
  destruct (Z.ltb_spec 0 (len (Engine.textures s))) as [Hpos | Hzero].
  - destruct (disposeAll_fields (Engine.textures s) s)
      as (E1 & E2 & E3 & E4 & E5).
    now repeat split.
  - repeat (split; [reflexivity|]).
    destruct (Engine.textures s); [reflexivity|].
    unfold len in Hzero. cbn [length] in Hzero. lia.
Qed.










(** ** What [setImages] releases and what it keeps *)

Lemma disposeAll_trace (a : list (option Engine.Texture)) (s : Engine.t) :
  Engine.trace (Engine.disposeAll a s)
  = rev (Engine.Dispose <$> omap id a) ++ Engine.trace s.
Proof.
  unfold Engine.disposeAll. revert s.
  induction a as [|[texture|] a IH]; intros s; cbn [fold_left];
    [reflexivity | | apply IH].
  rewrite IH. cbn. now rewrite <- app_assoc.
Qed.

(** X12: [setImages] with a list that is not empty releases every loaded
    texture of the sequence before, each once and no displacement map,
    and empties both arrays; it keeps the current index as it is, also when
    the new list is shorter, and the material, whose uniforms go on naming
    the released textures until loads of the new sequence replace them.
    With the empty list it writes a line on the console and changes
    nothing else. *)
Theorem setImages_releases_previous
    (imageUrls : list string) (onComplete : option Engine.Callback)
    (s : Engine.t) :
  (imageUrls <> [] ->
   let s' := snd (Engine.setImages imageUrls onComplete s) in
   Engine.trace s'
   = rev (Engine.Dispose <$> omap id (Engine.textures s)) ++ Engine.trace s /\
   Engine.textures s' = [] /\
   Engine.textureResolutions s' = [] /\
   Engine.currentIndex s' = Engine.currentIndex s /\
   Engine.material s' = Engine.material s /\
   Engine.displacementTextures s' = Engine.displacementTextures s) /\
  Engine.setImages [] onComplete s
  = (None,
     Engine.log (Engine.ConsoleError "setImages: Invalid imageUrls array" None) s).
Proof.
  split; [|reflexivity].
  intros Hne. cbn zeta.
  destruct (setImages_resets imageUrls onComplete s Hne)
    as (c & s1 & -> & Ht & Hr & _ & Hc & Hm & _ & _ & Hd & Htr).
  cbn [snd]. rewrite Htr, disposeAll_trace. now repeat split.
Qed.

Lemma setImages_releases_previous_witness :
  let s' := snd (Engine.setImages ["x"; "y"]%string None Sample.atLast) in
  Engine.trace s'
  = [Engine.Dispose (Sample.picture "c"); Engine.Dispose (Sample.picture "b");
     Engine.Dispose (Sample.picture "a"); Engine.Invoke "changed" 2] /\
  Engine.currentIndex s' = 2 /\
  len (Engine.images s') = 2.
Proof.
  cbn zeta.
  destruct (proj1 (setImages_releases_previous ["x"; "y"]%string None
                     Sample.atLast)) as (Htr & _ & _ & Hc & _).
  - discriminate.
  - split; [rewrite Htr; vm_compute; reflexivity|].
    split; [rewrite Hc; vm_compute; reflexivity | vm_compute; reflexivity].
Defined.

(** ** Asking twice for the same initial image *)

Lemma applyInitialImage_idempotent (k : Z) (s : Engine.t) :
  Engine.clampIndex k s = k ->
  Engine.applyInitialImage k (Engine.applyInitialImage k s)
  = Engine.applyInitialImage k s.
Proof.
  intros Hk. unfold Engine.applyInitialImage at 2.
  destruct (Engine.material s) as [m|] eqn:Hm.
  2: { unfold Engine.applyInitialImage. now rewrite Hm. }
  destruct (get (Engine.textures s) k) as [tx|] eqn:Htx; cbn [defined negb].
  2: { unfold Engine.applyInitialImage. now rewrite Hm, Htx. }
  rewrite Hk.
  destruct (get (Engine.displacementTextures s) (Engine.getDisplacementIndex k))
    as [d|] eqn:Hd;
    destruct (get (Engine.textures s)
                (Z.min (k + 1) (len (Engine.images s) - 1))) as [nx|] eqn:Hnx;
    unfold Engine.applyInitialImage; rsimpl.
  all: unfold Engine.clampIndex in *;
    repeat (rewrite ?Hm, ?Hk, ?Htx, ?Hd, ?Hnx; rsimpl); reflexivity.
Qed.

(** X13: asking twice for the same initial image is the same as asking
    once, in every state of the engine: the second call binds the textures
    already bound, or finds its own request recorded. *)
Theorem setInitialImage_idempotent (i : Z) (s : Engine.t) :
  Engine.setInitialImage i (Engine.setInitialImage i s)
  = Engine.setInitialImage i s.
Proof.
  set (k := Engine.clampIndex i s).
  assert (forall s0, Engine.images s0 = Engine.images s ->
                     Engine.clampIndex i s0 = k) as Hclamp
    by (intros s0 E; unfold k, Engine.clampIndex; now rewrite E).
  assert (Engine.clampIndex k s = k) as Hk
    by (unfold k, Engine.clampIndex; lia).
  set (s1 := s <| Engine.currentIndex := k |>).
  destruct (defined (Engine.material s1) && (0 <? len (Engine.textures s1))
            && defined (get (Engine.textures s1) k)) eqn:Hready.
  - assert (Engine.setInitialImage i s = Engine.applyInitialImage k s1) as E
      by (unfold Engine.setInitialImage; fold k; fold s1; now rewrite Hready).
    rewrite E. clear E.
    pose proof (applyInitialImage_idempotent k s1 Hk) as Hidem.
    pose proof (applyInitialImage_ready k s1) as Hr.
    set (r := Engine.applyInitialImage k s1) in *.
    destruct (applyInitialImage_textures k s1) as (T1 & T2 & T3). fold r in T1, T2, T3.
    assert (Engine.currentIndex r = k) as Hc.
    { subst r. unfold Engine.applyInitialImage.
      apply andb_true_iff in Hready as [Hready Htx].
      apply andb_true_iff in Hready as [Hmat _].
      destruct (Engine.material s1); [|discriminate].
      rewrite Htx. cbn [negb].
      destruct (get (Engine.displacementTextures s1) _); rsimpl; exact Hk. }
    assert (is_Some (Engine.material r)) as [m' Hm'].
    { destruct (applyInitialImage_sameAnimation k s1) as (_ & _ & _ & _ & H).
      apply H. apply andb_true_iff in Hready as [Hready _].
      apply andb_true_iff in Hready as [Hmat _].
      destruct (Engine.material s1); [eauto | discriminate]. }
    unfold Engine.setInitialImage.
    rewrite (Hclamp r T3).
    assert (r <| Engine.currentIndex := k |> = r) as ->
      by (destruct r; cbn in Hc; subst; reflexivity).
    rewrite Hm', T1. cbn [defined andb].
    change (Engine.textures s1) with (Engine.textures s) in *.
    change (Engine.material s1) with (Engine.material s) in Hready.
    destruct (Engine.material s); [|discriminate]. cbn [defined andb] in Hready.
    rewrite Hready. exact Hidem.
  - assert (Engine.setInitialImage i s
            = if negb (truthy_number (Engine.pendingInitialIndex s1))
              then s1 <| Engine.pendingInitialIndex := Some k |>
              else s1) as E
      by (unfold Engine.setInitialImage; fold k; fold s1; now rewrite Hready).
    rewrite E. clear E.
    unfold Engine.setInitialImage.
    destruct (negb (truthy_number (Engine.pendingInitialIndex s1))) eqn:Hp.
    + rewrite (Hclamp (s1 <| Engine.pendingInitialIndex := Some k |>))
        by reflexivity.
      rsimpl.
      change (Engine.material s1) with (Engine.material s) in Hready.
      change (Engine.textures s1) with (Engine.textures s) in Hready.
      rewrite Hready.
      destruct (k =? 0); reflexivity.
    + rewrite (Hclamp s1) by reflexivity.
      assert (s1 <| Engine.currentIndex := k |> = s1) as -> by reflexivity.
      now rewrite Hready, Hp.
Qed.

(** ** The loads of the constructor *)

Lemma get_put_is_Some {A} (a : list (option A)) (i : nat) (x : A) (j : Z) :
  is_Some (get (put a i x) j) <-> j = Z.of_nat i \/ is_Some (get a j).
Proof.
  destruct (Z.eq_dec j (Z.of_nat i)) as [-> | Hne].
  - rewrite get_put_same. split; [auto | eauto].
  - rewrite (get_put_other a i x j Hne). split; [auto | intros [? | ?]; tauto].
Qed.

Lemma defined_is_Some {A} (o : option A) : defined o = true <-> is_Some o.
Proof.
  destruct o; cbn; split; eauto; [discriminate | intros [x Hx]; discriminate].
Qed.

(** [onTexturesLoaded] without a recorded request: the material is created
    when it is missing and what it shows is loaded. *)
Lemma onTexturesLoaded_no_request (s : Engine.t) :
  Engine.pendingInitialIndex s = None ->
  Engine.onTexturesLoaded s
  = if defined (get (Engine.textures s) 0)
       && defined (get (Engine.textures s) 1)
       && defined (Engine.displacementTexture s)
       && negb (defined (Engine.material s))
    then Engine.createMaterial s
    else s.
Proof.
  intros Hp. unfold Engine.onTexturesLoaded.
  destruct (defined (get (Engine.textures s) 0));
    destruct (defined (get (Engine.textures s) 1));
    destruct (defined (Engine.displacementTexture s));
    destruct (defined (Engine.material s)); cbn; try reflexivity.
  now rewrite Hp.
Qed.

Lemma storeTexture_others
    (index : nat) (texture : Engine.Texture) (s : Engine.t) :
  let s' := Engine.storeTexture index texture s in
  Engine.material s' = Engine.material s /\
  Engine.pendingInitialIndex s' = Engine.pendingInitialIndex s /\
  Engine.displacementTexture s' = Engine.displacementTexture s /\
  Engine.displacementTextures s' = Engine.displacementTextures s /\
  Engine.currentIndex s' = Engine.currentIndex s.
Proof.
  cbn zeta. unfold Engine.storeTexture.
  destruct (Engine.image texture); now repeat split.
Qed.

(** The last statement of both success callbacks of [loadTextures]. *)
Lemma texturesReady_step (c : Engine.TexturesLoad) (s : Engine.t) :
  Engine.pendingInitialIndex s = None ->
  let s' := if Engine.texturesReady c then Engine.onTexturesLoaded s else s in
  Engine.textures s' = Engine.textures s /\
  Engine.displacementTexture s' = Engine.displacementTexture s /\
  Engine.pendingInitialIndex s' = None /\
  (is_Some (Engine.material s') <->
   is_Some (Engine.material s) \/
   (Engine.texturesReady c = true /\
    is_Some (get (Engine.textures s) 0) /\
    is_Some (get (Engine.textures s) 1) /\
    is_Some (Engine.displacementTexture s))).
Proof.
  intros Hp. cbn zeta.
  destruct (Engine.texturesReady c).
  2: { repeat (split; [reflexivity || assumption|]).
       split; [auto | intros [H | (H & _)]; [exact H | discriminate]]. }
  rewrite (onTexturesLoaded_no_request s Hp).
  destruct (defined (get (Engine.textures s) 0)) eqn:H0;
    destruct (defined (get (Engine.textures s) 1)) eqn:H1;
    destruct (defined (Engine.displacementTexture s)) eqn:Hd;
    destruct (defined (Engine.material s)) eqn:Hm; cbn [andb negb];
    repeat (split; [reflexivity || assumption|]);
    try (apply defined_is_Some in H0); try (apply defined_is_Some in H1);
    try (apply defined_is_Some in Hd); try (apply defined_is_Some in Hm);
    try (split; [auto | intros _; cbn; eauto]; fail);
    try (split; [auto | intros [H | (_ & A & B & C)]; [exact H|]]);
    exfalso;
    repeat match goal with
           | H : defined ?x = false, K : is_Some ?x |- _ =>
               apply defined_is_Some in K; congruence
           end.
Qed.

Lemma loadTextures_deliver_constructing
    (r : Engine.TextureResult) (c : Engine.TexturesLoad) (s : Engine.t) :
  Spec.ofOneMap r -> Spec.constructing c s ->
  let cs' := Engine.loadTextures_deliver r (c, s) in
  Spec.constructing (fst cs') (snd cs') /\
  (is_Some (get (Engine.textures (snd cs')) 0) <->
   is_Some (get (Engine.textures s) 0) \/ exists t, r = Engine.ImageLoaded 0 t) /\
  (is_Some (get (Engine.textures (snd cs')) 1) <->
   is_Some (get (Engine.textures s) 1) \/ exists t, r = Engine.ImageLoaded 1 t) /\
  (is_Some (Engine.displacementTexture (snd cs')) <->
   is_Some (Engine.displacementTexture s) \/
   exists d, r = Engine.DisplacementLoaded 0 d).
Proof.
  intros Hr (Hv & Hp & C0 & C1 & C01 & Cd & Cm). cbn zeta.
  destruct r as [index texture | index | index texture | index];
    cbn [Engine.loadTextures_deliver fst snd].
  - unfold Engine.loadTextures_onImage.
    destruct (storeTexture_textures index texture s) as (T & _).
    destruct (storeTexture_others index texture s) as (Em & Ep & Ed & _).
    set (s1 := Engine.storeTexture index texture s) in *.
    set (c1 := {| Engine.loadedImages := S (Engine.loadedImages c);
                  Engine.loadedDisplacementCount :=
                    Engine.loadedDisplacementCount c;
                  Engine.validDisplacementCount :=
                    Engine.validDisplacementCount c |}).
    pose proof (texturesReady_step c1 s1 ltac:(congruence)) as Hstep.
    cbn zeta in Hstep.
    assert (forall j, is_Some (get (Engine.textures s1) j) <->
                      j = Z.of_nat index \/ is_Some (get (Engine.textures s) j))
      as Hget by (intros j; rewrite T; apply get_put_is_Some).
    assert (Engine.texturesReady c1 = true <->
            (1 <= Engine.loadedImages c)%nat /\
            (1 <= Engine.loadedDisplacementCount c)%nat) as Hready.
    { unfold Engine.texturesReady, c1. cbn [Engine.loadedImages
        Engine.loadedDisplacementCount Engine.validDisplacementCount].
      rewrite Hv, !andb_true_iff, !Nat.leb_le, Nat.ltb_lt. lia. }
    assert (snd (if Engine.texturesReady c1
                 then (c1, Engine.onTexturesLoaded s1) else (c1, s1))
            = (if Engine.texturesReady c1 then Engine.onTexturesLoaded s1 else s1)
            /\ fst (if Engine.texturesReady c1
                    then (c1, Engine.onTexturesLoaded s1) else (c1, s1)) = c1)
      as (-> & ->) by (destruct (Engine.texturesReady c1); split; reflexivity).
    destruct Hstep as (S1 & S2 & S3 & S4).
    rewrite S1, S2, !Hget, Ed.
    split; [|split; [|split]].
    + unfold Spec.constructing. rewrite S1, S2, S3, S4, !Hget, Em, Ed, Hready.
      cbn [Engine.validDisplacementCount Engine.loadedImages
             Engine.loadedDisplacementCount c1].
      split; [exact Hv|]. split; [reflexivity|].
      split; [lia|]. split; [lia|].
      split; [intros [A | A] [B | B]; try lia;
              [pose proof (C1 B) | pose proof (C0 A) | pose proof (C01 A B)];
              lia|].
      split; [exact Cd|].
      split.
      * intros [Hm | (_ & A & B & D)]; [|tauto].
        apply Cm in Hm. tauto.
      * intros (A & B & D). destruct (Cm) as [_ Cm'].
        destruct A as [A | A]; destruct B as [B | B]; try lia.
        -- right. pose proof (C1 B). pose proof (Cd D). tauto.
        -- right. pose proof (C0 A). pose proof (Cd D). tauto.
        -- left. tauto.
    + split; [intros [A | A]; [|tauto]
             | intros [A | (t & [= -> _])]; [auto | left; reflexivity]].
      right. exists texture. f_equal. lia.
    + split; [intros [A | A]; [|tauto]
             | intros [A | (t & [= -> _])]; [auto | left; reflexivity]].
      right. exists texture. f_equal. lia.
    + split; [auto | intros [A | (d & [=])]; exact A].
  - unfold Spec.constructing. cbn.
    split; [repeat split; tauto || assumption|].
    split; [split; [auto | intros [A | (t & [=])]; exact A]|].
    split; [split; [auto | intros [A | (t & [=])]; exact A]|].
    split; [auto | intros [A | (t & [=])]; exact A].
  - cbn in Hr. subst index. unfold Engine.loadTextures_onDisplacement.
    cbn [Nat.eqb].
    set (s1 := s <| Engine.displacementTextures :=
                     put (Engine.displacementTextures s) 0 texture |>
                 <| Engine.displacementTexture := Some texture |>).
    set (c1 := {| Engine.loadedImages := Engine.loadedImages c;
                  Engine.loadedDisplacementCount :=
                    S (Engine.loadedDisplacementCount c);
                  Engine.validDisplacementCount :=
                    Engine.validDisplacementCount c |}).
    pose proof (texturesReady_step c1 s1 Hp) as Hstep. cbn zeta in Hstep.
    assert (Engine.texturesReady c1 = true <-> (2 <= Engine.loadedImages c)%nat)
      as Hready.
    { unfold Engine.texturesReady, c1. cbn [Engine.loadedImages
        Engine.loadedDisplacementCount Engine.validDisplacementCount].
      rewrite Hv, !andb_true_iff, !Nat.leb_le, Nat.ltb_lt. lia. }
    assert (snd (if Engine.texturesReady c1
                 then (c1, Engine.onTexturesLoaded s1) else (c1, s1))
            = (if Engine.texturesReady c1 then Engine.onTexturesLoaded s1 else s1)
            /\ fst (if Engine.texturesReady c1
                    then (c1, Engine.onTexturesLoaded s1) else (c1, s1)) = c1)
      as (-> & ->) by (destruct (Engine.texturesReady c1); split; reflexivity).
    destruct Hstep as (S1 & S2 & S3 & S4).
    rewrite S1, S2.
    change (Engine.textures s1) with (Engine.textures s) in *.
    change (Engine.displacementTexture s1) with (Some texture) in *.
    change (Engine.material s1) with (Engine.material s) in *.
    split; [|split; [|split]].
    + unfold Spec.constructing. rewrite S1, S2, S3, S4, Hready.
      cbn [Engine.validDisplacementCount Engine.loadedImages
             Engine.loadedDisplacementCount c1].
      split; [exact Hv|]. split; [reflexivity|].
      split; [exact C0|]. split; [exact C1|]. split; [exact C01|].
      split; [lia|].
      split.
      * intros [Hm | (_ & A & B & D)]; [|tauto].
        apply Cm in Hm. split; [tauto|]. split; [tauto | eauto].
      * intros (A & B & _). right. pose proof (C01 A B). eauto.
    + split; [auto | intros [A | (t & [=])]; exact A].
    + split; [auto | intros [A | (t & [=])]; exact A].
    + split; [intros _; right; eauto | eauto].
  - unfold Spec.constructing. cbn.
    split; [repeat split; tauto || assumption|].
    split; [split; [auto | intros [A | (t & [=])]; exact A]|].
    split; [split; [auto | intros [A | (t & [=])]; exact A]|].
    split; [auto | intros [A | (t & [=])]; exact A].
Qed.

Lemma loadTextures_deliverAll_constructing
    (results : list Engine.TextureResult) (c : Engine.TexturesLoad)
    (s : Engine.t) :
  Forall Spec.ofOneMap results -> Spec.constructing c s ->
  let cs' := Engine.loadTextures_deliverAll results (c, s) in
  Spec.constructing (fst cs') (snd cs') /\
  (is_Some (get (Engine.textures (snd cs')) 0) <->
   is_Some (get (Engine.textures s) 0) \/
   exists t, In (Engine.ImageLoaded 0 t) results) /\
  (is_Some (get (Engine.textures (snd cs')) 1) <->
   is_Some (get (Engine.textures s) 1) \/
   exists t, In (Engine.ImageLoaded 1 t) results) /\
  (is_Some (Engine.displacementTexture (snd cs')) <->
   is_Some (Engine.displacementTexture s) \/
   exists d, In (Engine.DisplacementLoaded 0 d) results).
Proof.
  unfold Engine.loadTextures_deliverAll. revert c s.
  induction results as [|r results IH]; intros c s Hall Hinv; cbn zeta.
  - cbn. split; [exact Hinv|].
    repeat split; auto; intros [A | (t & [])]; exact A.
  - cbn [fold_left]. inversion Hall as [|? ? Hr Hall']; subst.
    destruct (loadTextures_deliver_constructing r c s Hr Hinv)
      as (Hinv1 & H0 & H1 & Hd). cbn zeta in Hinv1, H0, H1, Hd.
    destruct (Engine.loadTextures_deliver r (c, s)) as [c1 s1].
    cbn [fst snd] in Hinv1, H0, H1, Hd.
    destruct (IH c1 s1 Hall' Hinv1) as (Hinv2 & I0 & I1 & Id).
    cbn zeta in Hinv2, I0, I1, Id.
    split; [exact Hinv2|]. rewrite I0, I1, Id, H0, H1, Hd. cbn [In].
    repeat split.
    all: try (intros [[A | (t & A)] | (t & A)]; eauto; fail).
    all: intros [A | (t & [A | A])]; eauto.
Qed.

(** X16: an engine constructed with the option [displacementImage], a URL
    that is not blank, creates its material exactly when the loads of the
    images 0 and 1 and of the map have all succeeded, in whatever order the
    host delivers them and whatever other results come in between. *)
Theorem new_ready_iff
    (options : Engine.Options) (url : string)
    (results : list Engine.TextureResult) :
  Engine.validUrl (Some url) = true ->
  Forall Spec.ofOneMap results ->
  let maps := {| Engine.opt_displacementImages := None;
                 Engine.opt_displacementImage := Some url |} in
  let s' :=
    snd (Engine.loadTextures_deliverAll results (Engine.new options maps)) in
  Engine.startedLoads (Engine.config_displacementImages maps) = [0%nat] /\
  (is_Some (Engine.material s') <->
   (exists t, In (Engine.ImageLoaded 0 t) results) /\
   (exists t, In (Engine.ImageLoaded 1 t) results) /\
   (exists d, In (Engine.DisplacementLoaded 0 d) results)).
Proof.
  intros Hurl Hall. cbn zeta.
  assert (Engine.truthy_string (Some url) = true) as Htruthy.
  { pose proof Hurl as H. cbn in H. apply andb_true_iff in H. cbn. tauto. }
  unfold Engine.config_displacementImages, Engine.new,
    Engine.config_displacementImages.
  cbn [Engine.opt_displacementImages Engine.opt_displacementImage defined orb].
  rewrite Htruthy.
  split.
  { unfold Engine.startedLoads. cbn [length seq List.filter lookup].
    change (Engine.validUrl _) with (Engine.validUrl (Some url)).
    now rewrite Hurl. }
  unfold Engine.loadTextures. cbn [List.filter length]. rewrite Hurl.
  cbn [length].
  match goal with
  | |- context [Engine.loadTextures_deliverAll results (?c, ?s)] =>
      destruct (loadTextures_deliverAll_constructing results c s Hall)
        as (Hinv & H0 & H1 & Hd)
  end.
  { unfold Spec.constructing. rsimpl. rewrite !get_nil.
    split; [reflexivity|]. split; [reflexivity|].
    do 4 (split; [intros [x Hx]; discriminate|]).
    split; [intros [x Hx] | intros (_ & _ & [x Hx])]; discriminate. }
  cbn zeta in Hinv, H0, H1, Hd.
  destruct Hinv as (_ & _ & _ & _ & _ & _ & Hm).
  rewrite Hm, H0, H1, Hd. rsimpl. rewrite !get_nil.
  split.
  - intros ([[x Hx] | A] & [[y Hy] | B] & [[z Hz] | D]); try discriminate.
    auto.
  - intros (A & B & D). auto.
Qed.

Lemma new_ready_iff_witness :
  is_Some
    (Engine.material
       (snd (Engine.loadTextures_deliverAll
               [Engine.ImageLoaded 1 (Sample.picture "b");
                Engine.DisplacementLoaded 0 Sample.map0;
                Engine.ImageFailed 2;
                Engine.ImageLoaded 0 (Sample.picture "a")]
               (Engine.new
                  {| Engine.opt_images := Some ["a"; "b"; "c"]%string;
                     Engine.opt_intensity := None;
                     Engine.opt_transitionSpeed := None;
                     Engine.opt_onImageChange := None |}
                  {| Engine.opt_displacementImages := None;
                     Engine.opt_displacementImage := Some "map.png"%string |})))).
Proof.
  refine (proj2 (proj2 (new_ready_iff _ "map.png"
                          [Engine.ImageLoaded 1 (Sample.picture "b");
                           Engine.DisplacementLoaded 0 Sample.map0;
                           Engine.ImageFailed 2;
                           Engine.ImageLoaded 0 (Sample.picture "a")] _ _)) _).
  - vm_compute. reflexivity.
  - repeat constructor.
  - cbn. split; [|split]; eexists; eauto 10.
Defined.

(** Without a valid displacement map to await, the callbacks of the
    constructor's loads never call [onTexturesLoaded]. *)
Lemma loadTextures_deliverAll_no_map
    (results : list Engine.TextureResult) (c : Engine.TexturesLoad)
    (s : Engine.t) :
  Engine.validDisplacementCount c = 0%nat ->
  Engine.material s = None ->
  Engine.material (snd (Engine.loadTextures_deliverAll results (c, s))) = None.
Proof.
  unfold Engine.loadTextures_deliverAll. revert c s.
  induction results as [|r results IH]; intros c s Hv Hm; [exact Hm|].
  cbn [fold_left].
  assert (forall c', Engine.validDisplacementCount c' = 0%nat ->
                     Engine.texturesReady c' = false) as Hnot.
  { intros c' E. unfold Engine.texturesReady. rewrite E.
    cbn. now rewrite andb_false_r. }
  destruct r as [index texture | index | index texture | index];
    cbn [Engine.loadTextures_deliver fst snd].
  - unfold Engine.loadTextures_onImage. rewrite Hnot by exact Hv.
    apply IH; [exact Hv|].
    destruct (storeTexture_others index texture s) as (-> & _). exact Hm.
  - apply IH; [exact Hv | exact Hm].
  - unfold Engine.loadTextures_onDisplacement. rewrite Hnot by exact Hv.
    apply IH; [exact Hv|]. destruct (index =? 0)%nat; exact Hm.
  - apply IH; [exact Hv | exact Hm].
Qed.

(** X15: an engine constructed with the option [displacementImages], an
    array, and without the option [displacementImage] starts the load of no
    displacement map, whatever the array holds, and none of the loads it
    has started creates the material: as the constructor leaves it, and
    however its image loads end, every [transitionTo] returns the engine
    as it is. *)
Theorem new_with_displacementImages_never_ready
    (options : Engine.Options) (urls : list Engine.Url)
    (results : list Engine.TextureResult) :
  let maps := {| Engine.opt_displacementImages := Some urls;
                 Engine.opt_displacementImage := None |} in
  let s' :=
    snd (Engine.loadTextures_deliverAll results (Engine.new options maps)) in
  Engine.startedLoads (Engine.config_displacementImages maps) = [] /\
  Engine.material s' = None /\
  (forall target t0 t1, Engine.transitionTo target t0 t1 s' = Some s') /\
  (forall t0 t1, Engine.transitionToNext t0 t1 s' = Some s').
Proof.
  cbn zeta.
  assert (Engine.material
            (snd (Engine.loadTextures_deliverAll results
                    (Engine.new options
                       {| Engine.opt_displacementImages := Some urls;
                          Engine.opt_displacementImage := None |}))) = None)
    as Hm by (apply loadTextures_deliverAll_no_map; reflexivity).
  split; [reflexivity|]. split; [exact Hm|]. split.
  - intros target t0 t1. unfold Engine.transitionTo. rewrite Hm.
    cbn [defined negb]. now rewrite orb_true_r.
  - intros t0 t1. unfold Engine.transitionToNext. rewrite Hm.
    cbn [defined negb]. now rewrite orb_true_r.
Qed.

(** ** Replacing the displacement maps *)

Lemma deliverMap_step (r : Engine.LoadResult) (s : Engine.t) :
  let s' := Engine.deliverMap r s in
  (forall e, In e (Engine.trace s) -> In e (Engine.trace s')) /\
  match r with
  | Engine.Loaded index texture =>
      Engine.displacementTextures s'
      = put (Engine.displacementTextures s) index texture /\
      (index = 0%nat ->
       Engine.displacementTexture s' = Some texture /\
       Engine.material s'
       = (fun m => m <| Engine.displacement := Some texture |>)
           <$> Engine.material s) /\
      (index <> 0%nat ->
       Engine.displacementTexture s' = Engine.displacementTexture s /\
       Engine.material s' = Engine.material s)
  | Engine.Failed _ =>
      Engine.displacementTextures s' = Engine.displacementTextures s /\
      Engine.displacementTexture s' = Engine.displacementTexture s /\
      Engine.material s' = Engine.material s
  end.
Proof.
  cbn zeta. destruct r as [index texture | index]; cbn [Engine.deliverMap].
  - unfold Engine.setDisplacementImages_onLoad.
    destruct index as [|index]; cbn [Nat.eqb]; rsimpl.
    + destruct (Engine.material s); rsimpl;
        (split; [auto|]); (split; [reflexivity|]); split; [auto | lia | auto | lia].
    + split; [auto|]. split; [reflexivity|]. split; [lia | auto].
  - unfold Engine.setDisplacementImages_onError. rsimpl. auto.
Qed.

Lemma deliverMaps_fold (results : list Engine.LoadResult) (s : Engine.t) :
  NoDup (Spec.loadedIndices results) ->
  let s' := fold_left (fun s r => Engine.deliverMap r s) results s in
  (forall e, In e (Engine.trace s) -> In e (Engine.trace s')) /\
  (forall i : nat,
     (forall texture,
        In (Engine.Loaded i texture) results ->
        get (Engine.displacementTextures s') (Z.of_nat i) = Some texture) /\
     (~ In i (Spec.loadedIndices results) ->
      get (Engine.displacementTextures s') (Z.of_nat i)
      = get (Engine.displacementTextures s) (Z.of_nat i))) /\
  (forall texture,
     In (Engine.Loaded 0 texture) results ->
     Engine.displacementTexture s' = Some texture /\
     Engine.material s'
     = (fun m => m <| Engine.displacement := Some texture |>)
         <$> Engine.material s) /\
  (~ In 0%nat (Spec.loadedIndices results) ->
   Engine.displacementTexture s' = Engine.displacementTexture s /\
   Engine.material s' = Engine.material s).
Proof.
  revert s. induction results as [|r results IH]; intros s Hnd; cbn zeta.
  - cbn. split; [auto|]. split; [intros i; split; [intros ? [] | auto]|].
    split; [intros ? [] | auto].
  - cbn [fold_left]. rewrite loadedIndices_cons in Hnd.
    destruct (deliverMap_step r s) as (Htr & Hstep). cbn zeta in Htr, Hstep.
    set (s1 := Engine.deliverMap r s) in *.
    destruct r as [index texture | index].
    + apply NoDup_cons in Hnd as [Hnot Hnd].
      rewrite list_elem_of_In in Hnot.
      destruct Hstep as (T & Hzero & Hother).
      destruct (IH s1 Hnd) as (Itr & I & Iin & Iout).
      cbn zeta in Itr, I, Iin, Iout.
      split; [auto|]. split; [|split].
      * intros i. destruct (I i) as (Ii & Io). rewrite loadedIndices_cons.
        split.
        -- intros t [[= <- <-] | Hin]; [|exact (Ii t Hin)].
           rewrite (Io Hnot), T. apply get_put_same.
        -- intros Hout. cbn in Hout.
           rewrite Io by tauto. rewrite T. apply get_put_other. lia.
      * intros t [[= -> <-] | Hin].
        -- destruct (Iout Hnot) as (-> & ->). exact (Hzero eq_refl).
        -- destruct (Iin t Hin) as (-> & ->). split; [reflexivity|].
           assert (index <> 0%nat) as Hne.
           { intros ->. apply Hnot. apply loadedIndices_In. eauto. }
           destruct (Hother Hne) as (_ & ->). reflexivity.
      * intros Hout. rewrite loadedIndices_cons in Hout. cbn in Hout.
        destruct (Iout ltac:(tauto)) as (-> & ->). apply Hother. tauto.
    + destruct Hstep as (T & Hd & Hm).
      destruct (IH s1 Hnd) as (Itr & I & Iin & Iout).
      cbn zeta in Itr, I, Iin, Iout.
      split; [auto|]. split; [|split].
      * intros i. destruct (I i) as (Ii & Io). split.
        -- intros t [[=] | Hin]. exact (Ii t Hin).
        -- intros Hout. rewrite (Io Hout), T. reflexivity.
      * intros t [[=] | Hin]. destruct (Iin t Hin) as (-> & ->).
        now rewrite Hm.
      * intros Hout. destruct (Iout Hout) as (-> & ->). auto.
Qed.

Lemma disposeAll_In (a : list (option Engine.Texture)) (s : Engine.t)
    (e : Engine.Event) :
  In e (Engine.trace (Engine.disposeAll a s)) <->
  In e (Engine.trace s) \/ exists d, In (Some d) a /\ e = Engine.Dispose d.
Proof.
  rewrite disposeAll_trace, in_app_iff, <- in_rev, in_map_iff.
  split.
  - intros [(d & <- & Hd) | H]; [right | now left].
    exists d. split; [|reflexivity].
    apply list_elem_of_In, list_elem_of_omap in Hd as (o & Ho & E).
    cbn in E. subst o. now apply list_elem_of_In.
  - intros [H | (d & Hd & ->)]; [now right | left].
    exists d. split; [reflexivity|].
    apply list_elem_of_In, list_elem_of_omap. exists (Some d).
    split; [now apply list_elem_of_In | reflexivity].
Qed.

(** What [setDisplacementImages] does before its loads are started. *)
Lemma setDisplacementImages_resets (urls : list Engine.Url) (s : Engine.t) :
  urls <> [] ->
  exists s1,
    Engine.setDisplacementImages urls s = (Some (Engine.startedLoads urls), s1) /\
    Engine.displacementTextures s1 = [] /\
    Engine.displacementTexture s1 = Engine.displacementTexture s /\
    Engine.material s1 = Engine.material s /\
    (forall e,
       In e (Engine.trace s1) <->
       In e (Engine.trace s) \/
       exists d, In (Some d) (Engine.displacementTextures s) /\
                 e = Engine.Dispose d).
Proof.
  intros Hne. unfold Engine.setDisplacementImages.
  rewrite (len_nonempty _ Hne). eexists. split; [reflexivity|]. rsimpl.
  destruct (Z.ltb_spec 0 (len (Engine.displacementTextures s))) as [Hpos | Hzero].
  - destruct (disposeAll_fields (Engine.displacementTextures s) s)
      as (_ & E2 & _ & E4 & _).
    split; [reflexivity|]. split; [exact E4|]. split; [exact E2|].
    intros e. apply disposeAll_In.
  - repeat (split; [reflexivity|]). intros e.
    destruct (Engine.displacementTextures s);
      [|unfold len in Hzero; cbn [length] in Hzero; lia].
    split; [auto | intros [H | (d & [] & _)]; exact H].
Qed.

(** X17: the loads of a [setDisplacementImages] call may end in any order:
    every map sits at the index of its load and the other indices are
    holes; the map of index 0, once loaded, is the map in use, in the field
    and in the uniform of the material if there is one. *)
Theorem setDisplacementImages_maps_by_index
    (urls : list Engine.Url) (results : list Engine.LoadResult)
    (s : Engine.t) :
  urls <> [] ->
  NoDup (Spec.loadedIndices results) ->
  let s' := Engine.setDisplacementImages_then urls results s in
  (forall i : nat,
     (forall texture,
        In (Engine.Loaded i texture) results ->
        get (Engine.displacementTextures s') (Z.of_nat i) = Some texture) /\
     (~ In i (Spec.loadedIndices results) ->
      get (Engine.displacementTextures s') (Z.of_nat i) = None)) /\
  (forall texture,
     In (Engine.Loaded 0 texture) results ->
     Engine.displacementTexture s' = Some texture /\
     forall m,
       Engine.material s = Some m ->
       Engine.material s' = Some (m <| Engine.displacement := Some texture |>)).
Proof.
  intros Hne Hnd. cbn zeta. unfold Engine.setDisplacementImages_then.
  destruct (setDisplacementImages_resets urls s Hne)
    as (s1 & -> & Ht & Hd & Hm & _).
  destruct (deliverMaps_fold results s1 Hnd) as (_ & I & Iin & _).
  cbn zeta in I, Iin. split.
  - intros i. destruct (I i) as (Ii & Io). split; [exact Ii|].
    intros Hout. rewrite (Io Hout), Ht. apply get_nil.
  - intros texture Hin. destruct (Iin texture Hin) as (E1 & E2).
    split; [exact E1|]. intros m Em. rewrite E2, Hm, Em. reflexivity.
Qed.

Lemma setDisplacementImages_maps_by_index_witness :
  let s' :=
    Engine.setDisplacementImages_then
      [Some "m0"; Some "m1"; Some "m2"]%string
      [Engine.Loaded 2 (Sample.picture "m2"); Engine.Loaded 0 (Sample.picture "m0")]
      Sample.ready in
  get (Engine.displacementTextures s') 2 = Some (Sample.picture "m2") /\
  get (Engine.displacementTextures s') 1 = None /\
  Engine.displacementTexture s' = Some (Sample.picture "m0").
Proof.
  cbn zeta.
  destruct (setDisplacementImages_maps_by_index
              [Some "m0"; Some "m1"; Some "m2"]%string
              [Engine.Loaded 2 (Sample.picture "m2");
               Engine.Loaded 0 (Sample.picture "m0")]
              Sample.ready) as (H & H0).
  - discriminate.
  - cbn. repeat (apply NoDup_cons; split; [rewrite list_elem_of_In; cbn; lia|]).
    apply NoDup_nil. exact I.
  - destruct (H 2%nat) as (H2 & _). destruct (H 1%nat) as (_ & H1).
    refine (conj (H2 _ _) (conj (H1 _) (proj1 (H0 _ _)))); cbn; tauto || lia.
Defined.

(** X18: [setDisplacementImages] releases the maps loaded before and
    empties their array, but the map in use is replaced by the load of
    index 0 only: as long as that load has not succeeded (its URL is
    skipped as blank, or it fails, or it has not ended) the engine and its
    material go on using the map just released. *)
Theorem setDisplacementImages_keeps_released_map
    (urls : list Engine.Url) (results : list Engine.LoadResult)
    (s : Engine.t) (d : Engine.Texture) :
  urls <> [] ->
  NoDup (Spec.loadedIndices results) ->
  ~ In 0%nat (Spec.loadedIndices results) ->
  Engine.displacementTexture s = Some d ->
  In (Some d) (Engine.displacementTextures s) ->
  let s' := Engine.setDisplacementImages_then urls results s in
  Engine.displacementTexture s' = Some d /\
  Engine.material s' = Engine.material s /\
  In (Engine.Dispose d) (Engine.trace s') /\
  get (Engine.displacementTextures s') 0 = None.
Proof.
  intros Hne Hnd Hout Hd Hin. cbn zeta.
  unfold Engine.setDisplacementImages_then.
  destruct (setDisplacementImages_resets urls s Hne)
    as (s1 & -> & Ht & Hd1 & Hm & Htr).
  destruct (deliverMaps_fold results s1 Hnd) as (Itr & I & _ & Iout).
  cbn zeta in Itr, I, Iout.
  destruct (Iout Hout) as (-> & ->).
  split; [congruence|]. split; [exact Hm|]. split.
  - apply Itr, Htr. right. eauto.
  - destruct (I 0%nat) as (_ & Io). change (Z.of_nat 0) with 0 in Io.
    rewrite (Io Hout), Ht. apply get_nil.
Qed.

Lemma setDisplacementImages_keeps_released_map_witness :
  let s' :=
    Engine.setDisplacementImages_then
      [Some " "; Some "m1"; Some "m2"]%string
      [Engine.Loaded 1 (Sample.picture "m1"); Engine.Loaded 2 (Sample.picture "m2")]
      Sample.ready in
  Engine.startedLoads [Some " "; Some "m1"; Some "m2"]%string = [1; 2]%nat /\
  Engine.displacementTexture s' = Some Sample.map0 /\
  In (Engine.Dispose Sample.map0) (Engine.trace s').
Proof.
  cbn zeta. split; [vm_compute; reflexivity|].
  destruct (setDisplacementImages_keeps_released_map
              [Some " "; Some "m1"; Some "m2"]%string
              [Engine.Loaded 1 (Sample.picture "m1");
               Engine.Loaded 2 (Sample.picture "m2")]
              Sample.ready Sample.map0) as (H1 & _ & H2 & _).
  - discriminate.
  - cbn. repeat (apply NoDup_cons; split; [rewrite list_elem_of_In; cbn; lia|]).
    apply NoDup_nil. exact I.
  - cbn. lia.
  - vm_compute. reflexivity.
  - vm_compute. auto.
  - split; [exact H1 | exact H2].
Defined.

(** ** The displacement map of a transition *)

Lemma animateProgress_displacement
    (now : Z) (s s' : Engine.t) (m : Engine.Uniforms) :
  Engine.material s = Some m ->
  Engine.animateProgress now s = Some s' ->
  Engine.displacementTexture s' = Engine.displacementTexture s /\
  Engine.displacementTextures s' = Engine.displacementTextures s /\
  exists m', Engine.material s' = Some m' /\
             Engine.displacement m' = Engine.displacement m.
Proof.
  intros Hm. unfold Engine.animateProgress. rewrite Hm.
  destruct (Engine.startTime s); [|discriminate].
  cbn [mbind option_bind].
  destruct (PrimFloat.ltb _ 1).
  - intros [= <-]. rsimpl. repeat split. eexists. split; reflexivity.
  - rsimpl. destruct (Engine.targetIndex s); [|discriminate].
    intros [= <-]. rsimpl. repeat split. eexists. split; reflexivity.
Qed.

(** X19: an accepted transition uses the displacement map of the bucket of
    its target ([getDisplacementIndex]) when that map is loaded, and goes
    on with the map in use when it is not; the choice is made at the start
    and the first frame keeps it. *)
Theorem transitionTo_binds_bucket_map
    (target t0 t1 : Z) (s : Engine.t) (m : Engine.Uniforms)
    (texture : Engine.Texture) :
  Engine.isTransitioning s = false ->
  target <> Engine.currentIndex s ->
  Engine.material s = Some m ->
  get (Engine.textures s) target = Some texture ->
  exists s' m',
    Engine.transitionTo target t0 t1 s = Some s' /\
    Engine.material s' = Some m' /\
    match get (Engine.displacementTextures s)
            (Engine.getDisplacementIndex target) with
    | Some d =>
        Engine.displacement m' = Some d /\
        Engine.displacementTexture s' = Some d
    | None =>
        Engine.displacement m' = Engine.displacement m /\
        Engine.displacementTexture s' = Engine.displacementTexture s
    end.
Proof.
  intros Hidle Hne Hm Htex.
  destruct (transitionTo_total target t0 t1 s) as (s' & E).
  exists s'. pose proof E as E0. unfold Engine.transitionTo in E.
  apply Z.eqb_neq in Hne. rewrite Hidle, Hne, Hm, Htex in E.
  cbn [orb defined negb] in E. unfold set in E; simpl in E.
  rewrite Hm in E. cbn [mbind option_bind] in E.
  destruct (get (Engine.displacementTextures s)
              (Engine.getDisplacementIndex target)) as [d|];
    destruct (Engine.onImageChange s);
    (eapply animateProgress_displacement in E; [|reflexivity]);
    destruct E as (Ed & _ & m' & Em & Edm); exists m';
    (split; [exact E0|]); (split; [exact Em|]);
    (split; [exact Edm | exact Ed]).
Qed.

Lemma transitionTo_binds_bucket_map_witness :
  exists s' m',
    Engine.transitionTo 2 1000 1000 Sample.ready = Some s' /\
    Engine.material s' = Some m' /\
    Engine.displacement m' = Some Sample.map0.
Proof.
  destruct (transitionTo_binds_bucket_map 2 1000 1000 Sample.ready
              (default (Engine.mkUniforms None None None 0 0 (0, 0) (0, 0))
                 (Engine.material Sample.ready))
              (Sample.picture "c")) as (s' & m' & E & Em & H).
  - vm_compute. reflexivity.
  - vm_compute. discriminate.
  - vm_compute. reflexivity.
  - vm_compute. reflexivity.
  - exists s', m'. split; [exact E|]. split; [exact Em|].
    change (get (Engine.displacementTextures Sample.ready)
              (Engine.getDisplacementIndex 2)) with (Some Sample.map0) in H.
    exact (proj1 H).
Defined.

(** ** What the scroll lock cancels *)

Lemma scrollKeys_range (keyCode : Z) :
  existsb (Z.eqb keyCode) Controller.scrollKeys = true <-> 32 <= keyCode <= 40.
Proof.
  unfold Controller.scrollKeys. cbn [existsb].
  rewrite !orb_true_iff, !Z.eqb_eq. lia.
Qed.

(** X20: in a well-formed controller the listeners cancel an event exactly
    when scrolling is locked and the event is a wheel event, a touch move,
    or a key press of one of the key codes 32 to 40; other keys are never
    cancelled, and nothing is once scrolling is unlocked. *)
Theorem dispatch_cancels_while_locked
    (type : Controller.EventType) (keyCode : Z) (c : Controller.t) :
  Controller.wf c ->
  (Controller.dispatch type keyCode c = true <->
   Controller.scrollLocked c = true /\
   (type = Controller.keydown -> 32 <= keyCode <= 40)).
Proof.
  intros (Hl & Hu & _). unfold Controller.dispatch.
  destruct (Controller.scrollLocked c) eqn:E.
  - destruct (Hl eq_refl) as (g & _ & ->).
    unfold Controller.lockListeners, Controller.handler. rewrite E.
    cbn [existsb Controller.eventType].
    pose proof (scrollKeys_range keyCode) as Hk.
    destruct type; cbn [Controller.sameEventType andb orb].
    + split; [intros _; split; [reflexivity | discriminate] | reflexivity].
    + split; [intros _; split; [reflexivity | discriminate] | reflexivity].
    + rewrite orb_false_r, Hk. split; [auto | intros (_ & H); auto].
  - destruct (Hu eq_refl) as (-> & _). cbn.
    split; [discriminate | intros (H & _); discriminate].
Qed.

Lemma dispatch_cancels_while_locked_witness :
  exists c',
    Controller.triggerTransition 2 1000 1000 1000 Sample.controller = Some c' /\
    Controller.dispatch Controller.keydown 40 c' = true /\
    Controller.dispatch Controller.keydown 65 c' = false /\
    Controller.dispatch Controller.wheel 0 c' = true /\
    Controller.dispatch Controller.wheel 0 Sample.controller = false.
Proof.
  assert (Controller.wf Sample.controller) as Hwf.
  { unfold Controller.wf; cbn.
    split; [discriminate|]. split; [auto|]. split; [now left|].
    split; [discriminate | lia]. }
  destruct (triggerTransition_schedules 2 1000 1000 1000 Sample.controller Hwf)
    as (c' & g & E & Hwf' & Hl & _); [cbn; eauto|].
  exists c'. split; [exact E|].
  split; [apply (dispatch_cancels_while_locked _ _ c' Hwf'); split; [exact Hl | lia]|].
  split.
  { destruct (Controller.dispatch Controller.keydown 65 c') eqn:D; [|reflexivity].
    apply (dispatch_cancels_while_locked _ _ c' Hwf') in D as (_ & D).
    specialize (D eq_refl). lia. }
  split; [apply (dispatch_cancels_while_locked _ _ c' Hwf');
          split; [exact Hl | discriminate]|].
  destruct (Controller.dispatch Controller.wheel 0 Sample.controller) eqn:D;
    [|reflexivity].
  apply (dispatch_cancels_while_locked _ _ _ Hwf) in D as (D & _).
  discriminate D.
Defined.

(** ** Destroying the controller *)

(** X21: [destroy] on a well-formed controller leaves nothing behind:
    scrolling is unlocked, no listener is installed, no unlock timer is
    pending (none can fire later), and the engine is let go; the state it
    leaves is well formed, and a second [destroy] changes nothing. *)
Theorem destroy_releases_everything (c : Controller.t) :
  Controller.wf c ->
  let c' := Controller.destroy c in
  Controller.wf c' /\
  Controller.scrollLocked c' = false /\
  Controller.listeners c' = [] /\
  Controller.timers c' = [] /\
  Controller.engine c' = None /\
  (forall id now, Controller.fire id now c' = None) /\
  (forall type keyCode, Controller.dispatch type keyCode c' = false) /\
  Controller.destroy c' = c'.
Proof.
  intros Hwf. cbn zeta.
  destruct (wf_unlockScroll c Hwf) as (Hwf1 & Hl1).
  assert (Controller.destroy c
          = match Controller.engine (Controller.unlockScroll c) with
            | Some _ => Controller.unlockScroll c <| Controller.engine := None |>
            | None => Controller.unlockScroll c
            end) as -> by reflexivity.
  set (c1 := Controller.unlockScroll c) in *.
  pose proof Hwf1 as (_ & Hu & _). destruct (Hu Hl1) as (Hls & Ht).
  assert (forall c2,
            Controller.wf c2 -> Controller.scrollLocked c2 = false ->
            Controller.listeners c2 = [] -> Controller.timers c2 = [] ->
            Controller.engine c2 = None ->
            Controller.wf c2 /\
            Controller.scrollLocked c2 = false /\
            Controller.listeners c2 = [] /\
            Controller.timers c2 = [] /\
            Controller.engine c2 = None /\
            (forall id now, Controller.fire id now c2 = None) /\
            (forall type keyCode, Controller.dispatch type keyCode c2 = false) /\
            Controller.destroy c2 = c2) as Hdone.
  { intros c2 W L Ls T En. repeat (split; [assumption|]).
    split; [intros id now; unfold Controller.fire; now rewrite T|].
    split; [intros type keyCode; unfold Controller.dispatch; now rewrite Ls|].
    unfold Controller.destroy. rewrite (unlockScroll_unlocked c2 L).
    now rewrite En. }
  destruct (Controller.engine c1) as [e|] eqn:He.
  - apply Hdone; assumption || reflexivity.
  - apply Hdone; assumption.
Qed.

Lemma destroy_releases_everything_witness :
  exists c',
    Controller.triggerTransition 2 1000 1000 1000 Sample.controller = Some c' /\
    Controller.listeners (Controller.destroy c') = [] /\
    Controller.timers (Controller.destroy c') = [] /\
    Controller.engine (Controller.destroy c') = None.
Proof.
  assert (Controller.wf Sample.controller) as Hwf.
  { unfold Controller.wf; cbn.
    split; [discriminate|]. split; [auto|]. split; [now left|].
    split; [discriminate | lia]. }
  destruct (triggerTransition_schedules 2 1000 1000 1000 Sample.controller Hwf)
    as (c' & g & E & Hwf' & _); [cbn; eauto|].
  exists c'. split; [exact E|].
  destruct (destroy_releases_everything c' Hwf') as (_ & _ & H1 & H2 & H3 & _).
  split; [exact H1|]. split; [exact H2 | exact H3].
Defined.

(** ** The content sections *)

Lemma updateContentSections_configured
    (selector : string) (stateIndex : Z) (sections : list Controller.Display) :
  selector <> EmptyString ->
  Controller.updateContentSections (Some selector) stateIndex sections
  = imap (fun index _ =>
            if Z.of_nat index =? stateIndex
            then Controller.block else Controller.none)
      sections.
Proof.
  intros Hne. unfold Controller.updateContentSections.
  destruct selector; [congruence|].
  apply imap_ext. intros i d _. cbn zeta.
  destruct (Z.eqb_spec (Z.of_nat i + 1) (stateIndex + 1));
    destruct (Z.eqb_spec (Z.of_nat i) stateIndex); try lia; reflexivity.
Qed.

Lemma shown_count (stateIndex : Z) (sections : list Controller.Display) :
  length
    (List.filter Spec.shown
       (imap (fun index _ =>
                if Z.of_nat index =? stateIndex
                then Controller.block else Controller.none)
          sections))
  = if (0 <=? stateIndex) && (stateIndex <? len sections) then 1%nat else 0%nat.
Proof.
  revert stateIndex.
  induction sections as [|d sections IH]; intros stateIndex.
  - unfold len. cbn [imap List.filter length]. change (Z.of_nat 0) with 0.
    destruct (Z.leb_spec 0 stateIndex); destruct (Z.ltb_spec stateIndex 0);
      cbn [andb]; try lia; reflexivity.
  - cbn [imap].
    rewrite (imap_ext _ (fun index _ =>
                           if Z.of_nat index =? stateIndex - 1
                           then Controller.block else Controller.none)).
    2: { intros i x _. cbn.
         destruct (Z.eqb_spec (Z.of_nat (S i)) stateIndex);
           destruct (Z.eqb_spec (Z.of_nat i) (stateIndex - 1));
           try lia; reflexivity. }
    cbn [List.filter]. change (Z.of_nat 0) with 0.
    unfold len in *. cbn [length]. rewrite Nat2Z.inj_succ.
    destruct (Z.eqb_spec 0 stateIndex) as [<- | Hne]; cbn [Spec.shown length].
    + rewrite IH. cbn.
      destruct (Z.ltb_spec 0 (Z.succ (Z.of_nat (length sections)))); [|lia].
      reflexivity.
    + rewrite IH.
      destruct (Z.leb_spec 0 (stateIndex - 1));
        destruct (Z.ltb_spec (stateIndex - 1) (Z.of_nat (length sections)));
        destruct (Z.leb_spec 0 stateIndex);
        destruct (Z.ltb_spec stateIndex (Z.succ (Z.of_nat (length sections))));
        cbn [andb]; try lia; reflexivity.
Qed.

(** X22: with a section selector configured, [updateContentSections] shows
    the section whose position is the state index and hides every other
    one, whatever they displayed before: one section is shown when the
    state index has a section, none when it has not (a state beyond the
    last section hides them all); without a selector it changes nothing. *)
Theorem updateContentSections_shows_one
    (selector : string) (stateIndex : Z) (sections : list Controller.Display) :
  selector <> EmptyString ->
  let sections' :=
    Controller.updateContentSections (Some selector) stateIndex sections in
  length sections' = length sections /\
  (forall (i : nat) d,
     sections' !! i = Some d ->
     d = if Z.of_nat i =? stateIndex then Controller.block else Controller.none) /\
  length (List.filter Spec.shown sections')
  = (if (0 <=? stateIndex) && (stateIndex <? len sections)
     then 1%nat else 0%nat) /\
  Controller.updateContentSections None stateIndex sections = sections.
Proof.
  intros Hne. cbn zeta.
  rewrite (updateContentSections_configured selector stateIndex sections Hne).
  split; [apply length_imap|]. split.
  - intros i d Hd. rewrite list_lookup_imap in Hd.
    destruct (sections !! i); cbn in Hd; [|discriminate].
    now injection Hd as <-.
  - split; [apply shown_count | reflexivity].
Qed.

Lemma updateContentSections_shows_one_witness :
  Controller.updateContentSections (Some ".content-section"%string) 1
    [Controller.other "flex"; Controller.none; Controller.block]
  = [Controller.none; Controller.block; Controller.none] /\
  length
    (List.filter Spec.shown
       (Controller.updateContentSections (Some ".content-section"%string) 7
          [Controller.other "flex"; Controller.none; Controller.block]))
  = 0%nat.
Proof.
  split; [reflexivity|].
  destruct (updateContentSections_shows_one ".content-section" 7
              [Controller.other "flex"; Controller.none; Controller.block])
    as (_ & _ & H & _); [discriminate|].
  exact H.
Defined.

(** ** Which load creates the material *)

Lemma applyInitialImage_keeps_map (index : Z) (s : Engine.t) :
  is_Some (Engine.displacementTexture s) ->
  is_Some (Engine.displacementTexture (Engine.applyInitialImage index s)).
Proof.
  intros H. unfold Engine.applyInitialImage.
  destruct (Engine.material s); [|exact H].
  destruct (negb _); [exact H|].
  destruct (get (Engine.displacementTextures s) _); rsimpl; eauto.
Qed.

Lemma onTexturesLoaded_creates (s : Engine.t) :
  (is_Some (Engine.displacementTexture s) ->
   is_Some (Engine.displacementTexture (Engine.onTexturesLoaded s))) /\
  (is_Some (Engine.material s) \/
   (is_Some (get (Engine.textures s) 0) /\
    is_Some (get (Engine.textures s) 1) /\
    is_Some (Engine.displacementTexture s)) ->
   is_Some (Engine.material (Engine.onTexturesLoaded s))).
Proof.
  split.
  - intros H. unfold Engine.onTexturesLoaded.
    destruct (_ || _ || _ || _); [exact H|].
    destruct (Engine.pendingInitialIndex (Engine.createMaterial s));
      [|exact H].
    apply (applyInitialImage_keeps_map _ (Engine.createMaterial s)). exact H.
  - intros H.
    destruct (onTexturesLoaded_sameAnimation s) as (_ & _ & _ & _ & Hkeep).
    destruct H as [H | (H0 & H1 & Hd)]; [auto|].
    destruct (Engine.material s) as [m|] eqn:Hm; [apply Hkeep; eauto|].
    unfold Engine.onTexturesLoaded.
    apply defined_is_Some in H0, H1, Hd. rewrite H0, H1, Hd, Hm.
    cbn [negb orb defined].
    destruct (Engine.pendingInitialIndex (Engine.createMaterial s))
      as [pending|].
    + destruct (applyInitialImage_sameAnimation pending (Engine.createMaterial s))
        as (_ & _ & _ & _ & Hk).
      change (is_Some (Engine.material
                         (Engine.applyInitialImage pending
                            (Engine.createMaterial s)))).
      apply Hk. rsimpl. eauto.
    + rsimpl. eauto.
Qed.

Lemma setImages_onLoad_progress
    (index : nat) (texture : Engine.Texture) (c : Engine.SetImagesLoad)
    (s : Engine.t) :
  is_Some (Engine.displacementTexture s) ->
  (is_Some (get (Engine.textures s) 0) -> (1 <= Engine.loadedImageCount c)%nat) ->
  (is_Some (get (Engine.textures s) 1) -> (1 <= Engine.loadedImageCount c)%nat) ->
  (is_Some (get (Engine.textures s) 0) ->
   is_Some (get (Engine.textures s) 1) -> is_Some (Engine.material s)) ->
  let cs' := Engine.setImages_onLoad index texture c s in
  is_Some (Engine.displacementTexture (snd cs')) /\
  (1 <= Engine.loadedImageCount (fst cs'))%nat /\
  (is_Some (get (Engine.textures (snd cs')) 0) ->
   is_Some (get (Engine.textures (snd cs')) 1) ->
   is_Some (Engine.material (snd cs'))).
Proof.
  intros Hd C0 C1 Cm. cbn zeta.
  destruct (setImages_onLoad_textures index texture c s) as (T & _).
  cbn zeta in T. rewrite T, !get_put_is_Some. clear T.
  unfold Engine.setImages_onLoad.
  destruct (storeTexture_textures index texture s) as (T & _).
  destruct (storeTexture_others index texture s) as (Em & _ & Ed & _).
  set (s1 := Engine.storeTexture index texture s) in *.
  rewrite <- Ed in Hd.
  apply defined_is_Some in Hd as Hd'. rewrite Hd', andb_true_r.
  cbn [Engine.loadedImageCount].
  destruct (Nat.leb_spec 2 (S (Engine.loadedImageCount c))) as [Hge | Hlt].
  - destruct (Engine.material s1) as [m|] eqn:Hm.
    + destruct (Engine.pendingInitialIndex s1) as [pending|]; cbn [fst snd].
      * split; [apply (applyInitialImage_keeps_map pending s1 Hd)|].
        split; [cbn; lia|]. intros _ _.
        destruct (applyInitialImage_sameAnimation pending s1)
          as (_ & _ & _ & _ & Hk).
        apply Hk. eauto.
      * split; [exact Hd|]. split; [cbn; lia|]. intros _ _. rsimpl. eauto.
    + cbn [fst snd]. destruct (onTexturesLoaded_creates s1) as (K1 & K2).
      split; [exact (K1 Hd)|]. split; [cbn; lia|].
      intros A B. apply K2. right. rewrite T, !get_put_is_Some. auto.
  - cbn [fst snd]. split; [exact Hd|]. split; [cbn; lia|].
    intros [A | A] [B | B]; try lia.
    + pose proof (C1 B). lia.
    + pose proof (C0 A). lia.
    + rewrite Em. auto.
Qed.

Lemma deliverAll_progress
    (results : list Engine.LoadResult) (c : Engine.SetImagesLoad)
    (s : Engine.t) :
  is_Some (Engine.displacementTexture s) ->
  (is_Some (get (Engine.textures s) 0) -> (1 <= Engine.loadedImageCount c)%nat) ->
  (is_Some (get (Engine.textures s) 1) -> (1 <= Engine.loadedImageCount c)%nat) ->
  (is_Some (get (Engine.textures s) 0) ->
   is_Some (get (Engine.textures s) 1) -> is_Some (Engine.material s)) ->
  let s' := snd (Engine.deliverAll results (c, s)) in
  is_Some (Engine.displacementTexture s') /\
  (is_Some (get (Engine.textures s') 0) ->
   is_Some (get (Engine.textures s') 1) -> is_Some (Engine.material s')) /\
  (forall i : nat,
     is_Some (get (Engine.textures s) (Z.of_nat i)) \/
     (exists t, In (Engine.Loaded i t) results) ->
     is_Some (get (Engine.textures s') (Z.of_nat i))).
Proof.
  unfold Engine.deliverAll. revert c s.
  induction results as [|r results IH]; intros c s Hd C0 C1 Cm; cbn zeta.
  - cbn. split; [exact Hd|]. split; [exact Cm|].
    intros i [H | (t & [])]. exact H.
  - cbn [fold_left]. destruct r as [index texture | index].
    + cbn [Engine.deliver fst snd].
      destruct (setImages_onLoad_progress index texture c s Hd C0 C1 Cm)
        as (Hd1 & Hc1 & Cm1).
      destruct (setImages_onLoad_textures index texture c s) as (T & _).
      cbn zeta in Hd1, Hc1, Cm1, T.
      destruct (Engine.setImages_onLoad index texture c s) as [c1 s1].
      cbn [fst snd] in Hd1, Hc1, Cm1, T.
      destruct (IH c1 s1 Hd1 (fun _ => Hc1) (fun _ => Hc1) Cm1)
        as (Hd2 & Cm2 & Hmono).
      cbn zeta in Hd2, Cm2, Hmono.
      split; [exact Hd2|]. split; [exact Cm2|].
      intros i Hi. apply Hmono. rewrite T, get_put_is_Some.
      destruct Hi as [Hi | (t & [[= <- _] | Hin])]; eauto.
    + cbn [Engine.deliver fst snd]. unfold Engine.setImages_onError.
      destruct (IH c (Engine.log
                        (Engine.ConsoleError "Failed to load image"
                           (Some (Z.of_nat index))) s) Hd C0 C1 Cm)
        as (Hd2 & Cm2 & Hmono).
      cbn zeta in Hd2, Cm2, Hmono.
      split; [exact Hd2|]. split; [exact Cm2|].
      intros i Hi. apply Hmono.
      destruct Hi as [Hi | (t & [[=] | Hin])]; eauto.
Qed.

(** X23: with a displacement map in use, the loads of a [setImages] call
    create the material, if it is missing, as soon as the images 0 and 1
    have both arrived: once they are among the results, in whatever order
    and whatever else the host delivers, the material is there. *)
Theorem setImages_creates_material
    (imageUrls : list string) (onComplete : option Engine.Callback)
    (results : list Engine.LoadResult) (s : Engine.t)
    (first second : Engine.Texture) :
  imageUrls <> [] ->
  is_Some (Engine.displacementTexture s) ->
  In (Engine.Loaded 0 first) results ->
  In (Engine.Loaded 1 second) results ->
  is_Some
    (Engine.material (Engine.setImages_then imageUrls onComplete results s)).
Proof.
  intros Hne Hd H0 H1. unfold Engine.setImages_then.
  destruct (setImages_resets imageUrls onComplete s Hne)
    as (c & s1 & -> & Ht & _ & _ & _ & _ & _ & Hd1 & _).
  rewrite <- Hd1 in Hd.
  destruct (deliverAll_progress results c s1 Hd) as (_ & Cm & Hmono).
  - rewrite Ht, get_nil. intros [x Hx]. discriminate.
  - rewrite Ht, get_nil. intros [x Hx]. discriminate.
  - rewrite Ht, get_nil. intros [x Hx]. discriminate.
  - cbn zeta in Cm, Hmono.
    apply Cm; [apply (Hmono 0%nat) | apply (Hmono 1%nat)]; eauto.
Qed.

Lemma setImages_creates_material_witness :
  is_Some
    (Engine.material
       (Engine.setImages_then Sample.sevenUrls None
          [Engine.Loaded 4 (Sample.picture "e"); Engine.Loaded 1 (Sample.picture "b");
           Engine.Failed 6; Engine.Loaded 0 (Sample.picture "a")]
          Sample.mapped)).
Proof.
  apply (setImages_creates_material Sample.sevenUrls None _ Sample.mapped
           (Sample.picture "a") (Sample.picture "b")).
  - discriminate.
  - eexists. vm_compute. reflexivity.
  - cbn. tauto.
  - cbn. tauto.
Defined.

Lemma deliverAll_without_map
    (results : list Engine.LoadResult) (c : Engine.SetImagesLoad)
    (s : Engine.t) :
  Engine.material s = None ->
  Engine.displacementTexture s = None ->
  Engine.material (snd (Engine.deliverAll results (c, s))) = None /\
  Engine.displacementTexture (snd (Engine.deliverAll results (c, s))) = None.
Proof.
  unfold Engine.deliverAll. revert c s.
  induction results as [|r results IH]; intros c s Hm Hd; [now split|].
  cbn [fold_left]. destruct r as [index texture | index];
    cbn [Engine.deliver fst snd].
  - unfold Engine.setImages_onLoad.
    destruct (storeTexture_others index texture s) as (Em & _ & Ed & _).
    rewrite Ed, Hd. cbn [defined]. rewrite andb_false_r.
    apply IH; congruence.
  - unfold Engine.setImages_onError. apply IH; assumption.
Qed.

Lemma deliverMaps_no_material (results : list Engine.LoadResult) (s : Engine.t) :
  Engine.material s = None ->
  Engine.material (fold_left (fun s r => Engine.deliverMap r s) results s) = None.
Proof.
  revert s. induction results as [|r results IH]; intros s Hm; [exact Hm|].
  cbn [fold_left]. apply IH.
  destruct (deliverMap_step r s) as (_ & Hstep). cbn zeta in Hstep.
  destruct r as [index texture | index].
  - destruct Hstep as (_ & Hzero & Hother).
    destruct index as [|index].
    + destruct (Hzero eq_refl) as (_ & ->). now rewrite Hm.
    + destruct (Hother ltac:(lia)) as (_ & ->). exact Hm.
  - destruct Hstep as (_ & _ & ->). exact Hm.
Qed.

(** X24: the material is created by an image load only, and only with a
    displacement map in use.  When an engine without material and map is
    told of new maps and new images and the image loads all end before
    the load of the first map, no load creates the material, however many
    images and maps arrive: every [transitionTo] then returns the engine
    as it is. *)
Theorem material_needs_map_before_images
    (mapUrls : list Engine.Url) (imageUrls : list string)
    (onComplete : option Engine.Callback)
    (results mapResults : list Engine.LoadResult) (s : Engine.t) :
  Engine.material s = None ->
  Engine.displacementTexture s = None ->
  let s1 := snd (Engine.setDisplacementImages mapUrls s) in
  let s2 := Engine.setImages_then imageUrls onComplete results s1 in
  let s3 := fold_left (fun s r => Engine.deliverMap r s) mapResults s2 in
  Engine.material s3 = None /\
  (forall target t0 t1, Engine.transitionTo target t0 t1 s3 = Some s3).
Proof.
  intros Hm Hd. cbn zeta.
  assert (Engine.material (snd (Engine.setDisplacementImages mapUrls s)) = None
          /\ Engine.displacementTexture
               (snd (Engine.setDisplacementImages mapUrls s)) = None)
    as (Hm1 & Hd1).
  { unfold Engine.setDisplacementImages.
    destruct (len mapUrls =? 0); [now split|]. cbn [snd]. rsimpl.
    destruct (0 <? len (Engine.displacementTextures s)); [|now split].
    destruct (disposeAll_fields (Engine.displacementTextures s) s)
      as (_ & -> & _ & -> & _). now split. }
  set (s1 := snd (Engine.setDisplacementImages mapUrls s)) in *.
  assert (Engine.material
            (Engine.setImages_then imageUrls onComplete results s1) = None)
    as Hm2.
  { unfold Engine.setImages_then, Engine.setImages.
    destruct (len imageUrls =? 0); [exact Hm1|].
    apply deliverAll_without_map; rsimpl.
    - destruct (0 <? len (Engine.textures s1)); [|exact Hm1].
      destruct (disposeAll_fields (Engine.textures s1) s1) as (_ & -> & _).
      exact Hm1.
    - destruct (0 <? len (Engine.textures s1)); [|exact Hd1].
      destruct (disposeAll_fields (Engine.textures s1) s1)
        as (_ & _ & _ & -> & _).
      exact Hd1. }
  pose proof (deliverMaps_no_material mapResults _ Hm2) as Hm3.
  split; [exact Hm3|].
  intros target t0 t1. unfold Engine.transitionTo. rewrite Hm3.
  cbn [defined negb]. now rewrite orb_true_r.
Qed.

Lemma material_needs_map_before_images_witness :
  let s1 :=
    snd (Engine.setDisplacementImages [Some "m0"; Some "m1"; Some "m2"]%string
           Sample.fresh) in
  let s2 :=
    Engine.setImages_then ["a"; "b"; "c"]%string None
      [Engine.Loaded 0 (Sample.picture "a"); Engine.Loaded 1 (Sample.picture "b");
       Engine.Loaded 2 (Sample.picture "c")] s1 in
  let s3 :=
    fold_left (fun s r => Engine.deliverMap r s)
      [Engine.Loaded 0 Sample.map0] s2 in
  Engine.displacementTexture s3 = Some Sample.map0 /\
  get (Engine.textures s3) 1 = Some (Sample.picture "b") /\
  Engine.material s3 = None.
Proof.
  cbn zeta. split; [vm_compute; reflexivity|]. split; [vm_compute; reflexivity|].
  apply (material_needs_map_before_images
           [Some "m0"; Some "m1"; Some "m2"]%string ["a"; "b"; "c"]%string None
           [Engine.Loaded 0 (Sample.picture "a");
            Engine.Loaded 1 (Sample.picture "b");
            Engine.Loaded 2 (Sample.picture "c")]
           [Engine.Loaded 0 Sample.map0] Sample.fresh).
  - reflexivity.
  - reflexivity.
Defined.

(** ** A controller whose engine never shows anything *)

Lemma setDisplacementImages_fields (urls : list Engine.Url) (s : Engine.t) :
  Engine.material (snd (Engine.setDisplacementImages urls s))
  = Engine.material s /\
  Engine.displacementTexture (snd (Engine.setDisplacementImages urls s))
  = Engine.displacementTexture s.
Proof.
  unfold Engine.setDisplacementImages.
  destruct (len urls =? 0); [now split|]. cbn [snd]. rsimpl.
  destruct (0 <? len (Engine.displacementTextures s)); [|now split].
  destruct (disposeAll_fields (Engine.displacementTextures s) s)
    as (_ & -> & _ & -> & _). now split.
Qed.

Lemma setImages_fields
    (imageUrls : list string) (onComplete : option Engine.Callback)
    (s : Engine.t) :
  Engine.material (snd (Engine.setImages imageUrls onComplete s))
  = Engine.material s /\
  Engine.displacementTexture (snd (Engine.setImages imageUrls onComplete s))
  = Engine.displacementTexture s.
Proof.
  unfold Engine.setImages.
  destruct (len imageUrls =? 0); [now split|]. cbn [snd]. rsimpl.
  destruct (0 <? len (Engine.textures s)); [|now split].
  destruct (disposeAll_fields (Engine.textures s) s) as (_ & -> & _ & -> & _).
  now split.
Qed.

Lemma setInitialImage_without_material (i : Z) (s : Engine.t) :
  Engine.material s = None ->
  Engine.material (Engine.setInitialImage i s) = None /\
  Engine.displacementTexture (Engine.setInitialImage i s)
  = Engine.displacementTexture s.
Proof.
  intros Hm. unfold Engine.setInitialImage. rsimpl. rewrite Hm. cbn.
  destruct (negb _); rsimpl; now split.
Qed.

Lemma unlockScroll_keeps (c : Controller.t) :
  Controller.engine (Controller.unlockScroll c) = Controller.engine c /\
  Controller.imageUrls (Controller.unlockScroll c) = Controller.imageUrls c.
Proof.
  unfold Controller.unlockScroll, Controller.cleanup, Controller.clearTimeout.
  destruct (negb _); [now split|].
  destruct (Controller.scrollUnlockCleanup c); rsimpl;
    destruct (Controller.truthy_id _); rsimpl;
    destruct (Controller.scrollUnlockTimer c); now split.
Qed.

Lemma fire_keeps (id : nat) (now : Z) (c c' : Controller.t) :
  Controller.fire id now c = Some c' ->
  Controller.engine c' = Controller.engine c /\
  Controller.imageUrls c' = Controller.imageUrls c.
Proof.
  unfold Controller.fire.
  destruct (List.find _ _); [|discriminate].
  destruct (_ <=? _); [|discriminate]. intros [= <-].
  destruct (unlockScroll_keeps (Controller.clearTimeout (Some id) c))
    as (E1 & E2). split; [exact E1 | exact E2].
Qed.

(** A class change handled by a controller whose engine has no material
    leaves the engine as it is. *)
Lemma handleClassChange_without_material
    (classList : list string) (t0 t1 t2 : Z) (c c' : Controller.t)
    (e : Engine.t) :
  Controller.engine c = Some e -> Engine.material e = None ->
  Controller.handleClassChange classList t0 t1 t2 c = Some c' ->
  Controller.engine c' = Some e /\
  Controller.imageUrls c' = Controller.imageUrls c.
Proof.
  intros He Hm. unfold Controller.handleClassChange.
  destruct (Controller.isInitializing c); [intros [= <-]; now split|].
  destruct (Controller.extractStateNumber classList) as [n|];
    [|intros [= <-]; now split].
  destruct (bool_decide _); [intros [= <-]; now split|].
  set (c1 := c <| Controller.currentState := Some n |>).
  unfold Controller.triggerTransition.
  change (Controller.engine c1) with (Controller.engine c). rewrite He.
  destruct (lockScroll_keeps c1) as (E1 & _ & _ & E4 & _).
  rewrite E1. change (Controller.engine c1) with (Controller.engine c).
  rewrite He. cbn [mbind option_bind].
  assert (forall target, Engine.transitionTo target t0 t1 e = Some e) as ->.
  { intros target. unfold Engine.transitionTo. rewrite Hm.
    cbn [defined negb]. now rewrite orb_true_r. }
  cbn [mbind option_bind]. intros [= <-].
  match goal with
  | |- context [Controller.scheduleScrollUnlock t2 ?y] =>
      destruct (scheduleScrollUnlock_keeps t2 y) as (F1 & _ & _ & F4 & _)
  end.
  rewrite F1, F4. split; [reflexivity | exact E4].
Qed.

Lemma frame_without_material (now : Z) (e e' : Engine.t) :
  Engine.material e = None -> Engine.frame now e = Some e' -> e' = e.
Proof.
  intros Hm. unfold Engine.frame.
  destruct (Engine.frames e); [now intros [= <-]|].
  unfold Engine.animateProgress. rsimpl. rewrite Hm.
  destruct (Engine.startTime e); discriminate.
Qed.

Lemma loadTextures_deliver_no_map
    (r : Engine.TextureResult) (c : Engine.TexturesLoad) (s : Engine.t) :
  Engine.validDisplacementCount c = 0%nat ->
  match r with
  | Engine.ImageLoaded _ _ | Engine.ImageFailed _ => True
  | _ => False
  end ->
  let cs' := Engine.loadTextures_deliver r (c, s) in
  Engine.validDisplacementCount (fst cs') = 0%nat /\
  Engine.material (snd cs') = Engine.material s /\
  Engine.displacementTexture (snd cs') = Engine.displacementTexture s.
Proof.
  intros Hv Hr. cbn zeta.
  destruct r as [index texture | index | |]; try contradiction;
    cbn [Engine.loadTextures_deliver fst snd]; [|now repeat split].
  unfold Engine.loadTextures_onImage, Engine.texturesReady.
  cbn [Engine.validDisplacementCount]. rewrite Hv.
  cbn [Nat.ltb Nat.leb]. rewrite andb_false_r. cbn [fst snd].
  destruct (storeTexture_others index texture s) as (-> & _ & -> & _).
  now repeat split.
Qed.

Lemma initEngine_inert
    (maps : list string) (intensity : option float)
    (transitionSpeed : option float) (c : Controller.t) :
  Spec.inert (Controller.imageUrls c) maps
    (Controller.initEngine maps intensity transitionSpeed c).
Proof.
  unfold Spec.inert, Controller.initEngine. cbn zeta.
  eexists. cbn [Controller.controller Controller.maps Controller.constructorLoads
                  Controller.imageLoads Controller.mapLoads].
  split; [reflexivity|]. now repeat split.
Qed.

(** The first five parts of [Spec.inert], read off the session. *)
Ltac session_fields :=
  cbn; do 5 (split; [first [reflexivity | assumption | congruence]|]).

Lemma host_inert
    (images maps : list string) (ev : Controller.HostEvent)
    (x x' : Controller.Session) :
  ~ (2 < len images /\ len maps = 3) ->
  Spec.inert images maps x ->
  Controller.host ev x = Some x' ->
  Spec.inert images maps x'.
Proof.
  intros Hcfg (e & He & Hm & Hv & Hi & Hmaps & Hnomap & Hnoimg) Hstep.
  unfold Spec.inert.
  destruct ev as [ | r | r | r | classList t0 t1 t2 | now | id now | ];
    cbn [Controller.host] in Hstep.
  - (* timeout *)
    unfold Controller.runDeferred in Hstep.
    destruct (Controller.deferred x) as [[initial | initial]|]; [| |discriminate].
    + rewrite He in Hstep. cbn [mbind option_bind] in Hstep.
      rewrite Hmaps, Hi in Hstep.
      destruct (Z.eqb_spec (len maps) 3) as [H3 | H3].
      * destruct (setDisplacementImages_fields (Some <$> maps) e) as (Fm & Fd).
        destruct (Engine.setDisplacementImages (Some <$> maps) e)
          as [started e1]. cbn [snd] in Fm, Fd.
        destruct (Z.ltb_spec 2 (len images)) as [Hgt | Hle]; [tauto|].
        injection Hstep as <-. exists e1. session_fields.
        split; [tauto | exact Hnoimg].
      * destruct (Hnomap H3) as (Hd & Hml).
        destruct (Z.ltb_spec 2 (len images)) as [Hgt | Hle].
        -- destruct (setImages_fields images (Some "initEngine"%string) e)
             as (Fm & Fd).
           destruct (Engine.setImages images (Some "initEngine"%string) e)
             as [loads e1]. cbn [snd] in Fm, Fd.
           injection Hstep as <-. exists e1. session_fields.
           split; [intros _; split; congruence | lia].
        -- injection Hstep as <-. exists e. session_fields.
           split; [intros _; split; assumption | exact Hnoimg].
    + injection Hstep as <-. rewrite He.
      destruct (setInitialImage_without_material initial e Hm) as (Fm & Fd).
      exists (Engine.setInitialImage initial e). session_fields.
      split; [intros H3; destruct (Hnomap H3); split; congruence | exact Hnoimg].
  - (* a load of the constructor *)
    assert (match r with
            | Engine.ImageLoaded _ _ | Engine.ImageFailed _ => True
            | _ => False
            end) as Hr by (destruct r; [exact I | exact I | discriminate..]).
    assert ((e0 ← Controller.engine (Controller.controller x);
             let '(loads, e1) :=
               Engine.loadTextures_deliver r (Controller.constructorLoads x, e0) in
             Some {| Controller.controller :=
                       Controller.controller x <| Controller.engine := Some e1 |>;
                     Controller.maps := Controller.maps x;
                     Controller.constructorLoads := loads;
                     Controller.imageLoads := Controller.imageLoads x;
                     Controller.mapLoads := Controller.mapLoads x;
                     Controller.deferred := Controller.deferred x |})
            = Some x') as Hstep'
      by (destruct r; [exact Hstep | exact Hstep | discriminate..]).
    clear Hstep. rewrite He in Hstep'. cbn [mbind option_bind] in Hstep'.
    destruct (loadTextures_deliver_no_map r (Controller.constructorLoads x) e
                Hv Hr) as (Fv & Fm & Fd). cbn zeta in Fv, Fm, Fd.
    destruct (Engine.loadTextures_deliver r (Controller.constructorLoads x, e))
      as [loads e1]. cbn [fst snd] in Fv, Fm, Fd.
    injection Hstep' as <-. exists e1. session_fields.
    split; [intros H3; destruct (Hnomap H3); split; congruence | exact Hnoimg].
  - (* a load of setImages *)
    destruct (Controller.imageLoads x) as [loads|] eqn:Hil; [|discriminate].
    rewrite He in Hstep. cbn [mbind option_bind] in Hstep.
    assert (len maps <> 3) as H3.
    { intros H3. destruct (Z.le_gt_cases (len images) 2) as [Hle | Hgt].
      - specialize (Hnoimg Hle). discriminate.
      - apply Hcfg. lia. }
    destruct (Hnomap H3) as (Hd & Hml).
    destruct (deliverAll_without_map [r] loads e Hm Hd) as (Fm & Fd).
    cbn in Fm, Fd.
    destruct (Engine.deliver r (loads, e)) as [loads1 e1].
    cbn [snd] in Fm, Fd.
    injection Hstep as <-. exists e1. session_fields.
    split; [intros _; split; assumption | intros Hle].
    specialize (Hnoimg Hle). discriminate.
  - (* a load of setDisplacementImages *)
    destruct (Controller.mapLoads x) as [started|] eqn:Hml; [|discriminate].
    rewrite He in Hstep. cbn [mbind option_bind] in Hstep.
    injection Hstep as <-.
    pose proof (deliverMaps_no_material [r] e Hm) as Fm. cbn in Fm.
    exists (Engine.deliverMap r e). session_fields.
    split; [|exact Hnoimg].
    intros H3. destruct (Hnomap H3) as (_ & Hnone). congruence.
  - (* a class change *)
    destruct (Controller.handleClassChange classList t0 t1 t2
                (Controller.controller x)) as [c'|] eqn:Hc; [|discriminate].
    cbn in Hstep. injection Hstep as <-.
    destruct (handleClassChange_without_material _ _ _ _ _ _ e He Hm Hc)
      as (He' & Hi').
    exists e. session_fields.
    split; [exact Hnomap | exact Hnoimg].
  - (* an animation frame *)
    rewrite He in Hstep. cbn [mbind option_bind] in Hstep.
    destruct (Engine.frame now e) as [e1|] eqn:Hf; [|discriminate].
    cbn [mbind option_bind] in Hstep. injection Hstep as <-.
    apply (frame_without_material now e e1 Hm) in Hf. subst e1.
    exists e. session_fields.
    split; [exact Hnomap | exact Hnoimg].
  - (* the unlock timer *)
    destruct (Controller.fire id now (Controller.controller x)) as [c'|] eqn:Hc;
      [|discriminate].
    cbn in Hstep. injection Hstep as <-.
    destruct (fire_keeps id now _ c' Hc) as (He' & Hi').
    exists e. session_fields.
    split; [exact Hnomap | exact Hnoimg].
  - (* the end of the initialization *)
    injection Hstep as <-. exists e. session_fields.
    split; [exact Hnomap | exact Hnoimg].
Qed.

Lemma run_inert
    (images maps : list string) (events : list Controller.HostEvent)
    (x x' : Controller.Session) :
  ~ (2 < len images /\ len maps = 3) ->
  Spec.inert images maps x ->
  Controller.run events x = Some x' ->
  Spec.inert images maps x'.
Proof.
  intros Hcfg. revert x.
  induction events as [|ev events IH]; intros x Hx; cbn [Controller.run].
  - now intros [= <-].
  - destruct (Controller.host ev x) as [x1|] eqn:E; [|discriminate].
    cbn [mbind option_bind]. apply IH.
    exact (host_inert images maps ev x x1 Hcfg Hx E).
Qed.

(** X25: the engine that the revised controller creates gets a material
    only when the controller is configured with more than two images and
    with exactly three valid displacement maps.  With any other
    configuration, whatever the host does after [initEngine] (timers,
    loads that succeed or fail in any order, class changes, frames), the
    engine has no material: every [transitionTo], and so every class
    change, leaves it as it is. *)
Theorem initEngine_needs_three_maps_and_more_images
    (maps : list string) (intensity : option float)
    (transitionSpeed : option float) (c : Controller.t)
    (events : list Controller.HostEvent) (x : Controller.Session) :
  ~ (2 < len (Controller.imageUrls c) /\ len maps = 3) ->
  Controller.run events
    (Controller.initEngine maps intensity transitionSpeed c) = Some x ->
  exists e,
    Controller.engine (Controller.controller x) = Some e /\
    Engine.material e = None /\
    (forall target t0 t1, Engine.transitionTo target t0 t1 e = Some e).
Proof.
  intros Hcfg Hrun.
  destruct (run_inert (Controller.imageUrls c) maps events _ x Hcfg
              (initEngine_inert maps intensity transitionSpeed c) Hrun)
    as (e & He & Hm & _).
  exists e. split; [exact He|]. split; [exact Hm|].
  intros target t0 t1. unfold Engine.transitionTo. rewrite Hm.
  cbn [defined negb]. now rewrite orb_true_r.
Qed.

Lemma initEngine_needs_three_maps_and_more_images_witness :
  exists x e,
    Controller.run
      [Controller.constructorLoad (Engine.ImageLoaded 0 (Sample.picture "a"));
       Controller.constructorLoad (Engine.ImageLoaded 1 (Sample.picture "b"));
       Controller.timeout;
       Controller.imageLoad (Engine.Loaded 0 (Sample.picture "a"));
       Controller.imageLoad (Engine.Loaded 1 (Sample.picture "b"));
       Controller.imageLoad (Engine.Loaded 2 (Sample.picture "c"));
       Controller.initializationEnds;
       Controller.classChange ["state-3"]%string 9000 9000 9000]
      (Controller.initEngine ["map.png"]%string None None
         (Controller.readInitialState ["state-1"]%string
            (Controller.constructor
               {| Controller.cfg_imageUrls := Some ["a"; "b"; "c"]%string;
                  Controller.cfg_scrollLockDuration := None |})))
    = Some x /\
    Controller.engine (Controller.controller x) = Some e /\
    Controller.currentState (Controller.controller x) = Some 2 /\
    Engine.currentIndex e = 0 /\
    Engine.material e = None.
Proof.
  match goal with
  | |- exists x e, ?run = Some x /\ _ =>
      destruct run as [x|] eqn:E; [|vm_compute in E; discriminate]
  end.
  pose proof (fun H => initEngine_needs_three_maps_and_more_images
                          _ _ _ _ _ x H E) as T.
  destruct T as (e & He & Hm & _); [unfold len; cbn; lia|].
  exists x, e. split; [reflexivity|]. split; [exact He|].
  assert (Some x = Some x) as E' by reflexivity.
  rewrite <- E in E' at 1. vm_compute in E'. injection E' as <-.
  injection He as <-.
  split; [reflexivity|]. split; [reflexivity | exact Hm].
Defined.

(** ** The intensity of the shader *)

Lemma applyInitialImage_intensity (index : Z) (s : Engine.t) :
  Spec.intensityInStep s ->
  Spec.intensityInStep (Engine.applyInitialImage index s).
Proof.
  unfold Spec.intensityInStep, Engine.applyInitialImage. intros H.
  destruct (Engine.material s) as [m|] eqn:Hm; [|now rewrite Hm].
  specialize (H m eq_refl).
  destruct (negb _); [rewrite Hm; now intros ? [= <-]|].
  destruct (get (Engine.displacementTextures s) _);
    destruct (get (Engine.textures _) (Z.min _ _));
    rsimpl; intros ? [= <-]; rsimpl; exact H.
Qed.

Lemma createMaterial_intensity (s : Engine.t) :
  Spec.intensityInStep (Engine.createMaterial s).
Proof. unfold Spec.intensityInStep. rsimpl. now intros ? [= <-]. Qed.

Lemma onTexturesLoaded_intensity (s : Engine.t) :
  Spec.intensityInStep s -> Spec.intensityInStep (Engine.onTexturesLoaded s).
Proof.
  intros H. unfold Engine.onTexturesLoaded.
  destruct (_ || _ || _ || _); [exact H|].
  pose proof (createMaterial_intensity s) as Hc.
  destruct (Engine.pendingInitialIndex (Engine.createMaterial s))
    as [pending|]; [|exact Hc].
  exact (applyInitialImage_intensity pending _ Hc).
Qed.

Lemma storeTexture_intensity
    (index : nat) (texture : Engine.Texture) (s : Engine.t) :
  Spec.intensityInStep s ->
  Spec.intensityInStep (Engine.storeTexture index texture s).
Proof.
  unfold Engine.storeTexture. destruct (Engine.image texture); exact id.
Qed.

Lemma animateProgress_intensity (now : Z) (s s' : Engine.t) :
  Spec.intensityInStep s -> Engine.animateProgress now s = Some s' ->
  Spec.intensityInStep s'.
Proof.
  unfold Spec.intensityInStep, Engine.animateProgress. intros H.
  destruct (Engine.startTime s); [|discriminate].
  destruct (Engine.material s) as [m|]; [|discriminate].
  specialize (H m eq_refl). cbn [mbind option_bind].
  destruct (PrimFloat.ltb _ 1).
  - intros [= <-]. rsimpl. intros ? [= <-]. exact H.
  - rsimpl. destruct (Engine.targetIndex s); [|discriminate].
    intros [= <-]. rsimpl. intros ? [= <-]. exact H.
Qed.

Lemma transitionTo_intensity (target t0 t1 : Z) (s s' : Engine.t) :
  Spec.intensityInStep s -> Engine.transitionTo target t0 t1 s = Some s' ->
  Spec.intensityInStep s'.
Proof.
  intros H. unfold Engine.transitionTo.
  destruct (_ || _ || _); [now intros [= <-]|].
  destruct (negb _); [now intros [= <-]|].
  rsimpl. destruct (Engine.material s) as [m|] eqn:Hm; [|discriminate].
  cbn [mbind option_bind]. specialize (H m Hm).
  destruct (get (Engine.displacementTextures s) _);
    destruct (Engine.onImageChange s);
    apply animateProgress_intensity;
    unfold Spec.intensityInStep; rsimpl; intros ? [= <-]; exact H.
Qed.

Lemma disposeAll_intensity (a : list (option Engine.Texture)) (s : Engine.t) :
  Spec.intensityInStep s -> Spec.intensityInStep (Engine.disposeAll a s).
Proof.
  unfold Engine.disposeAll. revert s.
  induction a as [|[texture|] a IH]; intros s H; cbn [fold_left];
    [exact H | apply IH; exact H | apply IH; exact H].
Qed.

Lemma setInitialImage_intensity (i : Z) (s : Engine.t) :
  Spec.intensityInStep s -> Spec.intensityInStep (Engine.setInitialImage i s).
Proof.
  intros H. unfold Engine.setInitialImage.
  destruct (_ && _ && _).
  - apply applyInitialImage_intensity. exact H.
  - destruct (negb _); exact H.
Qed.

Lemma setImages_intensity
    (imageUrls : list string) (onComplete : option Engine.Callback)
    (s : Engine.t) :
  Spec.intensityInStep s ->
  Spec.intensityInStep (snd (Engine.setImages imageUrls onComplete s)).
Proof.
  intros H. unfold Engine.setImages.
  destruct (len imageUrls =? 0); [exact H|]. cbn [snd].
  destruct (0 <? len (Engine.textures s)); [|exact H].
  exact (disposeAll_intensity _ s H).
Qed.

Lemma deliver_intensity
    (r : Engine.LoadResult) (cs : Engine.SetImagesLoad * Engine.t) :
  Spec.intensityInStep (snd cs) ->
  Spec.intensityInStep (snd (Engine.deliver r cs)).
Proof.
  intros H. destruct r as [index texture | index]; cbn [Engine.deliver];
    [|exact H].
  unfold Engine.setImages_onLoad.
  pose proof (storeTexture_intensity index texture (snd cs) H) as H1.
  set (s1 := Engine.storeTexture index texture (snd cs)) in *.
  destruct (_ && _); [|exact H1].
  destruct (Engine.material s1) as [m|] eqn:Hm.
  - destruct (Engine.pendingInitialIndex s1) as [pending|]; cbn [snd].
    + exact (applyInitialImage_intensity pending s1 H1).
    + unfold Spec.intensityInStep. rsimpl. intros ? [= <-]. rsimpl.
      exact (H1 m Hm).
  - cbn [snd]. exact (onTexturesLoaded_intensity s1 H1).
Qed.

Lemma setDisplacementImages_intensity (urls : list Engine.Url) (s : Engine.t) :
  Spec.intensityInStep s ->
  Spec.intensityInStep (snd (Engine.setDisplacementImages urls s)).
Proof.
  intros H. unfold Engine.setDisplacementImages.
  destruct (len urls =? 0); [exact H|]. cbn [snd].
  destruct (0 <? len (Engine.displacementTextures s)); [|exact H].
  exact (disposeAll_intensity _ s H).
Qed.

Lemma deliverMap_intensity (r : Engine.LoadResult) (s : Engine.t) :
  Spec.intensityInStep s -> Spec.intensityInStep (Engine.deliverMap r s).
Proof.
  intros H. destruct r as [index texture | index]; cbn [Engine.deliverMap];
    [|exact H].
  unfold Engine.setDisplacementImages_onLoad.
  destruct (index =? 0)%nat; [|exact H]. rsimpl.
  destruct (Engine.material s) as [m|] eqn:Hm.
  - unfold Spec.intensityInStep. rsimpl. intros ? [= <-]. exact (H m Hm).
  - unfold Spec.intensityInStep. rsimpl. intros m0 E.
    rewrite ?Hm in E. discriminate E.
Qed.

Lemma loadTextures_deliver_intensity
    (r : Engine.TextureResult) (cs : Engine.TexturesLoad * Engine.t) :
  Spec.intensityInStep (snd cs) ->
  Spec.intensityInStep (snd (Engine.loadTextures_deliver r cs)).
Proof.
  intros H.
  destruct r as [index texture | index | index texture | index];
    cbn [Engine.loadTextures_deliver]; try exact H.
  - unfold Engine.loadTextures_onImage.
    pose proof (storeTexture_intensity index texture (snd cs) H) as H1.
    destruct (Engine.texturesReady _); cbn [snd];
      [exact (onTexturesLoaded_intensity _ H1) | exact H1].
  - unfold Engine.loadTextures_onDisplacement.
    match goal with
    | |- context [Engine.onTexturesLoaded ?y] =>
        assert (Spec.intensityInStep y) as H1
          by (destruct (index =? 0)%nat; exact H)
    end.
    destruct (Engine.texturesReady _); cbn [snd];
      [exact (onTexturesLoaded_intensity _ H1) | exact H1].
Qed.

(** X26: the intensity uniform of the material is the configured
    intensity, always: this holds for the engine as constructed and is
    kept by every modelled method and host event; [setIntensity] sets both
    to its argument, and a material created after it starts with that
    value. *)
Theorem intensity_uniform_in_step :
  (forall options maps, Spec.intensityInStep (snd (Engine.new options maps))) /\
  (forall value s,
     Spec.intensityInStep (Engine.setIntensity value s) /\
     Engine.intensity (Engine.setIntensity value s) = value) /\
  (forall value s,
     Spec.intensityInStep s ->
     Spec.intensityInStep (Engine.setTransitionSpeed value s)) /\
  (forall target t0 t1 s s',
     Spec.intensityInStep s -> Engine.transitionTo target t0 t1 s = Some s' ->
     Spec.intensityInStep s') /\
  (forall now s s',
     Spec.intensityInStep s -> Engine.frame now s = Some s' ->
     Spec.intensityInStep s') /\
  (forall i s,
     Spec.intensityInStep s -> Spec.intensityInStep (Engine.setInitialImage i s)) /\
  (forall imageUrls onComplete s,
     Spec.intensityInStep s ->
     Spec.intensityInStep (snd (Engine.setImages imageUrls onComplete s))) /\
  (forall r cs,
     Spec.intensityInStep (snd cs) ->
     Spec.intensityInStep (snd (Engine.deliver r cs))) /\
  (forall urls s,
     Spec.intensityInStep s ->
     Spec.intensityInStep (snd (Engine.setDisplacementImages urls s))) /\
  (forall r s,
     Spec.intensityInStep s -> Spec.intensityInStep (Engine.deliverMap r s)) /\
  (forall r cs,
     Spec.intensityInStep (snd cs) ->
     Spec.intensityInStep (snd (Engine.loadTextures_deliver r cs))).
Proof.
  split; [intros options maps m; discriminate|].
  split.
  { intros value s. unfold Engine.setIntensity, Spec.intensityInStep. rsimpl.
    destruct (Engine.material s) as [m|] eqn:Hm; rsimpl.
    - split; [now intros ? [= <-] | reflexivity].
    - split; [|reflexivity]. intros m0 E. rewrite ?Hm in E. discriminate E. }
  split; [intros value s H; exact H|].
  split; [exact transitionTo_intensity|].
  split.
  { intros now s s' H. unfold Engine.frame.
    destruct (Engine.frames s); [now intros [= <-]|].
    apply animateProgress_intensity. exact H. }
  split; [exact setInitialImage_intensity|].
  split; [exact setImages_intensity|].
  split; [exact deliver_intensity|].
  split; [exact setDisplacementImages_intensity|].
  split; [exact deliverMap_intensity | exact loadTextures_deliver_intensity].
Qed.

Lemma intensity_uniform_in_step_witness :
  exists m,
    Engine.material (Engine.setIntensity 0.7 Sample.started) = Some m /\
    Engine.u_intensity m = 0.7%float /\
    Engine.computeOverscanFactor (Engine.setIntensity 0.7 Sample.started)
    = 1.65%float.
Proof.
  destruct intensity_uniform_in_step as (_ & Hset & _).
  destruct (Hset 0.7%float Sample.started) as (Hstep & Hvalue).
  destruct (Engine.material (Engine.setIntensity 0.7 Sample.started))
    as [m|] eqn:Hm; [|vm_compute in Hm; discriminate].
  exists m. split; [reflexivity|].
  split; [rewrite (Hstep m Hm); exact Hvalue | vm_compute; reflexivity].
Defined.
